(** * Tölvera named-state runtime: [StateDict] and [State]

    A shallow embedding of [src/tolvera/state.py].  Python objects become
    records, dictionaries become association lists (where declaration order
    matters) or [gmap]s (the registry), and every method becomes a function
    in a small state-and-exception monad: an exception leaves behind the
    mutations performed before it was raised, as in Python. *)

From stdpp Require Import gmap strings pretty list fin_maps.
From Stdlib Require Import ZArith.

(** ** Exceptions and the execution monad *)

(** Python exceptions raised by the modelled code.  Assertions carry their
    message; for the other classes the payload identifies the offending
    name and the wording of the message is not modelled.  Neither are the
    diagnostics printed by the [except] clauses before they re-raise. *)
Inductive exn : Type :=
  | ValueError (detail : string)
  | TypeError (detail : string)
  | KeyError (key : string)
  | AttributeError (attr : string)
  | AssertionError (msg : string)
  | NotImplementedError (detail : string)
  | RecursionError.

Inductive result (A : Type) : Type :=
  | Ok (a : A)
  | Raise (e : exn).
Arguments Ok {A} a.
Arguments Raise {A} e.

(** A computation over a mutable state [S]: it returns a value or raises,
    and in both cases yields the state it left behind. *)
Definition M (S A : Type) : Type := S → result A * S.

Definition ret {S A} (a : A) : M S A := λ s, (Ok a, s).
Definition raise {S A} (e : exn) : M S A := λ s, (Raise e, s).
Definition bind {S A B} (m : M S A) (k : A → M S B) : M S B :=
  λ s, match m s with
       | (Ok a, s') => k a s'
       | (Raise e, s') => (Raise e, s')
       end.
Definition get_state {S} : M S S := λ s, (Ok s, s).
Definition put_state {S} (s : S) : M S unit := λ _, (Ok tt, s).
Definition modify {S} (f : S → S) : M S unit := λ s, (Ok tt, f s).
Definition lift_result {S A} (r : result A) : M S A := λ s, (r, s).

(** Run a computation on the second component of a pair state. *)
Definition on_snd {S T A} (m : M T A) : M (S * T) A :=
  λ st, let '(r, t') := m st.2 in (r, (st.1, t')).

Declare Scope py_scope.
Delimit Scope py_scope with py.
Notation "x ← y ; z" := (bind y (λ x, z))
  (at level 20, y at level 100, z at level 200, only parsing) : py_scope.
Notation "x ;; z" := (bind x (λ _, z))
  (at level 100, z at level 200, only parsing, right associativity) : py_scope.
Local Open Scope py_scope.

(** ** External collaborators

    The taichi backend, numpy and the type table [TiNpTypeMap] of
    [npndarray_dict] are consumed, not implemented, by [state.py]; what the
    code needs from them is taken as a parameter. *)
Class Externals : Type := {
  (** taichi [DataType] objects: the first entry of a schema triple *)
  DataType : Type;
  (** the [min] and [max] entries of a schema triple *)
  Bound : Type;
  (** the elements stored in the device field and in the numpy arrays *)
  scalar : Type;
  zero : scalar;
  (** numpy element types, and the table from taichi types to them *)
  NpType : Type;
  TiNpTypeMap : DataType → option NpType;
  (** scalars per instance of an attribute of the given type *)
  ti_elems : DataType → nat;
  np_elems : NpType → nat;
  (** Python's [int(...)] on a type object and on a bound *)
  py_int_DataType : DataType → result Z;
  py_int_Bound : Bound → result Z;
  (** the random source of the host mirror: seed, type, min, max, index *)
  draw : nat → NpType → Bound → Bound → nat → scalar;
  (** [osc.map.pascal_to_path] *)
  pascal_to_path : string → string;
}.

(** A schema: attribute name ↦ (type, min, max), in declaration order. *)
Definition schema `{Externals} : Type := list (string * (DataType * Bound * Bound)).

(** A dictionary of flattened arrays, one per attribute: the value exchanged
    by [field.to_numpy()], [field.from_numpy], [get_data] and [set_data]. *)
Definition npdata `{Externals} : Type := list (string * list scalar).

Definition layout `{Externals} (d : npdata) : list (string * nat) :=
  (λ kv, (kv.1, length kv.2)) <$> d.

Definition layout_size (lay : list (string * nat)) : nat :=
  foldr (λ kn acc, kn.2 + acc) 0 lay.

Definition layout_eqb (l1 l2 : list (string * nat)) : bool :=
  bool_decide (l1 = l2).

(** Number of instances implied by a shape. *)
Definition instances (shape : list nat) : nat := foldr Nat.mul 1 shape.

(** ** The device field

    The GPU backend is not part of the sources.  The spec says it "provides
    struct-of-arrays field allocation over a declared element-type mapping
    and shape" and "host↔device bulk copy primitives", and that a copy fails
    "if the two sides' element layouts disagree".  A field is held as the
    dictionary of its flattened arrays. *)
Module TiField.
Section TiField.
Context `{Externals}.

(** Modelled from the spec: the allocation of a struct field over the type
    entries of the schema, [struct.field(shape=self.shape)], absent from
    the sources; one zero-filled array per attribute, in declaration
    order. *)
Definition field (dict : schema) (shape : list nat) : npdata :=
  (λ kv, (kv.1, replicate (instances shape * ti_elems kv.2.1.1) zero)) <$> dict.

(** Modelled from the spec: [field.to_numpy()], absent from the sources; a
    copy of the device arrays. *)
Definition to_numpy : M npdata npdata := get_state.

(** Modelled from the spec: [field.from_numpy(data)], absent from the
    sources; overwrites the device arrays, and fails when the layout of
    [data] is not the field's. *)
Definition from_numpy (data : npdata) : M npdata unit :=
  f ← get_state;
  if layout_eqb (layout data) (layout f)
  then put_state data
  else raise (ValueError "from_numpy").
End TiField.
End TiField.

(** ** The host mirror

    Class [NpNdarrayDict] of [npndarray_dict.py] is not part of the sources.
    The spec says it "holds one array per declared attribute, each with a
    declared element type and [min,max] bound; supports randomize-in-place,
    bulk get/set against a device-compatible layout, and vector codecs". *)

(** Modelled from the spec: the objects of class [NpNdarrayDict], absent
    from the sources: the declared attributes with their element types and
    bounds, the shape, and one flattened array per attribute. *)
Record NpNdarrayDict `{Externals} : Type := {
  nd_dict : list (string * (NpType * Bound * Bound));
  nd_shape : list nat;
  nd_data : npdata;
}.

Module NpNdarrayDict.
Section NpNdarrayDict.
Context `{Externals}.

(** Modelled from the spec: the layout the mirror was declared with,
    "elements-per-instance × instances implied by shape" per attribute;
    [NpNdarrayDict] is absent from the sources. *)
Definition nd_layout (m : NpNdarrayDict) : list (string * nat) :=
  (λ kv, (kv.1, instances (nd_shape m) * np_elems kv.2.1.1)) <$> nd_dict m.

(** Modelled from the spec: the constructor [NpNdarrayDict(nddict, shape)],
    absent from the sources; the arrays start zero-filled. *)
Definition init (nddict : list (string * (NpType * Bound * Bound)))
    (shape : list nat) : NpNdarrayDict :=
  {| nd_dict := nddict; nd_shape := shape;
     nd_data := (λ kv, (kv.1, replicate (instances shape * np_elems kv.2.1.1) zero))
                  <$> nddict |}.

(** Modelled from the spec: the [size] attribute of [NpNdarrayDict], absent
    from the sources: the "sum over attributes of (elements-per-instance ×
    instances implied by shape)". *)
Definition size (m : NpNdarrayDict) : nat := layout_size (nd_layout m).

Definition with_data (m : NpNdarrayDict) (d : npdata) : NpNdarrayDict :=
  {| nd_dict := nd_dict m; nd_shape := nd_shape m; nd_data := d |}.

(** Modelled from the spec: [NpNdarrayDict.get_data], absent from the
    sources; the "bulk get against a device-compatible layout". *)
Definition get_data : M NpNdarrayDict npdata :=
  m ← get_state; ret (nd_data m).

(** Modelled from the spec: [NpNdarrayDict.set_data], absent from the
    sources; the bulk set replaces every array and fails when "the two
    sides' element layouts disagree". *)
Definition set_data (data : npdata) : M NpNdarrayDict unit :=
  m ← get_state;
  if layout_eqb (layout data) (nd_layout m)
  then put_state (with_data m data)
  else raise (ValueError "set_data").

(** Modelled from the spec: the values [NpNdarrayDict.randomise] draws,
    "independently per attribute" within the attribute's bounds; absent
    from the sources.  One draw per element, a fresh seed per attribute. *)
Fixpoint random_data (seed : nat)
    (nddict : list (string * (NpType * Bound * Bound))) (n : nat) : npdata :=
  match nddict with
  | [] => []
  | (k, (t, lo, hi)) :: rest =>
      (k, draw seed t lo hi <$> seq 0 (n * np_elems t))
        :: random_data (S seed) rest n
  end.

(** Modelled from the spec: [NpNdarrayDict.randomise], absent from the
    sources; it "fills the host mirror" in place.  The state is the mirror
    and the seed of the random source. *)
Definition randomise : M (NpNdarrayDict * nat) unit :=
  st ← get_state;
  let '(m, seed) := st in
  put_state (with_data m (random_data seed (nd_dict m) (instances (nd_shape m))),
             seed + length (nd_dict m)).

(** cut a vector into consecutive arrays following a layout *)
Fixpoint split_by (lay : list (string * nat)) (vec : list scalar) : npdata :=
  match lay with
  | [] => []
  | (k, n) :: lay' => (k, take n vec) :: split_by lay' (drop n vec)
  end.

(** Modelled from the spec: [NpNdarrayDict.to_vec], absent from the
    sources; it "addresses every attribute of every instance, in a fixed,
    deterministic attribute order matching schema declaration order". *)
Definition to_vec : M NpNdarrayDict (list scalar) :=
  m ← get_state; ret (concat (snd <$> nd_data m)).

(** Modelled from the spec: [NpNdarrayDict.from_vec], absent from the
    sources; the inverse addressing, failing "if the supplied vector's
    length does not match the addressed region's computed size; the check
    occurs before any write". *)
Definition from_vec (vec : list scalar) : M NpNdarrayDict unit :=
  m ← get_state;
  if bool_decide (length vec = size m)
  then put_state (with_data m (split_by (nd_layout m) vec))
  else raise (ValueError "from_vec").

(** association-list access to one attribute's array *)
Fixpoint lookup_attr (attr : string) (d : npdata) : option (list scalar) :=
  match d with
  | [] => None
  | (k, a) :: d' => if bool_decide (k = attr) then Some a else lookup_attr attr d'
  end.

Fixpoint update_attr (attr : string) (a' : list scalar) (d : npdata) : npdata :=
  match d with
  | [] => []
  | (k, a) :: d' =>
      if bool_decide (k = attr) then (k, a') :: d' else (k, a) :: update_attr attr a' d'
  end.

(** Modelled from the spec: [NpNdarrayDict.attr_to_vec], absent from the
    sources; it "addresses one attribute across all instances". *)
Definition attr_to_vec (attr : string) : M NpNdarrayDict (list scalar) :=
  m ← get_state;
  match lookup_attr attr (nd_data m) with
  | Some a => ret a
  | None => raise (KeyError attr)
  end.

(** Modelled from the spec: [NpNdarrayDict.attr_from_vec], absent from the
    sources; the length of the vector is checked against the attribute's
    array before the write. *)
Definition attr_from_vec (attr : string) (vec : list scalar) : M NpNdarrayDict unit :=
  m ← get_state;
  match lookup_attr attr (nd_data m) with
  | None => raise (KeyError attr)
  | Some a =>
      if bool_decide (length vec = length a)
      then put_state (with_data m (update_attr attr vec (nd_data m)))
      else raise (ValueError "attr_from_vec")
  end.
End NpNdarrayDict.
End NpNdarrayDict.

(** The slice codecs of [NpNdarrayDict], absent from the sources.  The spec
    only says that a slice "addresses a sub-range of instances across all
    attributes, where sliceSpec denotes start/stop/step per shape
    dimension", so the four methods are taken as parameters. *)
Class SliceCodecs `{Externals} : Type := {
  nd_slice_from_vec : list Z → list scalar → M NpNdarrayDict unit;
  nd_slice_to_vec : list Z → M NpNdarrayDict (list scalar);
  nd_attr_slice_from_vec : string → list Z → list scalar → M NpNdarrayDict unit;
  nd_attr_slice_to_vec : string → list Z → M NpNdarrayDict (list scalar);
}.

Definition zoom {S T A} (proj : S → T) (upd : T → S → S) (m : M T A) : M S A :=
  λ s, let '(r, t') := m (proj s) in (r, upd t' s).

Fixpoint for_each {S A} (l : list A) (body : A → M S unit) : M S unit :=
  match l with
  | [] => ret tt
  | a :: l' => body a;; for_each l' body
  end.

(** ** The session *)

(** The Tolvera context [tv], as far as [state.py] reads it.  [tv.iml] is
    either [False] or the mapping layer; [tv.osc] is either [False] ([None]
    here) or the routing layer, of which the code reads [client_name]. *)
Record Tolvera : Type := {
  name_clean : string;
  tv_iml : bool;
  tv_osc : option string;
}.

(** The value of an attribute found on a [State] object: the object (by its
    block name) and the attribute. *)
Record pyattr : Type := BoundAttr { attr_owner : string; attr_name : string }.

Inductive arg_range : Type :=
  | IntRange (a b c : Z)
  | StrRange (a b c : string).

Inductive lenarg : Type :=
  | LenInt (n : nat)
  | LenAttr (a : pyattr).

(** A handler registered with the routing layer, by the [osc.map] method
    that registered it. *)
Inductive OscRoute : Type :=
  | receive_args_inline (route : string) (handler : pyattr)
      (kwargs : list (string * arg_range))
  | receive_list_with_idx (route : string) (handler : pyattr)
      (idx : nat) (len : lenarg) (attr : option string).

Definition route_name (r : OscRoute) : string :=
  match r with
  | receive_args_inline n _ _ => n
  | receive_list_with_idx n _ _ _ _ => n
  end.

(** What the code does to its collaborators: the instances added to the
    mapping layer, the routes registered with the routing layer, the
    replies sent through [osc.host.return_to_sender_by_name], and the seed
    of the random source. *)
Record World `{Externals} : Type := {
  iml_instances : list string;
  osc_routes : list OscRoute;
  osc_sent : list ((string * string * scalar) * string);
  seed : nat;
}.

Section WorldOps.
Context `{Externals}.

Definition add_instance (n : string) (w : World) : World :=
  {| iml_instances := iml_instances w ++ [n]; osc_routes := osc_routes w;
     osc_sent := osc_sent w; seed := seed w |}.
Definition add_route (r : OscRoute) (w : World) : World :=
  {| iml_instances := iml_instances w; osc_routes := osc_routes w ++ [r];
     osc_sent := osc_sent w; seed := seed w |}.
Definition return_to_sender_by_name (msg : string * string * scalar)
    (client : string) (w : World) : World :=
  {| iml_instances := iml_instances w; osc_routes := osc_routes w;
     osc_sent := osc_sent w ++ [(msg, client)]; seed := seed w |}.
Definition set_seed (n : nat) (w : World) : World :=
  {| iml_instances := iml_instances w; osc_routes := osc_routes w;
     osc_sent := osc_sent w; seed := n |}.
End WorldOps.

(** ** State blocks *)

(** The [iml], [osc] arguments: [None], a string, or a tuple of strings. *)
Inductive flag : Type :=
  | FNone
  | FStr (s : string)
  | FTuple (l : list string).

(** The [shape] argument: an int or a tuple of ints. *)
Inductive shape_arg : Type :=
  | ShapeInt (n : nat)
  | ShapeTuple (l : list nat).

(** [self.iml] and [self.osc] first hold the "enabled" flag computed by
    [handle_get_set], then the session's layer object. *)
Inductive slot : Type :=
  | Enabled (b : bool)
  | Layer.

Record State `{Externals} : Type := {
  st_tv : Tolvera;
  st_name : string;
  st_dict : schema;
  st_shape : list nat;
  st_methods : option (list string);
  st_field : npdata;
  st_nddict : NpNdarrayDict;
  st_size : nat;
  st_setter_name : string;
  st_getter_name : string;
  st_iml : slot;
  st_iml_get : bool;
  st_iml_set : bool;
  st_osc : slot;
  st_osc_get : bool;
  st_osc_set : bool;
}.

(** Calling whatever object an attribute lookup returned, as
    [self.get((i, j), attribute)] does. *)
Class PyCall `{Externals} : Type := {
  py_call : pyattr → Z * Z → string → M (State * World) (option scalar);
}.

Module State.
Section State.
Context `{Externals} `{!SliceCodecs} `{!PyCall}.

(** *** Attribute assignment *)

Definition set_field (f : npdata) (self : State) : State :=
  {| st_tv := st_tv self; st_name := st_name self; st_dict := st_dict self;
     st_shape := st_shape self; st_methods := st_methods self;
     st_field := f; st_nddict := st_nddict self; st_size := st_size self;
     st_setter_name := st_setter_name self; st_getter_name := st_getter_name self;
     st_iml := st_iml self; st_iml_get := st_iml_get self; st_iml_set := st_iml_set self;
     st_osc := st_osc self; st_osc_get := st_osc_get self; st_osc_set := st_osc_set self |}.

Definition set_nddict (m : NpNdarrayDict) (self : State) : State :=
  {| st_tv := st_tv self; st_name := st_name self; st_dict := st_dict self;
     st_shape := st_shape self; st_methods := st_methods self;
     st_field := st_field self; st_nddict := m; st_size := st_size self;
     st_setter_name := st_setter_name self; st_getter_name := st_getter_name self;
     st_iml := st_iml self; st_iml_get := st_iml_get self; st_iml_set := st_iml_set self;
     st_osc := st_osc self; st_osc_get := st_osc_get self; st_osc_set := st_osc_set self |}.

Definition set_size (n : nat) (self : State) : State :=
  {| st_tv := st_tv self; st_name := st_name self; st_dict := st_dict self;
     st_shape := st_shape self; st_methods := st_methods self;
     st_field := st_field self; st_nddict := st_nddict self; st_size := n;
     st_setter_name := st_setter_name self; st_getter_name := st_getter_name self;
     st_iml := st_iml self; st_iml_get := st_iml_get self; st_iml_set := st_iml_set self;
     st_osc := st_osc self; st_osc_get := st_osc_get self; st_osc_set := st_osc_set self |}.

Definition set_tv (t : Tolvera) (self : State) : State :=
  {| st_tv := t; st_name := st_name self; st_dict := st_dict self;
     st_shape := st_shape self; st_methods := st_methods self;
     st_field := st_field self; st_nddict := st_nddict self; st_size := st_size self;
     st_setter_name := st_setter_name self; st_getter_name := st_getter_name self;
     st_iml := st_iml self; st_iml_get := st_iml_get self; st_iml_set := st_iml_set self;
     st_osc := st_osc self; st_osc_get := st_osc_get self; st_osc_set := st_osc_set self |}.

Definition set_name (n : string) (self : State) : State :=
  {| st_tv := st_tv self; st_name := n; st_dict := st_dict self;
     st_shape := st_shape self; st_methods := st_methods self;
     st_field := st_field self; st_nddict := st_nddict self; st_size := st_size self;
     st_setter_name := st_setter_name self; st_getter_name := st_getter_name self;
     st_iml := st_iml self; st_iml_get := st_iml_get self; st_iml_set := st_iml_set self;
     st_osc := st_osc self; st_osc_get := st_osc_get self; st_osc_set := st_osc_set self |}.

Definition set_struct (d : schema) (sh : list nat) (ms : option (list string))
    (self : State) : State :=
  {| st_tv := st_tv self; st_name := st_name self; st_dict := d;
     st_shape := sh; st_methods := ms;
     st_field := st_field self; st_nddict := st_nddict self; st_size := st_size self;
     st_setter_name := st_setter_name self; st_getter_name := st_getter_name self;
     st_iml := st_iml self; st_iml_get := st_iml_get self; st_iml_set := st_iml_set self;
     st_osc := st_osc self; st_osc_get := st_osc_get self; st_osc_set := st_osc_set self |}.

Definition set_accessor_names (sn gn : string) (self : State) : State :=
  {| st_tv := st_tv self; st_name := st_name self; st_dict := st_dict self;
     st_shape := st_shape self; st_methods := st_methods self;
     st_field := st_field self; st_nddict := st_nddict self; st_size := st_size self;
     st_setter_name := sn; st_getter_name := gn;
     st_iml := st_iml self; st_iml_get := st_iml_get self; st_iml_set := st_iml_set self;
     st_osc := st_osc self; st_osc_get := st_osc_get self; st_osc_set := st_osc_set self |}.

Definition set_iml_flags (f : bool * bool * bool) (self : State) : State :=
  {| st_tv := st_tv self; st_name := st_name self; st_dict := st_dict self;
     st_shape := st_shape self; st_methods := st_methods self;
     st_field := st_field self; st_nddict := st_nddict self; st_size := st_size self;
     st_setter_name := st_setter_name self; st_getter_name := st_getter_name self;
     st_iml := Enabled f.1.1; st_iml_get := f.1.2; st_iml_set := f.2;
     st_osc := st_osc self; st_osc_get := st_osc_get self; st_osc_set := st_osc_set self |}.

Definition set_osc_flags (f : bool * bool * bool) (self : State) : State :=
  {| st_tv := st_tv self; st_name := st_name self; st_dict := st_dict self;
     st_shape := st_shape self; st_methods := st_methods self;
     st_field := st_field self; st_nddict := st_nddict self; st_size := st_size self;
     st_setter_name := st_setter_name self; st_getter_name := st_getter_name self;
     st_iml := st_iml self; st_iml_get := st_iml_get self; st_iml_set := st_iml_set self;
     st_osc := Enabled f.1.1; st_osc_get := f.1.2; st_osc_set := f.2 |}.

Definition set_iml (s : slot) (self : State) : State :=
  {| st_tv := st_tv self; st_name := st_name self; st_dict := st_dict self;
     st_shape := st_shape self; st_methods := st_methods self;
     st_field := st_field self; st_nddict := st_nddict self; st_size := st_size self;
     st_setter_name := st_setter_name self; st_getter_name := st_getter_name self;
     st_iml := s; st_iml_get := st_iml_get self; st_iml_set := st_iml_set self;
     st_osc := st_osc self; st_osc_get := st_osc_get self; st_osc_set := st_osc_set self |}.

Definition set_osc (s : slot) (self : State) : State :=
  {| st_tv := st_tv self; st_name := st_name self; st_dict := st_dict self;
     st_shape := st_shape self; st_methods := st_methods self;
     st_field := st_field self; st_nddict := st_nddict self; st_size := st_size self;
     st_setter_name := st_setter_name self; st_getter_name := st_getter_name self;
     st_iml := st_iml self; st_iml_get := st_iml_get self; st_iml_set := st_iml_set self;
     st_osc := s; st_osc_get := st_osc_get self; st_osc_set := st_osc_set self |}.

(** The object before [__init__] has assigned anything.  No method reads
    an attribute before [__init__] has assigned it. *)
Definition blank : State :=
  {| st_tv := {| name_clean := ""; tv_iml := false; tv_osc := None |};
     st_name := ""; st_dict := []; st_shape := []; st_methods := None;
     st_field := []; st_nddict := NpNdarrayDict.init [] []; st_size := 0;
     st_setter_name := ""; st_getter_name := "";
     st_iml := Enabled false; st_iml_get := false; st_iml_set := false;
     st_osc := Enabled false; st_osc_get := false; st_osc_set := false |}.

(** *** Attribute lookup

    The names the body of [class State] defines, and the attributes
    [__init__] assigns on the instance ([methods] only when the argument
    is not [None]).  Looking up any other name raises [AttributeError]:
    [State] has no base class and no [__getattr__], and [ti.data_oriented]
    adds neither. *)
Definition class_attrs : list string :=
  [ "__init__"; "setup_data"; "create_struct_field"; "create_npndarray_dict";
    "randomise"; "setup_accessors"; "handle_accessor_flags"; "handle_get_set";
    "setup_iml_mapping"; "add_iml_setters"; "add_iml_getters";
    "setup_osc_mapping"; "add_osc_setters"; "add_osc_getters"; "osc_getter";
    "add_iml_osc_setters"; "add_iml_osc_getters"; "serialize"; "deserialize";
    "save"; "load"; "from_nddict"; "to_nddict"; "from_vec"; "to_vec";
    "attr_from_vec"; "attr_to_vec"; "slice_from_vec"; "slice_to_vec";
    "attr_slice_from_vec"; "attr_slice_to_vec"; "attr_size";
    "__getitem__"; "__call__" ].

Definition init_attrs : list string :=
  [ "tv"; "name"; "dict"; "shape"; "struct"; "field"; "nddict"; "size";
    "setter_name"; "getter_name"; "iml"; "iml_get"; "iml_set";
    "osc"; "osc_get"; "osc_set" ].

Definition instance_attrs (self : State) : list string :=
  init_attrs ++ (match st_methods self with Some _ => ["methods"] | None => [] end).

Definition getattr (self : State) (n : string) : result pyattr :=
  if bool_decide (n ∈ class_attrs ++ instance_attrs self)
  then Ok (BoundAttr (st_name self) n)
  else Raise (AttributeError n).

(** *** Device/host synchronisation *)

Definition on_field {A} (m : M npdata A) : M State A := zoom st_field set_field m.
Definition on_nddict {A} (m : M NpNdarrayDict A) : M State A :=
  zoom st_nddict set_nddict m.

(** The [except] clauses of [from_nddict] and [to_nddict] print and
    re-raise: the exception and the state are those of the [try] body. *)
Definition from_nddict : M State unit :=
  data ← on_nddict NpNdarrayDict.get_data;
  on_field (TiField.from_numpy data).

Definition to_nddict : M State unit :=
  data ← on_field TiField.to_numpy;
  on_nddict (NpNdarrayDict.set_data data).

(** *** npndarray_dict wrappers *)

Definition from_vec (vec : list scalar) : M State unit :=
  to_nddict;;
  on_nddict (NpNdarrayDict.from_vec vec);;
  from_nddict.

Definition to_vec : M State (list scalar) :=
  to_nddict;;
  on_nddict NpNdarrayDict.to_vec.

Definition attr_from_vec (attr : string) (vec : list scalar) : M State unit :=
  to_nddict;;
  on_nddict (NpNdarrayDict.attr_from_vec attr vec);;
  from_nddict.

Definition attr_to_vec (attr : string) : M State (list scalar) :=
  to_nddict;;
  on_nddict (NpNdarrayDict.attr_to_vec attr).

Definition slice_from_vec (slice_args : list Z) (slice_vec : list scalar) : M State unit :=
  to_nddict;;
  on_nddict (nd_slice_from_vec slice_args slice_vec);;
  from_nddict.

Definition slice_to_vec (slice_args : list Z) : M State (list scalar) :=
  to_nddict;;
  on_nddict (nd_slice_to_vec slice_args).

Definition attr_slice_from_vec (attr : string) (slice_args : list Z)
    (slice_vec : list scalar) : M State unit :=
  to_nddict;;
  on_nddict (nd_attr_slice_from_vec attr slice_args slice_vec);;
  from_nddict.

Definition attr_slice_to_vec (attr : string) (slice_args : list Z) : M State (list scalar) :=
  to_nddict;;
  on_nddict (nd_attr_slice_to_vec attr slice_args).

(** [attr_size] reads [self.nddict.data[attr].size] without a sync. *)
Definition attr_size (attr : string) : M State nat :=
  self ← get_state;
  match NpNdarrayDict.lookup_attr attr (nd_data (st_nddict self)) with
  | Some a => ret (length a)
  | None => raise (KeyError attr)
  end.

(** *** Construction *)

Definition on_self {A} (m : M State A) : M (State * World) A :=
  zoom fst (λ s st, (s, st.2)) m.
Definition on_world {A} (m : M World A) : M (State * World) A :=
  zoom snd (λ w st, (st.1, w)) m.
Definition get_self : M (State * World) State := on_self get_state.

Definition create_struct_field (dict : schema) (shape : shape_arg)
    (methods : option (list string)) : M State unit :=
  modify (set_struct dict
            (match shape with ShapeInt n => [n] | ShapeTuple l => l end)
            methods);;
  self ← get_state;
  modify (set_field (TiField.field (st_dict self) (st_shape self))).

Fixpoint np_schema (d : schema)
    : result (list (string * (NpType * Bound * Bound))) :=
  match d with
  | [] => Ok []
  | (k, (titype, min_val, max_val)) :: d' =>
      match TiNpTypeMap titype with
      | None => Raise (NotImplementedError k)
      | Some nptype =>
          match np_schema d' with
          | Ok nddict => Ok ((k, (nptype, min_val, max_val)) :: nddict)
          | Raise e => Raise e
          end
      end
  end.

Definition create_npndarray_dict : M State unit :=
  self ← get_state;
  nddict ← lift_result (np_schema (st_dict self));
  modify (set_nddict (NpNdarrayDict.init nddict (st_shape self)));;
  self ← get_state;
  modify (set_size (NpNdarrayDict.size (st_nddict self))).

Definition randomise : M (State * World) unit :=
  zoom (λ st, (st_nddict st.1, seed st.2))
       (λ ms st, (set_nddict ms.1 st.1, set_seed ms.2 st.2))
       NpNdarrayDict.randomise;;
  on_self from_nddict.

Definition setup_data (dict : schema) (shape : shape_arg) (randomise_ : bool)
    (methods : option (list string)) : M (State * World) unit :=
  on_self (create_struct_field dict shape methods);;
  on_self create_npndarray_dict;;
  if randomise_ then randomise else ret tt.

(** *** Accessor flags *)

Definition handle_get_set (flag_ : flag) : bool * bool * bool :=
  let enabled := match flag_ with FNone => false | _ => true end in
  let members := match flag_ with
                 | FNone => []
                 | FStr s => [s]
                 | FTuple l => l
                 end in
  let get := if enabled then bool_decide ("get" ∈ members) else false in
  let set := if enabled then bool_decide ("set" ∈ members) else false in
  (enabled, get, set).

Definition handle_accessor_flags (iml osc : flag) : M State unit :=
  modify (set_iml_flags (handle_get_set iml));;
  modify (set_osc_flags (handle_get_set osc)).

(** *** Mapping-layer accessors *)

(** [self.iml.add_instance(n)] *)
Definition iml_add_instance (n : string) : M (State * World) unit :=
  self ← get_self;
  match st_iml self with
  | Layer => on_world (modify (add_instance n))
  | Enabled _ => raise (AttributeError "add_instance")
  end.

Definition add_iml_setters : M (State * World) unit :=
  self ← get_self;
  let name := st_setter_name self in
  iml_add_instance (name +:+ "").

Definition add_iml_getters : M (State * World) unit :=
  self ← get_self;
  let name := st_getter_name self in
  iml_add_instance (name +:+ "").

Definition setup_iml_mapping : M (State * World) unit :=
  on_self (modify (set_iml Layer));;
  self ← get_self;
  (if st_iml_set self then add_iml_setters else ret tt);;
  (if st_iml_get self then add_iml_getters else ret tt).

(** *** Routing-layer accessors *)

(** [self.osc.map.<method>]: looking up a registration method of the
    routing layer's map; [self.osc] must be the layer, not the flag *)
Definition osc_map : M (State * World) unit :=
  self ← get_self;
  match st_osc self with
  | Layer => ret tt
  | Enabled _ => raise (AttributeError "map")
  end.

(** calling the registration method on its evaluated arguments *)
Definition register (r : OscRoute) : M (State * World) unit :=
  on_world (modify (add_route r)).

(** [self.<n>] and [getattr(self, n)], over the attribute lookup *)
Definition self_attr_by (look : State → string → result pyattr) (n : string)
    : M (State * World) pyattr :=
  self ← get_self; lift_result (look self n).

Definition self_attr : string → M (State * World) pyattr := self_attr_by getattr.

(** The body of [add_osc_setters], over the attribute lookup.  Python
    evaluates the callee, then the arguments from left to right, then
    calls. *)
Definition add_osc_setters_by (look : State → string → result pyattr)
    : M (State * World) unit :=
  self ← get_self;
  let name := st_setter_name self in
  (* randomise *)
  osc_map;;
  h ← self_attr_by look "_randomise";
  register (receive_args_inline (name +:+ "_randomise") h []);;
  (* state *)
  osc_map;;
  let f := receive_list_with_idx in
  h ← self_attr_by look "set_state_idx_from_list"; n ← self_attr_by look "len_state_idx";
  register (f (name +:+ "_idx") h 2 (LenAttr n) None);;
  h ← self_attr_by look "set_state_row_from_list"; n ← self_attr_by look "len_state_row";
  register (f (name +:+ "_row") h 1 (LenAttr n) None);;
  h ← self_attr_by look "set_state_col_from_list"; n ← self_attr_by look "len_state_col";
  register (f (name +:+ "_col") h 1 (LenAttr n) None);;
  h ← self_attr_by look "set_state_all_from_list"; n ← self_attr_by look "len_state_all";
  register (f (name +:+ "_all") h 0 (LenAttr n) None);;
  (* state attributes *)
  for_each (st_dict self) (λ kv,
    let k := kv.1 in
    h ← self_attr_by look "set_attr_idx";
    register (f (name +:+ "_" +:+ k +:+ "_idx") h 2 (LenInt 1) (Some k));;
    h ← self_attr_by look "set_attr_row"; n ← self_attr_by look "len_attr_row";
    register (f (name +:+ "_" +:+ k +:+ "_row") h 1 (LenAttr n) (Some k));;
    h ← self_attr_by look "set_attr_col"; n ← self_attr_by look "len_attr_col";
    register (f (name +:+ "_" +:+ k +:+ "_col") h 1 (LenAttr n) (Some k));;
    h ← self_attr_by look "set_attr_all"; n ← self_attr_by look "len_attr_all";
    register (f (name +:+ "_" +:+ k +:+ "_all") h 0 (LenAttr n) (Some k))).

(** [add_osc_setters], with the lookup Python performs on a [State]. *)
Definition add_osc_setters : M (State * World) unit := add_osc_setters_by getattr.

Definition add_osc_getters : M (State * World) unit :=
  self ← get_self;
  let name := st_getter_name self in
  for_each (st_dict self) (λ kv,
    let k := kv.1 in
    let v := kv.2 in
    a ← lift_result (py_int_DataType v.1.1);
    b ← lift_result (py_int_DataType v.1.1);
    c ← lift_result (py_int_Bound v.1.2);
    let ranges := IntRange a b c in
    let kwargs := [("i", ranges); ("j", ranges); ("attr", StrRange k k k)] in
    osc_map;;
    h ← self_attr "osc_getter";
    register (receive_args_inline name h kwargs)).

Definition add_iml_osc_setters : M (State * World) unit :=
  self ← get_self;
  let name := st_setter_name self in
  ret tt.

Definition add_iml_osc_getters : M (State * World) unit :=
  self ← get_self;
  let name := st_getter_name self in
  ret tt.

Definition setup_osc_mapping : M (State * World) unit :=
  on_self (modify (set_osc Layer));;
  self ← get_self;
  (if st_osc_set self
   then add_osc_setters;;
        if st_iml_set self then add_iml_osc_setters else ret tt
   else ret tt);;
  (if st_osc_get self
   then add_osc_getters;;
        if st_iml_get self then add_iml_osc_getters else ret tt
   else ret tt).

Definition truthy (s : slot) : bool :=
  match s with Enabled b => b | Layer => true end.

Definition setup_accessors (iml osc : flag) : M (State * World) unit :=
  self ← get_self;
  on_self (modify (set_accessor_names
                     (name_clean (st_tv self) +:+ "_set_" +:+ st_name self)
                     (name_clean (st_tv self) +:+ "_get_" +:+ st_name self)));;
  on_self (handle_accessor_flags iml osc);;
  self ← get_self;
  (if tv_iml (st_tv self) && truthy (st_iml self)
   then setup_iml_mapping else ret tt);;
  self ← get_self;
  (if bool_decide (is_Some (tv_osc (st_tv self))) && truthy (st_osc self)
   then setup_osc_mapping else ret tt).

(** The body of [osc_getter] once [self.get] has been looked up. *)
Definition osc_getter_with (get : pyattr) (i j : Z) (attribute : string)
    : M (State * World) (option scalar) :=
  ret_ ← py_call get (i, j) attribute;
  match ret_ with
  | Some v =>
      self ← get_self;
      match st_osc self, tv_osc (st_tv self) with
      | Layer, Some client_name =>
          let route := pascal_to_path (st_getter_name self) in
          on_world (modify (return_to_sender_by_name (route, attribute, v) client_name))
      | _, _ => raise (AttributeError "map")
      end
  | None => ret tt
  end;;
  ret ret_.

Definition osc_getter (i j : Z) (attribute : string)
    : M (State * World) (option scalar) :=
  get ← self_attr "get";
  osc_getter_with get i j attribute.

Definition __init__ (tolvera : Tolvera) (name : option string) (state : schema)
    (shape : option shape_arg) (iml osc : flag) (randomise_ : bool)
    (methods : option (list string)) : M (State * World) unit :=
  on_self (modify (set_tv tolvera));;
  match name with
  | None => raise (AssertionError "State must have a name.")
  | Some name =>
      on_self (modify (set_name name));;
      let shape := match shape with None => ShapeInt 1 | Some sh => sh end in
      setup_data state shape randomise_ methods;;
      setup_accessors iml osc
  end.
End State.
End State.

(** ** Python values held by, or assigned to, the registry *)

(** The arguments of [State.__init__] after [tolvera] and [name]. *)
Record StateArgs `{Externals} : Type := {
  arg_state : schema;
  arg_shape : option shape_arg;
  arg_iml : flag;
  arg_osc : flag;
  arg_randomise : bool;
  arg_methods : option (list string);
}.

(** A dict is passed to [State] as keyword arguments and a tuple as
    positional arguments; both are taken here to match the signature of
    [State.__init__], arguments left out standing at their defaults. *)
Inductive pyval `{Externals} : Type :=
  | VInt (z : Z)
  | VDict (kwargs : StateArgs)
  | VTuple (args : StateArgs)
  | VTolvera (tolvera : Tolvera)
  | VState (s : State)
  | VOther (type_name : string).

Inductive names : Type :=
  | Name (state : string)
  | Names (states : list string).

Fixpoint map_m {S A B} (f : A → M S B) (l : list A) : M S (list B) :=
  match l with
  | [] => ret []
  | a :: l' => b ← f a; bs ← map_m f l'; ret (b :: bs)
  end.

(** ** The registry

    [StateDict] extends [dotdict] of [utils], which is not part of the
    sources: a [dict] whose attribute reads are [dict.get].  [StateDict]
    overrides attribute assignment with [set], so only the reads of
    [self.tv] and [self.size] go through [dotdict]. *)
Module StateDict.
Section StateDict.
Context `{Externals} `{!SliceCodecs} `{!PyCall}.

Definition is_dict (v : pyval) : bool := match v with VDict _ => true | _ => false end.
Definition is_tuple (v : pyval) : bool := match v with VTuple _ => true | _ => false end.
Definition is_int (v : pyval) : bool := match v with VInt _ => true | _ => false end.

(** *** Dictionary primitives *)

(** [name in self] *)
Definition contains (name : string) : M (gmap string pyval * World) bool :=
  st ← get_state; ret (bool_decide (is_Some (st.1 !! name))).

(** [self[name]] *)
Definition getitem {W} (name : string) (get_d : W → gmap string pyval)
    : M W pyval :=
  st ← get_state;
  match get_d st !! name with
  | Some v => ret v
  | None => raise (KeyError name)
  end.

(** [self[name] = v] *)
Definition setitem (name : string) (v : pyval) : M (gmap string pyval * World) unit :=
  modify (λ st, (<[name := v]> st.1, st.2)).

(** [self.<name>], that is [dict.get(self, name)] *)
Definition getattr (name : string) : M (gmap string pyval * World) (option pyval) :=
  st ← get_state; ret (st.1 !! name).

(** [v.size] *)
Definition size_of (v : pyval) : result nat :=
  match v with
  | VState s => Ok (st_size s)
  | _ => Raise (AttributeError "size")
  end.

(** [cur + n] for the value [cur] of [self.size] *)
Definition py_add (cur : option pyval) (n : nat) : result pyval :=
  match cur with
  | Some (VInt z) => Ok (VInt (z + Z.of_nat n))
  | _ => Raise (TypeError "+")
  end.

(** [State(tolvera, name, ...)]: a fresh object run through [__init__].
    [tolvera] is the value of [self.tv]; [__init__] reads [name_clean]
    from it. *)
Definition new_State (tolvera : option pyval) (name : string) (a : StateArgs)
    : M (gmap string pyval * World) State :=
  match tolvera with
  | Some (VTolvera tolvera) =>
      on_snd (λ w,
        let '(r, (self, w')) :=
          State.__init__ tolvera (Some name) (arg_state a) (arg_shape a)
            (arg_iml a) (arg_osc a) (arg_randomise a) (arg_methods a)
            (State.blank, w) in
        (match r with Ok _ => Ok self | Raise e => Raise e end, w'))
  | _ => raise (AttributeError "name_clean")
  end.

(** *** [set] and [add]

    [add] assigns [self.size], which goes through [__setattr__] and so
    through [set] and [add] again; [add_with] and [set_with] take that
    nested assignment as an argument. *)
Definition add_with (setattr : string → pyval → M (gmap string pyval * World) unit)
    (name : string) (kwargs : pyval) : M (gmap string pyval * World) unit :=
  if bool_decide (name = "tv") && negb (is_dict kwargs) && negb (is_tuple kwargs)
  then setitem name kwargs
  else if bool_decide (name = "size") && is_int kwargs
  then setitem name kwargs
  else
    match kwargs with
    | VDict a | VTuple a =>
        tolvera ← getattr "tv";
        s ← new_State tolvera name a;
        setitem name (VState s);;
        cur ← getattr "size";
        v ← getitem name fst;
        n ← lift_result (size_of v);
        new ← lift_result (py_add cur n);
        setattr "size" new
    | _ => raise (TypeError "set() requires dict|tuple")
    end.

Definition set_with (setattr : string → pyval → M (gmap string pyval * World) unit)
    (name : string) (kwargs : pyval) : M (gmap string pyval * World) unit :=
  b ← contains name;
  if b && negb (bool_decide (name = "size"))
  then raise (ValueError name)
  else add_with setattr name kwargs.

(** The assignment [self.size = new] made by [add]: a call of [set] in
    which [add] takes its second branch and assigns nothing further. *)
Definition setattr_nested : string → pyval → M (gmap string pyval * World) unit :=
  set_with (λ _ _, raise RecursionError).

Definition add : string → pyval → M (gmap string pyval * World) unit :=
  add_with setattr_nested.

Definition set : string → pyval → M (gmap string pyval * World) unit :=
  set_with setattr_nested.

Definition __setattr__ : string → pyval → M (gmap string pyval * World) unit := set.

Definition __init__ (tolvera : Tolvera) : M (gmap string pyval * World) unit :=
  __setattr__ "tv" (VTolvera tolvera);;
  __setattr__ "size" (VInt 0).

(** *** Cross-block vectors

    [get_size] and [from_vec] read the blocks from [self.tv.s], the
    registry of the session, and nothing else of [self]: the state of
    these two functions is that registry. *)
Definition get_size (states : names) : M (gmap string pyval) nat :=
  let states := match states with Name s => [s] | Names l => l end in
  sizes ← map_m (λ state, s ← getitem state id; lift_result (size_of s)) states;
  ret (sum_list sizes).

(** [s.from_vec(vec)] on the block stored under [state]; the block is
    mutated in place. *)
Definition block_from_vec (state : string) (s : pyval) (vec : list scalar)
    : M (gmap string pyval) State :=
  match s with
  | VState blk =>
      λ d, let '(r, blk') := State.from_vec vec blk in
           (match r with Ok _ => Ok blk' | Raise e => Raise e end,
            <[state := VState blk']> d)
  | _ => raise (AttributeError "from_vec")
  end.

Fixpoint from_vec_loop (vector : list scalar) (states : list string)
    (vec_start : nat) : M (gmap string pyval) unit :=
  match states with
  | [] => ret tt
  | state :: states' =>
      s ← getitem state id;
      n ← lift_result (size_of s);
      let vec := take n (drop vec_start vector) in
      s' ← block_from_vec state s vec;
      from_vec_loop vector states' (vec_start + st_size s')
  end.

Definition from_vec (states : list string) (vector : list scalar)
    : M (gmap string pyval) unit :=
  sizes_sum ← get_size (Names states);
  if bool_decide (sizes_sum = length vector)
  then from_vec_loop vector states 0
  else raise (AssertionError ("sizes_sum=" +:+ pretty sizes_sum
                              +:+ " != len(vector)=" +:+ pretty (length vector))).
End StateDict.
End StateDict.

(** ** Running the model on a concrete session *)
Module Demo.
Inductive ti_type : Type := f32 | i32 | vec2 | u8.

(** [u8] has no numpy type; [vec2] has two scalars per instance; [int] of
    a taichi type raises [TypeError], the type defining no conversion. *)
#[global] Instance ext : Externals := {|
  DataType := ti_type;
  Bound := Z;
  scalar := Z;
  zero := 0%Z;
  NpType := ti_type;
  TiNpTypeMap := λ t, match t with u8 => None | _ => Some t end;
  ti_elems := λ t, match t with vec2 => 2 | _ => 1 end;
  np_elems := λ t, match t with vec2 => 2 | _ => 1 end;
  py_int_DataType := λ _, Raise (TypeError "int");
  py_int_Bound := λ b, Ok b;
  draw := λ seed _ lo hi i, (lo + Z.of_nat (seed + i) `mod` (hi - lo + 1))%Z;
  pascal_to_path := λ s, "/" +:+ s;
|}.

#[global] Instance slices : SliceCodecs := {|
  nd_slice_from_vec := λ _ _, raise (ValueError "slice_from_vec");
  nd_slice_to_vec := λ _, ret [];
  nd_attr_slice_from_vec := λ _ _ _, raise (ValueError "attr_slice_from_vec");
  nd_attr_slice_to_vec := λ _ _, ret [];
|}.

#[global] Instance call : PyCall := {| py_call := λ _ _ _, ret None |}.

Definition tv0 : Tolvera :=
  {| name_clean := "tolvera"; tv_iml := true; tv_osc := Some "client" |}.
Definition w0 : World :=
  {| iml_instances := []; osc_routes := []; osc_sent := []; seed := 0 |}.

(** a session whose mapping layer is switched off ([tv.iml] is [False]) *)
Definition tv_no_iml : Tolvera :=
  {| name_clean := "tolvera"; tv_iml := false; tv_osc := Some "client" |}.

(** the schema of the spec's example: two attributes in [-1, 1] *)
Definition xy : schema := [("x", (f32, -1, 1)); ("y", (f32, -1, 1))]%Z.
Definition args (d : schema) (n : nat) (iml osc : flag) : StateArgs :=
  {| arg_state := d; arg_shape := Some (ShapeInt n); arg_iml := iml; arg_osc := osc;
     arg_randomise := true; arg_methods := None |}.

(** a fresh registry, then block [p] of shape 4, then block [q] of shape 2
    with a mapping-layer getter *)
Definition s0 : gmap string pyval * World := (StateDict.__init__ tv0 (∅, w0)).2.
Definition p_spec : pyval := VDict (args xy 4 FNone FNone).
Definition q_spec : pyval := VDict (args xy 2 (FStr "get") FNone).
Definition s1 : gmap string pyval * World := (StateDict.set "p" p_spec s0).2.
Definition s2 : gmap string pyval * World := (StateDict.set "q" q_spec s1).2.

Definition block_of (d : gmap string pyval) (n : string) : State :=
  match d !! n with
  | Some (VState blk) => blk
  | _ => State.blank
  end.
Definition p_block : State := block_of s2.1 "p".
Definition q_block : State := block_of s2.1 "q".
End Demo.

(** ** The vector codecs of a block, as one family *)
Section Codec.
Context `{Externals} `{!SliceCodecs} `{!PyCall}.

Inductive codec : Type :=
  | CFromVec (vec : list scalar)
  | CToVec
  | CAttrFromVec (attr : string) (vec : list scalar)
  | CAttrToVec (attr : string)
  | CSliceFromVec (slice_args : list Z) (slice_vec : list scalar)
  | CSliceToVec (slice_args : list Z)
  | CAttrSliceFromVec (attr : string) (slice_args : list Z) (slice_vec : list scalar)
  | CAttrSliceToVec (attr : string) (slice_args : list Z).

Definition writes (c : codec) : bool :=
  match c with
  | CFromVec _ | CAttrFromVec _ _ | CSliceFromVec _ _ | CAttrSliceFromVec _ _ _ => true
  | _ => false
  end.

Definition returning {S A} (m : M S A) : M S (option A) := a ← m; ret (Some a).
Definition silent {S} (m : M S unit) : M S (option (list scalar)) := m;; ret None.

(** the method of [State] behind each codec *)
Definition run_codec (c : codec) : M State (option (list scalar)) :=
  match c with
  | CFromVec vec => silent (State.from_vec vec)
  | CToVec => returning State.to_vec
  | CAttrFromVec attr vec => silent (State.attr_from_vec attr vec)
  | CAttrToVec attr => returning (State.attr_to_vec attr)
  | CSliceFromVec a v => silent (State.slice_from_vec a v)
  | CSliceToVec a => returning (State.slice_to_vec a)
  | CAttrSliceFromVec attr a v => silent (State.attr_slice_from_vec attr a v)
  | CAttrSliceToVec attr a => returning (State.attr_slice_to_vec attr a)
  end.

(** the method of the host mirror each codec delegates to *)
Definition mirror_op (c : codec) : M NpNdarrayDict (option (list scalar)) :=
  match c with
  | CFromVec vec => silent (NpNdarrayDict.from_vec vec)
  | CToVec => returning NpNdarrayDict.to_vec
  | CAttrFromVec attr vec => silent (NpNdarrayDict.attr_from_vec attr vec)
  | CAttrToVec attr => returning (NpNdarrayDict.attr_to_vec attr)
  | CSliceFromVec a v => silent (nd_slice_from_vec a v)
  | CSliceToVec a => returning (nd_slice_to_vec a)
  | CAttrSliceFromVec attr a v => silent (nd_attr_slice_from_vec attr a v)
  | CAttrSliceToVec attr a => returning (nd_attr_slice_to_vec attr a)
  end.

(** The invariant [__init__] establishes between the two sides of a block:
    the device field and the host mirror have the same layout, and [size]
    is the mirror's size. *)
Definition synced_layout (self : State) : Prop :=
  layout (st_field self) = NpNdarrayDict.nd_layout (st_nddict self).

Definition wf (self : State) : Prop :=
  synced_layout self ∧ st_size self = NpNdarrayDict.size (st_nddict self).

(** The type table pairs each taichi type with a numpy type of as many
    scalars per instance. *)
Definition table_compatible : Prop :=
  ∀ ty t, TiNpTypeMap ty = Some t → np_elems t = ti_elems ty.

(** the host mirror with its arrays replaced by arbitrary stale content *)
Definition stale (d : npdata) (self : State) : State :=
  State.set_nddict (NpNdarrayDict.with_data (st_nddict self) d) self.

(** the host mirror right after a successful pull from the device *)
Definition pulled (self : State) : NpNdarrayDict :=
  NpNdarrayDict.with_data (st_nddict self) (st_field self).
End Codec.

(** ** Callers of the registry's cross-block load *)
Section Callers.
Context `{Externals} `{!SliceCodecs} `{!PyCall}.

(** [tv.s[state].to_vec()]; the block is mutated in place (its host mirror
    is refreshed from the device). *)
Definition block_to_vec (state : string) : M (gmap string pyval) (list scalar) :=
  s ← StateDict.getitem state id;
  match s with
  | VState blk =>
      λ d, let '(r, blk') := State.to_vec blk in (r, <[state := VState blk']> d)
  | _ => raise (AttributeError "to_vec")
  end.

(** the vectors of the named blocks, extracted in order *)
Definition to_vecs (states : list string) : M (gmap string pyval) (list (list scalar)) :=
  map_m block_to_vec states.

(** The cross-block load in the spec's words: the vector arrives already
    partitioned, one chunk per name in the given order, and each chunk is
    handed to that block's whole-block load. *)
Fixpoint load_chunks (states : list string) (chunks : list (list scalar))
    : M (gmap string pyval) unit :=
  match states, chunks with
  | state :: states', vec :: chunks' =>
      s ← StateDict.getitem state id;
      _ ← StateDict.block_from_vec state s vec;
      load_chunks states' chunks'
  | _, _ => ret tt
  end.

(** the [size] of the block stored under a name *)
Definition block_size (d : gmap string pyval) (n : string) : option nat :=
  match d !! n with
  | Some (VState blk) => Some (st_size blk)
  | _ => None
  end.

(** the device content of the block stored under a name, as a vector *)
Definition block_vec (d : gmap string pyval) (n : string) : list scalar :=
  match d !! n with
  | Some (VState blk) => concat (st_field blk).*2
  | _ => []
  end.

(** a block after its host mirror has been refreshed from the device *)
Definition pull_block (v : pyval) : pyval :=
  match v with
  | VState blk => VState (State.set_nddict (pulled blk) blk)
  | _ => v
  end.

(** [d'] is [d] with some blocks' host mirrors refreshed *)
Definition refreshed (d d' : gmap string pyval) : Prop :=
  ∀ n, d' !! n = d !! n ∨ d' !! n = pull_block <$> d !! n.
End Callers.

(** ** Accessor generation, as the specification describes it *)
Section Accessors.
Context `{Externals} `{!SliceCodecs} `{!PyCall}.

Definition add_routes (rs : list OscRoute) (w : World) : World :=
  {| iml_instances := iml_instances w; osc_routes := osc_routes w ++ rs;
     osc_sent := osc_sent w; seed := seed w |}.

Definition add_instances (ns : list string) (w : World) : World :=
  {| iml_instances := iml_instances w ++ ns; osc_routes := osc_routes w;
     osc_sent := osc_sent w; seed := seed w |}.

(** The getter registrations in the words of the spec's design note: one route per
    attribute, its [i] and [j] ranges built from the type entry and the min
    entry of the schema triple.  The max entry is not an input. *)
Fixpoint registered_getters (getter_name owner : string)
    (d : list (string * DataType * Bound)) : result unit * list OscRoute :=
  match d with
  | [] => (Ok tt, [])
  | (k, ty, lo) :: d' =>
      match py_int_DataType ty, py_int_Bound lo with
      | Ok a, Ok c =>
          let '(r, routes) := registered_getters getter_name owner d' in
          (r, receive_args_inline getter_name (BoundAttr owner "osc_getter")
                [("i", IntRange a a c); ("j", IntRange a a c);
                 ("attr", StrRange k k k)] :: routes)
      | Raise e, _ => (Raise e, [])
      | Ok _, Raise e => (Raise e, [])
      end
  end.

(** The names [add_osc_setters] looks up on the block: the handlers and the
    length attributes. *)
Definition setter_lookups : list string :=
  [ "_randomise"; "set_state_idx_from_list"; "len_state_idx";
    "set_state_row_from_list"; "len_state_row"; "set_state_col_from_list";
    "len_state_col"; "set_state_all_from_list"; "len_state_all";
    "set_attr_idx"; "set_attr_row"; "len_attr_row"; "set_attr_col";
    "len_attr_col"; "set_attr_all"; "len_attr_all" ].

(** The setter routes in the spec's words: the randomiser, the positional
    writers of the whole state by index, row, column and all, and one
    writer of each granularity per schema attribute; [h] gives what each
    looked-up name stands for. *)
Definition attr_setter_routes (name : string) (h : string → pyattr) (k : string)
    : list OscRoute :=
  [ receive_list_with_idx (name +:+ "_" +:+ k +:+ "_idx") (h "set_attr_idx") 2
      (LenInt 1) (Some k);
    receive_list_with_idx (name +:+ "_" +:+ k +:+ "_row") (h "set_attr_row") 1
      (LenAttr (h "len_attr_row")) (Some k);
    receive_list_with_idx (name +:+ "_" +:+ k +:+ "_col") (h "set_attr_col") 1
      (LenAttr (h "len_attr_col")) (Some k);
    receive_list_with_idx (name +:+ "_" +:+ k +:+ "_all") (h "set_attr_all") 0
      (LenAttr (h "len_attr_all")) (Some k) ].

Definition setter_routes (name : string) (h : string → pyattr) (d : schema)
    : list OscRoute :=
  [ receive_args_inline (name +:+ "_randomise") (h "_randomise") [];
    receive_list_with_idx (name +:+ "_idx") (h "set_state_idx_from_list") 2
      (LenAttr (h "len_state_idx")) None;
    receive_list_with_idx (name +:+ "_row") (h "set_state_row_from_list") 1
      (LenAttr (h "len_state_row")) None;
    receive_list_with_idx (name +:+ "_col") (h "set_state_col_from_list") 1
      (LenAttr (h "len_state_col")) None;
    receive_list_with_idx (name +:+ "_all") (h "set_state_all_from_list") 0
      (LenAttr (h "len_state_all")) None ]
  ++ concat ((λ kv, attr_setter_routes name h kv.1) <$> d).

Definition type_and_min (d : schema) : list (string * DataType * Bound) :=
  (λ kv, (kv.1, kv.2.1.1, kv.2.1.2)) <$> d.

(** What [setup_accessors] registers for a block of the given name and
    schema in the session [tolvera]: the mapping-layer instances and the
    routing-layer routes. *)
Definition generated (tolvera : Tolvera) (name : string) (d : schema)
    (iml osc : flag) : list string * list OscRoute :=
  let self := State.set_struct d [1] None
                (State.set_name name (State.set_tv tolvera State.blank)) in
  let w := {| iml_instances := []; osc_routes := []; osc_sent := []; seed := 0 |} in
  let w' := (State.setup_accessors iml osc (self, w)).2.2 in
  (iml_instances w', osc_routes w').

Definition setter_name_of (tolvera : Tolvera) (name : string) : string :=
  name_clean tolvera +:+ "_set_" +:+ name.
Definition getter_name_of (tolvera : Tolvera) (name : string) : string :=
  name_clean tolvera +:+ "_get_" +:+ name.

(** a route that can write: its name extends the block's setter name *)
Definition set_capable (tolvera : Tolvera) (name : string) (r : OscRoute) : Prop :=
  String.prefix (setter_name_of tolvera name) (route_name r) = true.

(** The generation policy as the spec states it: an accessor exists exactly
    when its flag was requested for the block. *)
Definition generated_iff_requested (tolvera : Tolvera) (name : string) (d : schema)
    (iml osc : flag) : Prop :=
  let g := generated tolvera name d iml osc in
  (setter_name_of tolvera name ∈ g.1 ↔ (State.handle_get_set iml).2 = true) ∧
  (getter_name_of tolvera name ∈ g.1 ↔ (State.handle_get_set iml).1.2 = true) ∧
  ((∃ r, r ∈ g.2 ∧ set_capable tolvera name r) ↔ (State.handle_get_set osc).2 = true) ∧
  ((∃ r, r ∈ g.2 ∧ route_name r = getter_name_of tolvera name)
     ↔ (State.handle_get_set osc).1.2 = true).
End Accessors.

(** ** The size ledger of the registry *)
Section Ledger.
Context `{Externals} `{!SliceCodecs} `{!PyCall}.

Definition size_z (v : pyval) : Z :=
  match v with
  | VState blk => Z.of_nat (st_size blk)
  | _ => 0
  end.

(** the sum of [size] over all blocks stored in the registry *)
Definition blocks_size (d : gmap string pyval) : Z :=
  map_fold (λ _ v acc, (size_z v + acc)%Z) 0%Z d.

(** a declaration of a block: a dict or a tuple of [State] arguments *)
Definition block_spec (kwargs : pyval) : bool :=
  StateDict.is_dict kwargs || StateDict.is_tuple kwargs.

(** The ledger is sound when [size] holds the sum over the stored blocks;
    it is broken once a block has been stored under the name [size]. *)
Definition ledger_sound (d : gmap string pyval) : Prop :=
  d !! "size" = Some (VInt (blocks_size d)).
Definition ledger_broken (d : gmap string pyval) : Prop :=
  ∃ blk, d !! "size" = Some (VState blk).

(** The registries (with the session's collaborators) reached from
    [StateDict(tolvera)] by declarations of blocks, whether they succeed or
    raise. *)
Inductive declared : gmap string pyval * World → Prop :=
  | declared_init tolvera w :
      declared (StateDict.__init__ tolvera (∅, w)).2
  | declared_set name kwargs σ :
      declared σ → block_spec kwargs = true →
      declared (StateDict.set name kwargs σ).2.
End Ledger.

(** ** Sequences of registry calls, and what a codec leaves alone *)
Section Histories.
Context `{Externals} `{!SliceCodecs} `{!PyCall}.

(** [set] called on each (name, value) pair in turn, the caller going on
    after a call that raised. *)
Definition sets (calls : list (string * pyval)) (σ : gmap string pyval * World)
    : gmap string pyval * World :=
  foldl (λ σ c, (StateDict.set c.1 c.2 σ).2) σ calls.

(** [self'] with the device field and the host mirror of [self]: equal to
    [self] exactly when the two blocks differ in nothing else *)
Definition with_data_of (self self' : State) : State :=
  State.set_field (st_field self) (State.set_nddict (st_nddict self) self').
End Histories.

(** ** The Taichi runtime wrapper

    A shallow embedding of [src/tolvera/taichi_.py].  The taichi library is
    consumed, not implemented, by the class: the calls made to it, and to
    [print], are recorded in the order in which they are made. *)
Module Taichi.

(** [ti.cpu], [ti.vulkan], [ti.metal] and [ti.cuda] *)
Inductive arch : Type := ti_cpu | ti_vulkan | ti_metal | ti_cuda.

(** The [TolveraContext], as far as the class reads it. *)
Record context : Type := { ctx_x : Z; ctx_y : Z }.

(** The keyword arguments the constructor reads; [None] is an absent key.
    [gpu] may be given as Python's [None]. *)
Record kwargs : Type := {
  kw_gpu : option (option string);
  kw_cpu : option bool;
  kw_fps : option Z;
  kw_seed : option Z;
  kw_headless : option bool;
  kw_name : option string;
}.

(** A window, by the arguments [ti.ui.Window] was given. *)
Record Window : Type := {
  win_name : string;
  win_res : Z * Z;
  win_fps_limit : Z;
  win_show_window : bool;
}.

(** The attributes of the object.  [canvas] and [gui] hold the window they
    were obtained from. *)
Record Taichi : Type := {
  ctx : context;
  gpu : option string;
  cpu : bool;
  fps : Z;
  seed : Z;
  headless : bool;
  name : string;
  window : option Window;
  canvas : option Window;
  gui : option Window;
}.

(** The lines printed, by their format string and its arguments. *)
Inductive line : Type :=
  | RunningOnCPU
  | RunningOn (gpu : option string)
  | InvalidGPU (gpu : option string)
  | Initialized (vars : Taichi).

(** the window [init_ui] asks for *)
Definition the_window (self : Taichi) : Window :=
  {| win_name := name self; win_res := (ctx_x (ctx self), ctx_y (ctx self));
     win_fps_limit := fps self; win_show_window := negb (headless self) |}.

(** the table [init_ti] looks the GPU name up in *)
Definition arch_map : gmap string arch :=
  {[ "vulkan" := ti_vulkan; "metal" := ti_metal; "cuda" := ti_cuda ]}.

(** the backend [init_ti] selects for an object: none for a GPU name that
    is not in the table *)
Definition selected (self : Taichi) : option arch :=
  if cpu self then Some ti_cpu
  else match gpu self with
       | Some g => arch_map !! g
       | None => None
       end.

(** the attributes [__init__] reads from the keyword arguments *)
Definition configured (context_ : context) (kw : kwargs) (now : Z) : Taichi :=
  {| ctx := context_;
     gpu := default (Some "vulkan") (kw_gpu kw);
     cpu := default false (kw_cpu kw);
     fps := default 120%Z (kw_fps kw);
     seed := default now (kw_seed kw);
     headless := default false (kw_headless kw);
     name := default "Tölvera" (kw_name kw);
     window := None; canvas := None; gui := None |}.

Section Taichi.
(** the value of [px.px.rgba] *)
Context {image : Type}.

Inductive event : Type :=
  | ti_init (a : arch) (random_seed : Z)
  | ui_Window (w : Window)
  | get_canvas (w : Window)
  | get_gui (w : Window)
  | set_image (canvas_of : Window) (img : image)
  | window_show (w : Window)
  | printed (l : line).

Definition call (e : event) : M (Taichi * list event) unit :=
  modify (λ st, (st.1, st.2 ++ [e])).
Definition get_self : M (Taichi * list event) Taichi :=
  st ← get_state; ret st.1.
Definition set_self (f : Taichi → Taichi) : M (Taichi * list event) unit :=
  modify (λ st, (f st.1, st.2)).

Definition set_gpu (g : option string) (self : Taichi) : Taichi :=
  {| ctx := ctx self; gpu := g; cpu := cpu self; fps := fps self; seed := seed self;
     headless := headless self; name := name self; window := window self;
     canvas := canvas self; gui := gui self |}.
Definition set_window (w : Window) (self : Taichi) : Taichi :=
  {| ctx := ctx self; gpu := gpu self; cpu := cpu self; fps := fps self; seed := seed self;
     headless := headless self; name := name self; window := Some w;
     canvas := canvas self; gui := gui self |}.
Definition set_canvas (w : Window) (self : Taichi) : Taichi :=
  {| ctx := ctx self; gpu := gpu self; cpu := cpu self; fps := fps self; seed := seed self;
     headless := headless self; name := name self; window := window self;
     canvas := Some w; gui := gui self |}.
Definition set_gui (w : Window) (self : Taichi) : Taichi :=
  {| ctx := ctx self; gpu := gpu self; cpu := cpu self; fps := fps self; seed := seed self;
     headless := headless self; name := name self; window := window self;
     canvas := canvas self; gui := Some w |}.

(** The object before [__init__] has assigned anything. *)
Definition blank : Taichi :=
  {| ctx := {| ctx_x := 0; ctx_y := 0 |}; gpu := None; cpu := false; fps := 0;
     seed := 0; headless := false; name := ""; window := None; canvas := None;
     gui := None |}.

Definition init_ti : M (Taichi * list event) unit :=
  self ← get_self;
  if cpu self
  then call (ti_init ti_cpu (seed self));;
       set_self (set_gpu None);;
       call (printed RunningOnCPU)
  else match gpu self with
       | Some g =>
           match arch_map !! g with
           | Some a =>
               call (ti_init a (seed self));;
               call (printed (RunningOn (gpu self)))
           | None => call (printed (InvalidGPU (gpu self)))
           end
       | None => call (printed (InvalidGPU (gpu self)))
       end.

Definition init_ui : M (Taichi * list event) unit :=
  self ← get_self;
  let w := the_window self in
  call (ui_Window w);;
  set_self (set_window w);;
  call (get_canvas w);;
  set_self (set_canvas w);;
  call (get_gui w);;
  set_self (set_gui w).

(** [now] is the value of [int(time.time())]. *)
Definition __init__ (context_ : context) (kw : kwargs) (now : Z)
    : M (Taichi * list event) unit :=
  set_self (λ self,
    {| ctx := context_;
       gpu := default (Some "vulkan") (kw_gpu kw);
       cpu := default false (kw_cpu kw);
       fps := default 120%Z (kw_fps kw);
       seed := default now (kw_seed kw);
       headless := default false (kw_headless kw);
       name := default "Tölvera" (kw_name kw);
       window := window self; canvas := canvas self; gui := gui self |});;
  init_ti;;
  init_ui;;
  self ← get_self;
  call (printed (Initialized self)).

Definition show (img : image) : M (Taichi * list event) unit :=
  self ← get_self;
  match canvas self with
  | None => raise (AttributeError "canvas")
  | Some c =>
      call (set_image c img);;
      if negb (headless self)
      then match window self with
           | None => raise (AttributeError "window")
           | Some w => call (window_show w)
           end
      else ret tt
  end.

Definition __call__ (img : image) : M (Taichi * list event) unit := show img.

(** *** Reading the record of calls *)

(** the backend initialisations, by architecture and random seed *)
Definition ti_inits (evs : list event) : list (arch * Z) :=
  omap (λ e, match e with ti_init a s => Some (a, s) | _ => None end) evs.

(** the windows opened *)
Definition opened (evs : list event) : list Window :=
  omap (λ e, match e with ui_Window w => Some w | _ => None end) evs.

(** the images handed to the canvas *)
Definition images (evs : list event) : list image :=
  omap (λ e, match e with set_image _ img => Some img | _ => None end) evs.

(** the windows shown *)
Definition shown (evs : list event) : list Window :=
  omap (λ e, match e with window_show w => Some w | _ => None end) evs.
End Taichi.
Arguments event : clear implicits.
End Taichi.

(** ** The claims in the spec's words, over every use of the registry *)
Section Stated.
Context `{Externals} `{!SliceCodecs} `{!PyCall}.

(** The size invariant as the spec states it ("always equals the true
    sum"): in every registry reached from [StateDict(tolvera)] by calls of
    [set], whatever they assign, a successful declaration of a block leaves
    [size] equal to the sum of [size] over the stored blocks. *)
Definition size_always_sum : Prop :=
  ∀ tolvera w calls name kwargs σ',
    block_spec kwargs = true →
    StateDict.set name kwargs (sets calls (StateDict.__init__ tolvera (∅, w)).2)
    = (Ok tt, σ') →
    σ'.1 !! "size" = Some (VInt (blocks_size σ'.1)).

(** how [setup_accessors] ends for a block of the given name and schema in
    the session [tolvera]: the run observed by [generated] *)
Definition generation_result (tolvera : Tolvera) (name : string) (d : schema)
    (iml osc : flag) : result unit :=
  let self := State.set_struct d [1] None
                (State.set_name name (State.set_tv tolvera State.blank)) in
  let w := {| iml_instances := []; osc_routes := []; osc_sent := []; seed := 0 |} in
  (State.setup_accessors iml osc (self, w)).1.
End Stated.

(** ** Further concrete runs *)
Module Runs.
(** a schema whose second attribute has a type without numpy type *)
Definition xc : schema := [("x", (Demo.f32, -1, 1)); ("c", (Demo.u8, 0, 255))]%Z.

(** the block stored under [p] after the first declaration, and the block
    a second construction under that name gives *)
Definition p_old : State := Demo.block_of Demo.s1.1 "p".
Definition p_args : StateArgs := Demo.args Demo.xy 4 FNone FNone.
Definition is_ok {A} (r : result A) : bool :=
  match r with Ok _ => true | Raise _ => false end.
Definition built (name : string) (a : StateArgs) (r : gmap string pyval) (w : World)
    : State :=
  match (StateDict.new_State (r !! "tv") name a (r, w)).1 with
  | Ok s => s
  | Raise _ => State.blank
  end.

(** the fresh registry after the caller has assigned 100 to [size] *)
Definition overwritten : gmap string pyval * World :=
  sets [("size", VInt 100)] Demo.s0.

(** the registry after a block has been declared under the name [size] *)
Definition broken : gmap string pyval * World :=
  (StateDict.set "size" Demo.p_spec Demo.s2).2.

(** one chunk for block [q] and one for block [p] *)
Definition chunks : list (list scalar) := [[1; 2; 3; 4]; replicate 8 0]%Z.

(** a session on the CPU that also names a GPU, and a headless one *)
Definition ctx0 : Taichi.context := {| Taichi.ctx_x := 1920; Taichi.ctx_y := 1080 |}.
Definition kw_cpu : Taichi.kwargs :=
  {| Taichi.kw_gpu := Some (Some "cuda"); Taichi.kw_cpu := Some true;
     Taichi.kw_fps := None; Taichi.kw_seed := Some 7%Z;
     Taichi.kw_headless := None; Taichi.kw_name := None |}.
End Runs.

(** * Properties *)

Ltac unfold_m :=
  unfold bind, ret, raise, get_state, put_state, modify, lift_result, zoom,
    on_snd in *.

Section CodecFacts.
Context `{Externals} `{!SliceCodecs} `{!PyCall}.

Lemma layout_split_by lay (vec : list scalar) :
  length vec = layout_size lay → layout (NpNdarrayDict.split_by lay vec) = lay.
Proof.
  revert vec. induction lay as [|[k n] lay IH]; intros vec Hlen; [done|].
  simpl in *. rewrite length_take, IH by (rewrite length_drop; lia).
  f_equal. f_equal. lia.
Qed.

Lemma split_by_concat (d : npdata) :
  NpNdarrayDict.split_by (layout d) (concat d.*2) = d.
Proof.
  unfold layout. induction d as [|[k a] d IH]; [done|].
  csimpl. rewrite take_app_length, drop_app_length, IH. done.
Qed.

Lemma concat_split_by lay (vec : list scalar) :
  length vec = layout_size lay → concat (NpNdarrayDict.split_by lay vec).*2 = vec.
Proof.
  revert vec. induction lay as [|[k n] lay IH]; intros vec Hlen; simpl in *.
  - by destruct vec.
  - rewrite IH by (rewrite length_drop; lia). apply take_drop.
Qed.

Lemma length_concat_layout (d : npdata) :
  length (concat d.*2) = layout_size (layout d).
Proof.
  unfold layout. induction d as [|[k a] d IH]; [done|].
  csimpl. rewrite length_app, IH. done.
Qed.

Lemma layout_eqb_true l1 l2 : layout_eqb l1 l2 = true ↔ l1 = l2.
Proof. unfold layout_eqb. apply bool_decide_eq_true. Qed.

Lemma to_nddict_synced self :
  synced_layout self →
  State.to_nddict self = (Ok tt, State.set_nddict (pulled self) self).
Proof.
  unfold synced_layout. intros Hl.
  unfold State.to_nddict, State.on_field, State.on_nddict,
    TiField.to_numpy, NpNdarrayDict.set_data, pulled.
  unfold_m. destruct self; simpl in *.
  rewrite (proj2 (layout_eqb_true _ _) Hl). done.
Qed.

Lemma to_nddict_stale d self :
  synced_layout self →
  State.to_nddict (stale d self) = State.to_nddict self.
Proof.
  intros Hl. rewrite (to_nddict_synced self Hl).
  rewrite to_nddict_synced by (destruct self; exact Hl).
  by destruct self.
Qed.

Lemma from_nddict_synced self :
  layout (nd_data (st_nddict self)) = layout (st_field self) →
  State.from_nddict self = (Ok tt, State.set_field (nd_data (st_nddict self)) self).
Proof.
  intros Hl. unfold State.from_nddict, State.on_field, State.on_nddict,
    TiField.from_numpy, NpNdarrayDict.get_data.
  unfold_m. destruct self; simpl in *.
  rewrite (proj2 (layout_eqb_true _ _) Hl). by destruct st_nddict0.
Qed.
End CodecFacts.

Section CodecSync.
Context `{Externals} `{!SliceCodecs} `{!PyCall}.

(** a codec of the shape pull, mirror method, push *)
Lemma writer_run (op : M NpNdarrayDict unit) self :
  synced_layout self →
  (State.to_nddict;; State.on_nddict op;; State.from_nddict) self =
  match op (pulled self) with
  | (Ok _, m) => State.from_nddict (State.set_nddict m self)
  | (Raise e, m) => (Raise e, State.set_nddict m self)
  end.
Proof.
  intros Hl. unfold bind at 1. rewrite (to_nddict_synced self Hl).
  unfold bind, State.on_nddict, zoom.
  replace (st_nddict (State.set_nddict (pulled self) self)) with (pulled self)
    by (by destruct self).
  destruct (op (pulled self)) as [[[]|e] m]; by destruct self.
Qed.

(** a codec of the shape pull, mirror method *)
Lemma reader_run {A} (op : M NpNdarrayDict A) self :
  synced_layout self →
  (State.to_nddict;; State.on_nddict op) self =
  let '(r, m) := op (pulled self) in (r, State.set_nddict m self).
Proof.
  intros Hl. unfold bind at 1. rewrite (to_nddict_synced self Hl).
  unfold State.on_nddict, zoom.
  replace (st_nddict (State.set_nddict (pulled self) self)) with (pulled self)
    by (by destruct self).
  destruct (op (pulled self)) as [r m]; by destruct self.
Qed.

Lemma from_nddict_run self :
  State.from_nddict self =
  if layout_eqb (layout (nd_data (st_nddict self))) (layout (st_field self))
  then (Ok tt, State.set_field (nd_data (st_nddict self)) self)
  else (Raise (ValueError "from_numpy"), self).
Proof.
  unfold State.from_nddict, State.on_field, State.on_nddict,
    TiField.from_numpy, NpNdarrayDict.get_data.
  unfold_m. destruct self as [? ? ? ? ? ? [] ? ? ? ? ? ? ? ? ?]; simpl.
  by destruct (layout_eqb _ _).
Qed.

(** Every codec is its mirror method run on the pulled mirror, followed,
    for the writing codecs, by the push. *)
Lemma run_codec_synced c self :
  synced_layout self →
  run_codec c self =
  match mirror_op c (pulled self) with
  | (Ok r, m) =>
      if writes c
      then match State.from_nddict (State.set_nddict m self) with
           | (Ok _, self') => (Ok r, self')
           | (Raise e, self') => (Raise e, self')
           end
      else (Ok r, State.set_nddict m self)
  | (Raise e, m) => (Raise e, State.set_nddict m self)
  end.
Proof.
  intros Hl.
  destruct c; unfold run_codec, mirror_op, writes, silent, returning,
      State.from_vec, State.to_vec, State.attr_from_vec, State.attr_to_vec,
      State.slice_from_vec, State.slice_to_vec, State.attr_slice_from_vec,
      State.attr_slice_to_vec;
    unfold bind at 1;
    first [ rewrite (writer_run _ self Hl) | rewrite (reader_run _ self Hl) ];
    unfold bind, ret;
    match goal with
    | |- context [ ?op (pulled self) ] =>
        destruct (op (pulled self)) as [[r|e] m]; try done
    end.
  all: destruct (State.from_nddict _) as [[[]|e] s']; done.
Qed.





(** A codec that raises leaves the device field as it was. *)
Lemma codec_error_keeps_device c self e self' :
  synced_layout self →
  run_codec c self = (Raise e, self') → st_field self' = st_field self.
Proof.
  intros Hl Hrun. rewrite (run_codec_synced c self Hl) in Hrun.
  destruct (mirror_op c (pulled self)) as [[r0|e0] m].
  - destruct (writes c); [|done].
    rewrite from_nddict_run in Hrun.
    destruct (layout_eqb _ _); [done|].
    injection Hrun as _ <-. by destruct self.
  - injection Hrun as _ <-. by destruct self.
Qed.

Lemma to_vec_synced self :
  synced_layout self →
  State.to_vec self
  = (Ok (concat (st_field self).*2), State.set_nddict (pulled self) self).
Proof.
  intros Hl. unfold State.to_vec. by rewrite (reader_run _ self Hl).
Qed.

Lemma mirror_from_vec_own (m : NpNdarrayDict) (d : npdata) :
  layout d = NpNdarrayDict.nd_layout m →
  NpNdarrayDict.from_vec (concat d.*2) m = (Ok tt, NpNdarrayDict.with_data m d).
Proof.
  intros Hl. unfold NpNdarrayDict.from_vec, NpNdarrayDict.size. unfold_m.
  rewrite bool_decide_eq_true_2 by (by rewrite length_concat_layout, Hl).
  by rewrite <- Hl, split_by_concat.
Qed.

(** Loading a vector whose chunks are the arrays [d] leaves the device
    holding exactly [d]. *)
Lemma from_vec_synced self (d : npdata) :
  synced_layout self → layout d = layout (st_field self) →
  State.from_vec (concat d.*2) self
  = (Ok tt, State.set_field d (State.set_nddict (NpNdarrayDict.with_data (st_nddict self) d) self)).
Proof.
  intros Hl Hd. unfold State.from_vec. rewrite (writer_run _ self Hl).
  rewrite mirror_from_vec_own by (by rewrite Hd; destruct self).
  rewrite from_nddict_run.
  replace (layout_eqb _ _) with true
    by (symmetry; apply layout_eqb_true; by destruct self).
  by destruct self.
Qed.

(** C5: for every block, loading the block's own whole-block vector is a
    no-op: [to_vec] returns a vector, [from_vec] of that vector succeeds,
    leaves the device field as it was, and a subsequent [to_vec] returns
    the same vector. *)
Theorem from_vec_to_vec_noop self :
  synced_layout self →
  ∃ vec self1 self2,
    State.to_vec self = (Ok vec, self1) ∧
    State.from_vec vec self1 = (Ok tt, self2) ∧
    st_field self2 = st_field self ∧
    State.to_vec self2 = (Ok vec, self2).
Proof.
  intros Hl.
  exists (concat (st_field self).*2), (State.set_nddict (pulled self) self),
    (State.set_nddict (pulled self) self).
  assert (Hl1 : synced_layout (State.set_nddict (pulled self) self))
    by (by destruct self).
  split; [by apply to_vec_synced|]. split; [|split].
  - replace (st_field self) with (st_field (State.set_nddict (pulled self) self))
      at 1 by (by destruct self).
    rewrite (from_vec_synced _ _ Hl1) by done. by destruct self.
  - by destruct self.
  - rewrite (to_vec_synced _ Hl1). by destruct self.
Qed.
End CodecSync.

Section CrossBlock.
Context `{Externals} `{!SliceCodecs} `{!PyCall}.
Implicit Types d : gmap string pyval.

Lemma getitem_run n d :
  StateDict.getitem n id d =
  match d !! n with
  | Some v => (Ok v, d)
  | None => (Raise (KeyError n), d)
  end.
Proof. unfold StateDict.getitem. unfold_m. simpl. by destruct (d !! n). Qed.

(** [get_size] reads the registry and never changes it. *)
Lemma get_size_reads states d : (StateDict.get_size states d).2 = d.
Proof.
  unfold StateDict.get_size.
  generalize (match states with Name s => [s] | Names l => l end). intros l.
  unfold bind at 1.
  assert (Hm : ∀ l' : list string,
    (map_m (λ state, s ← StateDict.getitem state id;
                     lift_result (StateDict.size_of s)) l' d).2 = d).
  { induction l' as [|n l' IH]; [done|].
    simpl. unfold bind at 1. unfold bind at 1. rewrite getitem_run.
    destruct (d !! n) as [v|]; [|done].
    unfold lift_result at 1. destruct (StateDict.size_of v); [|done].
    unfold bind at 1.
    destruct (map_m _ l' d) as [[bs|e] d']; simpl in *; by subst. }
  specialize (Hm l).
  destruct (map_m _ l d) as [[bs|e] d']; simpl in *; by subst.
Qed.

(** C3: the registry's whole-vector load fails with the size-mismatch
    assertion when the sum of the named blocks' sizes differs from the
    length of the vector; the check precedes every mutation, so the registry
    and all its blocks are left exactly as they were.  More generally,
    unless that sum is computed and equals the length, the load raises and
    changes nothing. *)
Theorem from_vec_size_mismatch (states : list string) (vector : list scalar) d :
  (∀ sizes_sum,
     (StateDict.get_size (Names states) d).1 = Ok sizes_sum →
     sizes_sum ≠ length vector →
     StateDict.from_vec states vector d
     = (Raise (AssertionError ("sizes_sum=" +:+ pretty sizes_sum
                               +:+ " != len(vector)=" +:+ pretty (length vector))), d)) ∧
  ((StateDict.get_size (Names states) d).1 ≠ Ok (length vector) →
   ∃ e, StateDict.from_vec states vector d = (Raise e, d)).
Proof.
  pose proof (get_size_reads (Names states) d) as Hd.
  unfold StateDict.from_vec, bind.
  destruct (StateDict.get_size (Names states) d) as [[n|e] d']; simpl in *; subst d'.
  - split.
    + intros ? [= <-] Hne. by rewrite bool_decide_eq_false_2.
    + intros Hne. rewrite bool_decide_eq_false_2 by congruence. eauto.
  - split; [done|]. eauto.
Qed.

Lemma from_vec_keeps_size vec (blk : State) :
  st_size (State.from_vec vec blk).2 = st_size blk.
Proof.
  unfold State.from_vec, State.to_nddict, State.from_nddict, State.on_field,
    State.on_nddict, TiField.to_numpy, TiField.from_numpy,
    NpNdarrayDict.set_data, NpNdarrayDict.get_data, NpNdarrayDict.from_vec.
  unfold_m. destruct blk; simpl.
  repeat (match goal with
          | |- context [ if ?b then _ else _ ] => destruct b
          end; simpl); done.
Qed.

Lemma block_from_vec_run n (blk : State) vec d :
  StateDict.block_from_vec n (VState blk) vec d =
  ((match (State.from_vec vec blk).1 with
    | Ok _ => Ok (State.from_vec vec blk).2
    | Raise e => Raise e
    end), <[n := VState (State.from_vec vec blk).2]> d).
Proof.
  unfold StateDict.block_from_vec. by destruct (State.from_vec vec blk).
Qed.

Lemma block_size_insert d n (blk blk' : State) m :
  d !! n = Some (VState blk) → st_size blk' = st_size blk →
  block_size (<[n := VState blk']> d) m = block_size d m.
Proof.
  intros Hn Hs. unfold block_size.
  destruct (decide (n = m)) as [->|Hne].
  - by rewrite lookup_insert_eq, Hn, Hs.
  - by rewrite lookup_insert_ne.
Qed.

Lemma sum_list_lengths (chunks : list (list scalar)) :
  sum_list (length <$> chunks) = length (concat chunks).
Proof.
  induction chunks as [|c cs IH]; [done|].
  csimpl. by rewrite length_app, IH.
Qed.

Lemma get_size_chunks states (chunks : list (list scalar)) d :
  Forall2 (λ n c, block_size d n = Some (length c)) states chunks →
  StateDict.get_size (Names states) d = (Ok (length (concat chunks)), d).
Proof.
  intros Hall. unfold StateDict.get_size. unfold bind at 1.
  assert (Hm : map_m (λ state, s ← StateDict.getitem state id;
                               lift_result (StateDict.size_of s)) states d
               = (Ok (length <$> chunks), d)).
  { induction Hall as [|n c ns cs Hn _ IH]; [done|].
    simpl. unfold bind at 1. unfold bind at 1. rewrite getitem_run.
    unfold block_size in Hn.
    destruct (d !! n) as [[]|]; try done. injection Hn as Hn.
    unfold lift_result at 1. simpl. unfold bind at 1. rewrite IH.
    unfold ret. by rewrite Hn. }
  rewrite Hm. unfold ret. by rewrite sum_list_lengths.
Qed.

(** The loop of [from_vec] hands each block the chunk of the vector that
    starts where the previous block's chunk ended and is as long as the
    block's [size]. *)
Lemma from_vec_loop_chunks states (chunks : list (list scalar)) pre d :
  Forall2 (λ n c, block_size d n = Some (length c)) states chunks →
  StateDict.from_vec_loop (pre ++ concat chunks) states (length pre) d
  = load_chunks states chunks d.
Proof.
  revert chunks pre d.
  induction states as [|n ns IH]; intros chunks pre d Hall;
    inversion Hall as [|? c ? cs Hn Hall']; subst; [done|].
  simpl. unfold bind at 1. unfold bind at 3. rewrite getitem_run.
  unfold block_size in Hn.
  destruct (d !! n) as [[| | | |blk|]|] eqn:Hd; try done. injection Hn as Hn.
  unfold bind at 1. unfold lift_result at 1. simpl.
  rewrite Hn, drop_app_length, take_app_length.
  unfold bind.
  pose proof (from_vec_keeps_size c blk) as Hs.
  destruct (State.from_vec c blk) as [[[]|e] blk']; simpl in *; [|done].
  rewrite Hs, Hn, <- length_app, (assoc_L (++)).
  apply IH.
  eapply Forall2_impl; [exact Hall'|].
  intros m c' Hm. simpl in Hm. by rewrite (block_size_insert d n blk blk' m).
Qed.

(** The cross-block load partitions the vector contiguously, in the order
    of the names, each chunk as long as the block's [size]. *)
Lemma from_vec_partition states (chunks : list (list scalar)) d :
  Forall2 (λ n c, block_size d n = Some (length c)) states chunks →
  StateDict.from_vec states (concat chunks) d = load_chunks states chunks d.
Proof.
  intros Hall. unfold StateDict.from_vec. unfold bind at 1.
  rewrite (get_size_chunks _ _ _ Hall), bool_decide_eq_true_2 by done.
  apply (from_vec_loop_chunks states chunks [] d Hall).
Qed.

Lemma refreshed_refl d : refreshed d d.
Proof. intros n. by left. Qed.

Lemma refreshed_block d d' n (blk : State) :
  refreshed d d' → d !! n = Some (VState blk) → synced_layout blk →
  ∃ blk', d' !! n = Some (VState blk') ∧ synced_layout blk' ∧
          st_field blk' = st_field blk ∧ st_size blk' = st_size blk ∧
          State.set_nddict (pulled blk') blk' = State.set_nddict (pulled blk) blk.
Proof.
  intros Hr Hn Hl. destruct (Hr n) as [Hd|Hd]; rewrite Hn in Hd.
  - by exists blk.
  - exists (State.set_nddict (pulled blk) blk). split; [done|]. by destruct blk.
Qed.

Lemma refreshed_insert d d' n (blk : State) :
  refreshed d d' → d !! n = Some (VState blk) →
  refreshed d (<[n := VState (State.set_nddict (pulled blk) blk)]> d').
Proof.
  intros Hr Hn m. destruct (decide (n = m)) as [<-|Hne].
  - right. by rewrite lookup_insert_eq, Hn.
  - rewrite lookup_insert_ne by done. apply Hr.
Qed.

Lemma from_vec_own (blk : State) :
  synced_layout blk →
  State.from_vec (concat (st_field blk).*2) blk
  = (Ok tt, State.set_nddict (pulled blk) blk).
Proof.
  intros Hl. rewrite (from_vec_synced blk (st_field blk) Hl) by done.
  by destruct blk.
Qed.

Lemma block_to_vec_run d d' n (blk : State) :
  refreshed d d' → d !! n = Some (VState blk) → synced_layout blk →
  block_to_vec n d'
  = (Ok (block_vec d n), <[n := VState (State.set_nddict (pulled blk) blk)]> d').
Proof.
  intros Hr Hn Hl.
  destruct (refreshed_block d d' n blk Hr Hn Hl) as (blk' & Hn' & Hl' & Hf & _ & Hp).
  unfold block_to_vec, block_vec. unfold bind at 1.
  rewrite getitem_run, Hn', Hn, (to_vec_synced blk' Hl'), Hf, Hp. done.
Qed.

Lemma to_vecs_run states d d' :
  (∀ n, n ∈ states → ∃ blk, d !! n = Some (VState blk) ∧ synced_layout blk) →
  refreshed d d' →
  ∃ d'', to_vecs states d' = (Ok (block_vec d <$> states), d'') ∧ refreshed d d''.
Proof.
  revert d'. induction states as [|n ns IH]; intros d' Hblk Hr.
  - by exists d'.
  - destruct (Hblk n) as (blk & Hn & Hl); [by left|].
    destruct (IH (<[n := VState (State.set_nddict (pulled blk) blk)]> d'))
      as (d'' & Hrun & Hr'').
    { intros m Hm. apply Hblk. by right. }
    { by apply refreshed_insert. }
    exists d''. split; [|done].
    unfold to_vecs in *. simpl. unfold bind at 1.
    rewrite (block_to_vec_run d d' n blk Hr Hn Hl).
    unfold bind at 1. by rewrite Hrun.
Qed.

Lemma load_chunks_own states d d' :
  (∀ n, n ∈ states → ∃ blk, d !! n = Some (VState blk) ∧ synced_layout blk) →
  refreshed d d' →
  ∃ d'', load_chunks states (block_vec d <$> states) d' = (Ok tt, d'')
         ∧ refreshed d d''.
Proof.
  revert d'. induction states as [|n ns IH]; intros d' Hblk Hr.
  - by exists d'.
  - destruct (Hblk n) as (blk & Hn & Hl); [by left|].
    destruct (IH (<[n := VState (State.set_nddict (pulled blk) blk)]> d'))
      as (d'' & Hrun & Hr'').
    { intros m Hm. apply Hblk. by right. }
    { by apply refreshed_insert. }
    exists d''. split; [|done].
    destruct (refreshed_block d d' n blk Hr Hn Hl) as (blk' & Hn' & Hl' & Hf & _ & Hp).
    assert (E : State.from_vec (block_vec d n) blk'
                = (Ok tt, State.set_nddict (pulled blk) blk)).
    { unfold block_vec. by rewrite Hn, <- Hf, (from_vec_own blk' Hl'), Hp. }
    csimpl. unfold bind at 1. rewrite getitem_run, Hn'.
    unfold bind at 1. rewrite block_from_vec_run, E.
    simpl. exact Hrun.
Qed.

Lemma wf_block_size (blk : State) :
  wf blk → st_size blk = length (concat (st_field blk).*2).
Proof.
  intros [Hl Hs]. rewrite Hs, length_concat_layout. unfold synced_layout in Hl.
  by rewrite Hl.
Qed.

End CrossBlock.

Section AccessorFacts.
Context `{Externals} `{!SliceCodecs} `{!PyCall}.

(** The names [State] never defines. *)
Lemma getattr_undefined self n :
  n ∉ State.class_attrs → n ∉ State.instance_attrs self →
  State.getattr self n = Raise (AttributeError n).
Proof.
  intros Hc Hi. unfold State.getattr. rewrite bool_decide_eq_false_2; [done|].
  by intros [?|?]%elem_of_app.
Qed.

Lemma not_instance_attr self n :
  bool_decide (n ∈ State.init_attrs) = false → n ≠ "methods" →
  n ∉ State.instance_attrs self.
Proof.
  intros Hn%bool_decide_eq_false Hm. unfold State.instance_attrs.
  intros [Hin|Hin]%elem_of_app; [done|].
  destruct (st_methods self).
  - by apply list_elem_of_singleton in Hin.
  - by apply elem_of_nil in Hin.
Qed.

Lemma getattr__randomise self :
  State.getattr self "_randomise" = Raise (AttributeError "_randomise").
Proof.
  apply getattr_undefined.
  - by apply (bool_decide_eq_false_1 _).
  - by apply not_instance_attr.
Qed.

Lemma getattr_get self :
  State.getattr self "get" = Raise (AttributeError "get").
Proof.
  apply getattr_undefined.
  - by apply (bool_decide_eq_false_1 _).
  - by apply not_instance_attr.
Qed.

Lemma add_osc_setters_run self w :
  State.add_osc_setters (self, w)
  = (Raise (AttributeError (match st_osc self with
                            | Layer => "_randomise"
                            | Enabled _ => "map"
                            end)), (self, w)).
Proof.
  unfold State.add_osc_setters, State.add_osc_setters_by, State.osc_map,
    State.get_self, State.on_self, State.self_attr_by.
  unfold_m. simpl. destruct (st_osc self); [done|].
  by rewrite getattr__randomise.
Qed.

(** Every handler and length attribute the setter generation looks up is
    missing from [State]. *)
Lemma setter_handlers_undefined self n :
  n ∈ setter_lookups → State.getattr self n = Raise (AttributeError n).
Proof.
  unfold setter_lookups. intros Hn. apply getattr_undefined.
  - repeat (apply elem_of_cons in Hn as [->|Hn];
            [by apply (bool_decide_eq_false_1 _)|]).
    by apply elem_of_nil in Hn.
  - repeat (apply elem_of_cons in Hn as [->|Hn];
            [by apply not_instance_attr|]).
    by apply elem_of_nil in Hn.
Qed.

(** C8 (as the code behaves): for every block, generating the routing-layer
    setters raises [AttributeError] and registers no route: once the map of
    the routing layer is reached, the first handler looked up is
    [self._randomise], which [State] does not define.  The generation the
    spec describes does not complete. *)
Theorem add_osc_setters_raises self w :
  State.add_osc_setters (self, w)
  = (Raise (AttributeError (match st_osc self with
                            | Layer => "_randomise"
                            | Enabled _ => "map"
                            end)), (self, w)).
Proof.
  unfold State.add_osc_setters, State.add_osc_setters_by. unfold bind at 1.
  unfold State.get_self at 1, State.on_self, zoom, get_state. cbn [fst snd].
  unfold bind at 1. unfold State.osc_map at 1. unfold bind at 1.
  unfold State.get_self at 1, State.on_self, zoom, get_state. cbn [fst snd].
  destruct (st_osc self); [done|].
  unfold ret at 1. unfold bind at 1. unfold State.self_attr_by at 1.
  unfold bind at 1. unfold State.get_self at 1, State.on_self, zoom, get_state.
  cbn [fst snd]. unfold lift_result at 1.
  by rewrite (setter_handlers_undefined self "_randomise") by apply list_elem_of_here.
Qed.

(** Past the lookup of [self.get], the getter does what the spec says: it
    returns the value read, and replies to the sender exactly when that
    value is not [None]. *)
Lemma osc_getter_with_run get i j attribute σ v self w client :
  py_call get (i, j) attribute σ = (Ok v, (self, w)) →
  st_osc self = Layer → tv_osc (st_tv self) = Some client →
  State.osc_getter_with get i j attribute σ
  = (Ok v,
     (self,
      match v with
      | Some x =>
          return_to_sender_by_name
            (pascal_to_path (st_getter_name self), attribute, x) client w
      | None => w
      end)).
Proof.
  intros Hcall Hl Hc. unfold State.osc_getter_with. unfold bind at 1.
  rewrite Hcall. destruct v as [x|]; [|done].
  unfold State.get_self, State.on_self, State.on_world. unfold_m. simpl.
  by rewrite Hl, Hc.
Qed.

(** C10 (as the code behaves): for every invocation of the generated
    getter, the lookup of [self.get] raises [AttributeError], since [State]
    defines no [get]: nothing is read, returned or sent. *)
Theorem osc_getter_raises i j attribute self w :
  State.osc_getter i j attribute (self, w) = (Raise (AttributeError "get"), (self, w)).
Proof.
  unfold State.osc_getter, State.self_attr, State.self_attr_by, State.get_self,
    State.on_self.
  unfold_m. simpl. by rewrite getattr_get.
Qed.

Lemma add_routes_nil (w : World) : add_routes [] w = w.
Proof. destruct w. unfold add_routes. simpl. by rewrite app_nil_r. Qed.

Lemma add_routes_cons r rs (w : World) :
  add_routes rs (add_route r w) = add_routes (r :: rs) w.
Proof. unfold add_routes, add_route. simpl. by rewrite <- app_assoc. Qed.

Lemma osc_map_run self w :
  st_osc self = Layer → State.osc_map (self, w) = (Ok tt, (self, w)).
Proof.
  intros Hl. unfold State.osc_map, State.get_self, State.on_self.
  unfold_m. simpl. by rewrite Hl.
Qed.

Lemma add_routes_app rs1 rs2 (w : World) :
  add_routes rs2 (add_routes rs1 w) = add_routes (rs1 ++ rs2) w.
Proof. unfold add_routes. simpl. by rewrite <- app_assoc. Qed.

Lemma register_run r self w :
  State.register r (self, w) = (Ok tt, (self, add_routes [r] w)).
Proof. done. Qed.

Lemma self_attr_by_run look n a self w :
  look self n = Ok a → State.self_attr_by look n (self, w) = (Ok a, (self, w)).
Proof.
  intros Hn. unfold State.self_attr_by, State.get_self, State.on_self.
  unfold_m. simpl. by rewrite Hn.
Qed.

Ltac setter_step Hlook :=
  unfold bind at 1;
  first [ rewrite register_run, ?add_routes_app
        | erewrite self_attr_by_run
            by (apply Hlook; apply (bool_decide_unpack _); vm_compute; exact I) ].

(** Were the looked-up names defined, the setter generation would register
    exactly the routes the spec lists. *)
Lemma add_osc_setters_by_run look h self w :
  st_osc self = Layer →
  (∀ n, n ∈ setter_lookups → look self n = Ok (h n)) →
  State.add_osc_setters_by look (self, w)
  = (Ok tt, (self, add_routes (setter_routes (st_setter_name self) h (st_dict self)) w)).
Proof.
  intros Hl Hlook. unfold State.add_osc_setters_by. unfold bind at 1.
  unfold State.get_self at 1, State.on_self, zoom, get_state. cbn [fst snd].
  cbv zeta.
  match goal with |- context [ for_each (st_dict self) ?b ] => set (body := b) end.
  assert (Hbody : ∀ kv w',
    body kv (self, w')
    = (Ok tt, (self, add_routes (attr_setter_routes (st_setter_name self) h kv.1) w'))).
  { intros kv w'. unfold body. cbv zeta. repeat setter_step Hlook.
    by rewrite register_run, add_routes_app. }
  assert (Hloop : ∀ l w',
    for_each l body (self, w')
    = (Ok tt, (self, add_routes
         (concat ((λ kv, attr_setter_routes (st_setter_name self) h kv.1) <$> l)) w'))).
  { clear -Hbody. induction l as [|kv l IH]; intros w'.
    - simpl. unfold ret. by rewrite add_routes_nil.
    - cbn [for_each]. unfold bind at 1. rewrite Hbody, IH, add_routes_app. done. }
  clearbody body.
  unfold bind at 1. rewrite (osc_map_run self w Hl).
  repeat setter_step Hlook.
  unfold bind at 1. rewrite (osc_map_run self _ Hl).
  repeat setter_step Hlook.
  rewrite Hloop, add_routes_app. done.
Qed.

Lemma getters_loop_run (l : schema) self w :
  st_osc self = Layer →
  for_each l (λ kv,
    let k := kv.1 in
    let v := kv.2 in
    a ← lift_result (py_int_DataType v.1.1);
    b ← lift_result (py_int_DataType v.1.1);
    c ← lift_result (py_int_Bound v.1.2);
    let ranges := IntRange a b c in
    let kwargs := [("i", ranges); ("j", ranges); ("attr", StrRange k k k)] in
    State.osc_map;;
    h ← State.self_attr "osc_getter";
    State.register (receive_args_inline (st_getter_name self) h kwargs)) (self, w)
  = let '(r, routes) := registered_getters (st_getter_name self) (st_name self)
                          (type_and_min l) in
    (r, (self, add_routes routes w)).
Proof.
  intros Hl.
  match goal with |- for_each l ?b _ = _ => set (body := b) end.
  assert (Hbody : ∀ k ty lo hi w,
    body (k, (ty, lo, hi)) (self, w) =
    match py_int_DataType ty, py_int_Bound lo with
    | Ok a, Ok c =>
        (Ok tt, (self, add_route
           (receive_args_inline (st_getter_name self)
              (BoundAttr (st_name self) "osc_getter")
              [("i", IntRange a a c); ("j", IntRange a a c);
               ("attr", StrRange k k k)]) w))
    | Raise e, _ => (Raise e, (self, w))
    | Ok _, Raise e => (Raise e, (self, w))
    end).
  { intros k ty lo hi w'. unfold body. cbv zeta. cbn [fst snd].
    unfold bind at 1. unfold lift_result at 1.
    destruct (py_int_DataType ty) as [a|e]; [|done].
    unfold bind at 1. unfold lift_result at 1.
    unfold bind at 1. unfold lift_result at 1.
    destruct (py_int_Bound lo) as [c|e]; [|done].
    unfold bind at 1. rewrite (osc_map_run self w' Hl).
    unfold State.self_attr, State.self_attr_by, State.register, State.get_self,
      State.on_self, State.on_world.
    unfold_m. by simpl. }
  clearbody body. revert w.
  induction l as [|[k [[ty lo] hi]] l IH]; intros w.
  - simpl. by rewrite add_routes_nil.
  - cbn [for_each]. unfold bind at 1. rewrite Hbody. simpl.
    destruct (py_int_DataType ty) as [a|e]; [|by rewrite add_routes_nil].
    destruct (py_int_Bound lo) as [c|e]; [|by rewrite add_routes_nil].
    rewrite IH.
    destruct (registered_getters _ _ _) as [r routes].
    by rewrite add_routes_cons.
Qed.

Lemma add_osc_getters_run self w :
  st_osc self = Layer →
  State.add_osc_getters (self, w)
  = let '(r, routes) := registered_getters (st_getter_name self) (st_name self)
                          (type_and_min (st_dict self)) in
    (r, (self, add_routes routes w)).
Proof.
  intros Hl. unfold State.add_osc_getters. unfold bind at 1.
  unfold State.get_self at 1, State.on_self, zoom, get_state. simpl.
  by apply getters_loop_run.
Qed.

Lemma getters_loop_raises (l : schema) self w k ty lo hi rest e :
  l = (k, (ty, lo, hi)) :: rest → py_int_DataType ty = Raise e →
  for_each l (λ kv,
    let k := kv.1 in
    let v := kv.2 in
    a ← lift_result (py_int_DataType v.1.1);
    b ← lift_result (py_int_DataType v.1.1);
    c ← lift_result (py_int_Bound v.1.2);
    let ranges := IntRange a b c in
    let kwargs := [("i", ranges); ("j", ranges); ("attr", StrRange k k k)] in
    State.osc_map;;
    h ← State.self_attr "osc_getter";
    State.register (receive_args_inline (st_getter_name self) h kwargs)) (self, w)
  = (Raise e, (self, w)).
Proof.
  intros -> He. cbn [for_each]. unfold bind at 1. cbv zeta. cbn [fst snd].
  unfold bind at 1. unfold lift_result at 1. by rewrite He.
Qed.

(** C9 (as the code behaves): for each attribute the getter generation
    first builds the tuple [(int(v[0]), int(v[0]), int(v[1]))] from the
    type entry and the min entry, and only then registers.  Whenever [int]
    of the first attribute's type entry raises, as it does for a taichi
    type, the generation raises that error and registers no getter; for an
    empty schema it returns having registered nothing.  The getter with the
    ranges the claim describes is not registered. *)
Theorem add_osc_getters_raises self w :
  (∀ k ty lo hi rest e,
     st_dict self = (k, (ty, lo, hi)) :: rest → py_int_DataType ty = Raise e →
     State.add_osc_getters (self, w) = (Raise e, (self, w)))
  ∧ (st_dict self = [] → State.add_osc_getters (self, w) = (Ok tt, (self, w))).
Proof.
  split.
  - intros k ty lo hi rest e Hd He.
    unfold State.add_osc_getters. unfold bind at 1.
    unfold State.get_self at 1, State.on_self, zoom, get_state. simpl.
    by apply (getters_loop_raises (st_dict self) self w k ty lo hi rest e).
  - intros Hd.
    unfold State.add_osc_getters. unfold bind at 1.
    unfold State.get_self at 1, State.on_self, zoom, get_state. simpl.
    by rewrite Hd.
Qed.

Lemma append_empty_r (s : string) : s +:+ "" = s.
Proof.
  induction s as [|c s IH]; [done|].
  change (String c (s +:+ "") = String c s). by rewrite IH.
Qed.

Lemma handle_get_set_enabled f :
  ((State.handle_get_set f).1.2 = true → (State.handle_get_set f).1.1 = true)
  ∧ ((State.handle_get_set f).2 = true → (State.handle_get_set f).1.1 = true).
Proof. by destruct f. Qed.

Lemma add_instances_nil (w : World) : add_instances [] w = w.
Proof. destruct w. unfold add_instances. simpl. by rewrite app_nil_r. Qed.

Lemma setup_iml_mapping_run self w :
  State.setup_iml_mapping (self, w) =
  (Ok tt,
   (State.set_iml Layer self,
    add_instances
      ((if st_iml_set self then [st_setter_name self] else [])
       ++ (if st_iml_get self then [st_getter_name self] else [])) w)).
Proof.
  unfold State.setup_iml_mapping, State.add_iml_setters, State.add_iml_getters,
    State.iml_add_instance, State.get_self, State.on_self, State.on_world.
  unfold_m. simpl.
  destruct (st_iml_set self), (st_iml_get self); simpl;
    unfold add_instances, add_instance; simpl;
    rewrite ?append_empty_r, <- ?app_assoc, ?app_nil_r; try done.
  by destruct w.
Qed.

Lemma setup_osc_mapping_world self w :
  (State.setup_osc_mapping (self, w)).2.2 =
  if st_osc_get self && negb (st_osc_set self)
  then add_routes
         (registered_getters (st_getter_name self) (st_name self)
            (type_and_min (st_dict self))).2 w
  else w.
Proof.
  unfold State.setup_osc_mapping. unfold bind at 1.
  unfold State.on_self at 1, zoom, modify. simpl.
  unfold bind at 1. unfold State.get_self at 1, State.on_self, zoom, get_state. simpl.
  unfold bind at 1.
  destruct (st_osc_set self).
  - unfold bind at 1. rewrite add_osc_setters_run. simpl. by rewrite andb_false_r.
  - unfold ret at 1. rewrite andb_true_r.
    destruct (st_osc_get self); [|done].
    unfold bind at 1. rewrite add_osc_getters_run by done. simpl.
    destruct (registered_getters _ _ _) as [[[]|e] routes]; simpl; [|done].
    by destruct (st_iml_get self).
Qed.

(** What [setup_accessors] leaves registered with the two layers. *)
Lemma setup_accessors_world iml osc self w :
  (State.setup_accessors iml osc (self, w)).2.2 =
  let tolvera := st_tv self in
  let iml_f := State.handle_get_set iml in
  let osc_f := State.handle_get_set osc in
  let w1 :=
    add_instances
      ((if tv_iml tolvera && iml_f.2 then [setter_name_of tolvera (st_name self)] else [])
       ++ (if tv_iml tolvera && iml_f.1.2 then [getter_name_of tolvera (st_name self)] else []))
      w in
  if bool_decide (is_Some (tv_osc tolvera)) && osc_f.1.2 && negb osc_f.2
  then add_routes
         (registered_getters (getter_name_of tolvera (st_name self)) (st_name self)
            (type_and_min (st_dict self))).2 w1
  else w1.
Proof.
  pose proof (handle_get_set_enabled iml) as [Hig His].
  pose proof (handle_get_set_enabled osc) as [Hog Hos].
  unfold State.setup_accessors, State.handle_accessor_flags.
  cbv zeta.
  destruct (State.handle_get_set iml) as [[ien iget] iset].
  destruct (State.handle_get_set osc) as [[oen oget] oset].
  unfold State.get_self, State.on_self. unfold_m. simpl in *.
  assert (Hw1 : ∀ (b : bool) (self' : State) (w' : World),
    st_osc_get self' = oget → st_osc_set self' = oset →
    st_getter_name self' = getter_name_of (st_tv self) (st_name self) →
    st_name self' = st_name self → st_dict self' = st_dict self →
    ((if b then State.setup_osc_mapping else λ s, (Ok tt, s)) (self', w')).2.2 =
    if b && oget && negb oset
    then add_routes
      (registered_getters (getter_name_of (st_tv self) (st_name self))
         (st_name self) (type_and_min (st_dict self))).2 w'
    else w').
  { intros b self' w' <- <- Hg Hn Hd. destruct b; simpl.
    - by rewrite setup_osc_mapping_world, Hg, Hn, Hd.
    - done. }
  assert (Hoen : bool_decide (is_Some (tv_osc (st_tv self))) && oen && oget && negb oset
                 = bool_decide (is_Some (tv_osc (st_tv self))) && oget && negb oset).
  { destruct (bool_decide _), oen, oget, oset; simpl; try done.
    by specialize (Hog eq_refl). }
  destruct (tv_iml (st_tv self)), ien; simpl.
  - rewrite setup_iml_mapping_run. simpl.
    rewrite Hw1 by done. by rewrite Hoen.
  - assert (iget = false) as -> by (destruct iget; [by specialize (Hig eq_refl)|done]).
    assert (iset = false) as -> by (destruct iset; [by specialize (His eq_refl)|done]).
    rewrite Hw1 by done. simpl. by rewrite Hoen, add_instances_nil.
  - rewrite Hw1 by done. simpl. by rewrite Hoen, add_instances_nil.
  - rewrite Hw1 by done. simpl. by rewrite Hoen, add_instances_nil.
Qed.

Lemma registered_getters_names gn owner d r :
  r ∈ (registered_getters gn owner d).2 → route_name r = gn.
Proof.
  induction d as [|[[k ty] lo] d IH]; simpl; [by intros ?%elem_of_nil|].
  destruct (py_int_DataType ty); [|by intros ?%elem_of_nil].
  destruct (py_int_Bound lo); [|by intros ?%elem_of_nil].
  destruct (registered_getters gn owner d) as [r' routes]. simpl in *.
  intros [->|Hin]%elem_of_cons; [done|]. by apply IH.
Qed.

Lemma generated_run tolvera name d iml osc :
  generated tolvera name d iml osc =
  ((if tv_iml tolvera && (State.handle_get_set iml).2
    then [setter_name_of tolvera name] else [])
   ++ (if tv_iml tolvera && (State.handle_get_set iml).1.2
       then [getter_name_of tolvera name] else []),
   if bool_decide (is_Some (tv_osc tolvera)) && (State.handle_get_set osc).1.2
      && negb (State.handle_get_set osc).2
   then (registered_getters (getter_name_of tolvera name) name (type_and_min d)).2
   else []).
Proof.
  unfold generated. rewrite setup_accessors_world. simpl.
  by destruct (_ && _ && negb _).
Qed.

Lemma append_inj_l (p a b : string) : p +:+ a = p +:+ b → a = b.
Proof.
  induction p as [|c p IH]; [done|].
  change (String c (p +:+ a) = String c (p +:+ b) → a = b).
  intros [= E]. by apply IH.
Qed.

Lemma accessor_names_differ tolvera name :
  setter_name_of tolvera name ≠ getter_name_of tolvera name.
Proof.
  unfold setter_name_of, getter_name_of. intros E%append_inj_l.
  cbv [String.append] in E. discriminate E.
Qed.

(** When the block requests no routing-layer direction, or the session has
    no routing layer, [setup_accessors] returns. *)
Lemma setup_accessors_returns iml osc self w :
  tv_osc (st_tv self) = None
  ∨ ((State.handle_get_set osc).2 = false ∧ (State.handle_get_set osc).1.2 = false) →
  (State.setup_accessors iml osc (self, w)).1 = Ok tt.
Proof.
  intros Hoff.
  unfold State.setup_accessors, State.handle_accessor_flags. cbv zeta.
  destruct (State.handle_get_set iml) as [[ien iget] iset].
  destruct (State.handle_get_set osc) as [[oen oget] oset].
  unfold State.get_self, State.on_self. unfold_m. simpl in *.
  assert (Hosc : ∀ (self' : State) (w' : World),
    st_osc_get self' = oget → st_osc_set self' = oset →
    ((if bool_decide (is_Some (tv_osc (st_tv self))) && oen
      then State.setup_osc_mapping else λ s, (Ok tt, s)) (self', w')).1 = Ok tt).
  { intros self' w' Hg Hs.
    destruct Hoff as [Hnone|[-> ->]].
    - rewrite Hnone. rewrite bool_decide_eq_false_2 by (by intros [? ?]). done.
    - destruct (_ && _); [|done].
      unfold State.setup_osc_mapping, State.get_self, State.on_self.
      unfold_m. simpl. by rewrite Hs, Hg. }
  destruct (tv_iml (st_tv self) && ien).
  - rewrite setup_iml_mapping_run. simpl. by apply Hosc.
  - simpl. by apply Hosc.
Qed.

(** C4 (amended): a mapping-layer accessor is generated for a block exactly
    when the block's mapping-layer flag requests that direction and the
    mapping layer is enabled in the session, and nothing else is registered
    with the mapping layer; the routing-layer flag has no influence on
    that.  When the block requests no routing-layer direction, or the
    session has no routing layer, nothing is registered with the routing
    layer and the generation returns: a block declared with mapping-layer
    [get] only exposes no accessor to the routing layer and no
    mapping-layer setter. *)
Theorem generated_only_if_requested tolvera name d iml osc :
  let g := generated tolvera name d iml osc in
  (setter_name_of tolvera name ∈ g.1
     ↔ tv_iml tolvera = true ∧ (State.handle_get_set iml).2 = true)
  ∧ (getter_name_of tolvera name ∈ g.1
     ↔ tv_iml tolvera = true ∧ (State.handle_get_set iml).1.2 = true)
  ∧ (∀ n, n ∈ g.1 → n = setter_name_of tolvera name ∨ n = getter_name_of tolvera name)
  ∧ (∀ osc', (generated tolvera name d iml osc').1 = g.1)
  ∧ (tv_osc tolvera = None
     ∨ ((State.handle_get_set osc).2 = false ∧ (State.handle_get_set osc).1.2 = false) →
     g.2 = [] ∧ generation_result tolvera name d iml osc = Ok tt).
Proof.
  cbv zeta. pose proof (accessor_names_differ tolvera name) as Hne.
  rewrite generated_run. cbn [fst snd].
  split; [|split; [|split; [|split]]].
  - destruct (tv_iml tolvera), ((State.handle_get_set iml).2),
      ((State.handle_get_set iml).1.2); simpl;
      rewrite ?elem_of_cons, ?elem_of_nil; intuition congruence.
  - destruct (tv_iml tolvera), ((State.handle_get_set iml).2),
      ((State.handle_get_set iml).1.2); simpl;
      rewrite ?elem_of_cons, ?elem_of_nil; intuition congruence.
  - intros n. destruct (tv_iml tolvera), ((State.handle_get_set iml).2),
      ((State.handle_get_set iml).1.2); simpl;
      rewrite ?elem_of_cons, ?elem_of_nil; intuition congruence.
  - intros osc'. by rewrite generated_run.
  - intros Hoff. split.
    + destruct Hoff as [->|[-> ->]].
      * by rewrite bool_decide_eq_false_2 by (by intros [? ?]).
      * by rewrite andb_false_r.
    + unfold generation_result. by apply setup_accessors_returns.
Qed.
End AccessorFacts.

(** C4 as the spec states it fails: in a session whose mapping layer is
    switched off, a block that requests the mapping-layer getter gets no
    accessor. *)
Lemma generated_iff_requested_fails :
  ¬ generated_iff_requested Demo.tv_no_iml "p" Demo.xy (FStr "get") FNone.
Proof.
  intros (_ & [_ Hg] & _). specialize (Hg eq_refl).
  vm_compute in Hg. by apply elem_of_nil in Hg.
Qed.

Section LedgerFacts.
Context `{Externals} `{!SliceCodecs} `{!PyCall}.
Implicit Types r : gmap string pyval.

(** Constructing a block does not touch the registry. *)
Lemma new_State_registry tolvera name a r w :
  (StateDict.new_State tolvera name a (r, w)).2.1 = r.
Proof.
  unfold StateDict.new_State. destruct tolvera as [[]|]; try done.
  unfold on_snd. simpl.
  by destruct (State.__init__ _ _ _ _ _ _ _ _ _) as [[] []].
Qed.

(** The assignment [self.size = VInt z], once [size] is in the registry. *)
Lemma setattr_nested_size z r w :
  is_Some (r !! "size") →
  StateDict.setattr_nested "size" (VInt z) (r, w)
  = (Ok tt, (<["size" := VInt z]> r, w)).
Proof.
  intros Hs. unfold StateDict.setattr_nested, StateDict.set_with,
    StateDict.contains, StateDict.add_with, StateDict.setitem.
  unfold_m. simpl. by rewrite bool_decide_eq_true_2.
Qed.

(** [set] on a declaration of a block. *)
Lemma set_block_run name kwargs a r w :
  kwargs = VDict a ∨ kwargs = VTuple a →
  StateDict.set name kwargs (r, w) =
  if bool_decide (is_Some (r !! name)) && negb (bool_decide (name = "size"))
  then (Raise (ValueError name), (r, w))
  else match StateDict.new_State (r !! "tv") name a (r, w) with
       | (Raise e, σ) => (Raise e, σ)
       | (Ok s, (_, w')) =>
           match StateDict.py_add (<[name := VState s]> r !! "size") (st_size s) with
           | Raise e => (Raise e, (<[name := VState s]> r, w'))
           | Ok new => (Ok tt, (<["size" := new]> (<[name := VState s]> r), w'))
           end
       end.
Proof.
  intros Hk. unfold StateDict.set, StateDict.set_with. unfold bind at 1.
  unfold StateDict.contains at 1. unfold bind at 1, get_state at 1, ret at 1.
  cbn [fst snd].
  destruct (bool_decide (is_Some (r !! name)) && negb (bool_decide (name = "size")));
    [done|].
  unfold StateDict.add_with.
  replace (bool_decide (name = "tv") && negb (StateDict.is_dict kwargs)
           && negb (StateDict.is_tuple kwargs)) with false
    by (destruct Hk as [-> | ->]; simpl; by rewrite ?andb_false_r).
  replace (bool_decide (name = "size") && StateDict.is_int kwargs) with false
    by (destruct Hk as [-> | ->]; simpl; by rewrite ?andb_false_r).
  assert (Hbody :
    (tolvera ← StateDict.getattr "tv";
     s ← StateDict.new_State tolvera name a;
     StateDict.setitem name (VState s);;
     cur ← StateDict.getattr "size";
     v ← StateDict.getitem name fst;
     n ← lift_result (StateDict.size_of v);
     new ← lift_result (StateDict.py_add cur n);
     StateDict.setattr_nested "size" new) (r, w)
    = match StateDict.new_State (r !! "tv") name a (r, w) with
       | (Raise e, σ) => (Raise e, σ)
       | (Ok s, (_, w')) =>
           match StateDict.py_add (<[name := VState s]> r !! "size") (st_size s) with
           | Raise e => (Raise e, (<[name := VState s]> r, w'))
           | Ok new => (Ok tt, (<["size" := new]> (<[name := VState s]> r), w'))
           end
       end).
  { unfold bind at 1. unfold StateDict.getattr at 1.
    unfold bind at 1, get_state at 1, ret at 1. cbn [fst snd].
    unfold bind at 1.
    pose proof (new_State_registry (r !! "tv") name a r w) as Hr.
    destruct (StateDict.new_State (r !! "tv") name a (r, w)) as [[s|e] [r' w']];
      simpl in Hr; subst r'; [|done].
    unfold StateDict.setitem, StateDict.getattr, StateDict.getitem.
    unfold_m. cbn [fst snd]. rewrite lookup_insert_eq. simpl.
    destruct (<[name:=VState s]> r !! "size") as [[z| | | | |]|] eqn:Hsz; simpl; try done.
    rewrite setattr_nested_size; [done|]. by rewrite Hsz. }
  destruct Hk as [-> | ->]; exact Hbody.
Qed.

Lemma size_z_comm (z1 z2 : pyval) (y : Z) :
  (size_z z1 + (size_z z2 + y) = size_z z2 + (size_z z1 + y))%Z.
Proof. lia. Qed.

Lemma blocks_size_insert_fresh r k v :
  r !! k = None → blocks_size (<[k := v]> r) = (size_z v + blocks_size r)%Z.
Proof.
  intros Hk. unfold blocks_size.
  rewrite map_fold_insert_L; [done|intros; apply size_z_comm|done].
Qed.

Lemma blocks_size_insert_over r k v0 v :
  r !! k = Some v0 →
  blocks_size (<[k := v]> r) = (size_z v - size_z v0 + blocks_size r)%Z.
Proof.
  intros Hk.
  rewrite <- (insert_delete_eq r k v).
  rewrite blocks_size_insert_fresh by apply lookup_delete_eq.
  rewrite <- (insert_delete_id r k v0 Hk) at 2.
  rewrite blocks_size_insert_fresh by apply lookup_delete_eq. lia.
Qed.

Lemma blocks_size_empty : blocks_size ∅ = 0%Z.
Proof. unfold blocks_size. by rewrite map_fold_empty. Qed.

Lemma init_run tolvera w :
  StateDict.__init__ tolvera (∅, w)
  = (Ok tt, (<["size" := VInt 0]> (<["tv" := VTolvera tolvera]> ∅), w)).
Proof. done. Qed.

Lemma block_spec_args kwargs :
  block_spec kwargs = true → ∃ a, kwargs = VDict a ∨ kwargs = VTuple a.
Proof. destruct kwargs; try done; eauto. Qed.

(** What every registry reached by declarations satisfies. *)
Lemma declared_ledger σ :
  declared σ →
  (∃ tolvera, σ.1 !! "tv" = Some (VTolvera tolvera))
  ∧ (ledger_sound σ.1 ∨ ledger_broken σ.1).
Proof.
  induction 1 as [tolvera w|name kwargs [r w] Hd [[tolvera Htv] IH] Hspec].
  - rewrite init_run. simpl. split; [by exists tolvera|]. left.
    unfold ledger_sound.
    rewrite lookup_insert_eq, !blocks_size_insert_fresh, blocks_size_empty by done.
    done.
  - destruct (block_spec_args _ Hspec) as [a Hk].
    rewrite (set_block_run name kwargs a r w Hk). simpl in *.
    destruct (bool_decide (is_Some (r !! name))) eqn:Hin;
      destruct (bool_decide (name = "size")) eqn:Hsz; simpl.
    2: { split; [by exists tolvera|done]. }
    all: pose proof (new_State_registry (r !! "tv") name a r w) as Hr;
      destruct (StateDict.new_State (r !! "tv") name a (r, w)) as [[s|e] [r' w']];
      simpl in Hr; subst r'; simpl; [|split; [by exists tolvera|done]].
    + apply bool_decide_eq_true in Hsz as ->.
      rewrite lookup_insert_eq. simpl.
      split; [exists tolvera; by rewrite lookup_insert_ne|].
      right. exists s. by rewrite lookup_insert_eq.
    + apply bool_decide_eq_true in Hsz as ->.
      rewrite lookup_insert_eq. simpl.
      split; [exists tolvera; by rewrite lookup_insert_ne|].
      right. exists s. by rewrite lookup_insert_eq.
    + apply bool_decide_eq_false in Hsz. apply bool_decide_eq_false in Hin.
      assert (Hnone : r !! name = None) by (by apply eq_None_not_Some).
      assert (name ≠ "tv") by (intros ->; by rewrite Htv in Hnone).
      rewrite lookup_insert_ne by done.
      destruct IH as [Hs | [s0 Hs0]].
      * unfold ledger_sound in Hs. rewrite Hs. simpl.
        split; [exists tolvera; by rewrite !lookup_insert_ne|].
        left. unfold ledger_sound. rewrite lookup_insert_eq.
        rewrite (blocks_size_insert_over _ "size" (VInt (blocks_size r)))
          by (by rewrite lookup_insert_ne).
        rewrite blocks_size_insert_fresh by done. simpl. do 2 f_equal. lia.
      * rewrite Hs0. simpl.
        split; [exists tolvera; by rewrite lookup_insert_ne|].
        right. exists s0. by rewrite lookup_insert_ne.
Qed.

Lemma block_spec_cases (kwargs : pyval) :
  (∃ a, kwargs = VDict a ∨ kwargs = VTuple a)
  ∨ (StateDict.is_dict kwargs = false ∧ StateDict.is_tuple kwargs = false).
Proof. destruct kwargs; eauto. Qed.

(** No call of [set], whatever it is given and whether it returns or
    raises, removes or replaces an entry stored under a name other than the
    reserved [size]. *)
Lemma set_keeps_entries name kwargs r w n v :
  n ≠ "size" → r !! n = Some v →
  (StateDict.set name kwargs (r, w)).2.1 !! n = Some v.
Proof.
  intros Hn Hv.
  assert (Hdup : name = n →
    StateDict.set name kwargs (r, w) = (Raise (ValueError name), (r, w))).
  { intros ->. unfold StateDict.set, StateDict.set_with, StateDict.contains.
    unfold bind at 1, get_state, ret. unfold bind at 1. cbn [fst snd].
    by rewrite bool_decide_eq_true_2, (bool_decide_eq_false_2 _ Hn) by eauto. }
  destruct (decide (name = n)) as [Heq|Hne]; [by rewrite Hdup|]. clear Hdup.
  destruct (block_spec_cases kwargs) as [[a Hk]|[Hd Ht]].
  - rewrite (set_block_run name kwargs a r w Hk).
    destruct (_ && _); [done|].
    pose proof (new_State_registry (r !! "tv") name a r w) as Hr.
    destruct (StateDict.new_State (r !! "tv") name a (r, w)) as [[s|e] [r' w']];
      simpl in Hr; subst r'; [|done].
    destruct (StateDict.py_add _ _); simpl; by rewrite !lookup_insert_ne.
  - unfold StateDict.set, StateDict.set_with, StateDict.contains, StateDict.add_with,
      StateDict.setitem.
    unfold_m. cbn [fst snd].
    destruct (_ && negb _); [done|].
    destruct (bool_decide (name = "tv") && _ && _); simpl.
    { by rewrite lookup_insert_ne. }
    destruct (bool_decide (name = "size")) eqn:Hs; simpl.
    + apply bool_decide_eq_true in Hs as ->.
      destruct kwargs; simpl; try done. by rewrite lookup_insert_ne.
    + by destruct kwargs.
Qed.

(** C1 (amended): in a registry evolved by declarations of blocks only,
    after every successful declaration the [size] entry equals the sum of
    [size] over all blocks stored; the declaration inserts one block under
    a fresh name and adds exactly that block's [size] to the total; and
    every block stored before is still stored, unchanged. *)
Theorem size_is_sum_of_blocks σ name kwargs σ' :
  declared σ → block_spec kwargs = true →
  StateDict.set name kwargs σ = (Ok tt, σ') →
  σ'.1 !! "size" = Some (VInt (blocks_size σ'.1))
  ∧ (∃ blk, σ.1 !! name = None ∧ σ'.1 !! name = Some (VState blk)
            ∧ σ.1 !! "size" = Some (VInt (blocks_size σ.1))
            ∧ blocks_size σ'.1 = (blocks_size σ.1 + Z.of_nat (st_size blk))%Z)
  ∧ (∀ n blk, σ.1 !! n = Some (VState blk) → σ'.1 !! n = Some (VState blk)).
Proof.
  intros Hd Hspec Hset. destruct σ as [r w].
  destruct (declared_ledger _ Hd) as [[tolvera Htv] Hl]. simpl in *.
  destruct (block_spec_args _ Hspec) as [a Hk].
  rewrite (set_block_run name kwargs a r w Hk) in Hset.
  destruct (bool_decide (is_Some (r !! name))) eqn:Hin;
    destruct (bool_decide (name = "size")) eqn:Hsz; simpl in Hset; try done.
  all: pose proof (new_State_registry (r !! "tv") name a r w) as Hr;
    destruct (StateDict.new_State (r !! "tv") name a (r, w)) as [[s|e] [r' w']];
    simpl in Hr; subst r'; [|done].
  1,2: apply bool_decide_eq_true in Hsz as ->;
    by rewrite lookup_insert_eq in Hset.
  apply bool_decide_eq_false in Hsz. apply bool_decide_eq_false in Hin.
  assert (Hnone : r !! name = None) by (by apply eq_None_not_Some).
  rewrite lookup_insert_ne in Hset by done.
  destruct Hl as [Hs | [s0 Hs0]]; [|by rewrite Hs0 in Hset].
  unfold ledger_sound in Hs. rewrite Hs in Hset. simpl in Hset.
  injection Hset as <-. simpl.
  assert (Hsum : blocks_size (<["size":=VInt (blocks_size r + Z.of_nat (st_size s))]>
                                (<[name:=VState s]> r))
                 = (blocks_size r + Z.of_nat (st_size s))%Z).
  { rewrite (blocks_size_insert_over _ "size" (VInt (blocks_size r)))
      by (by rewrite lookup_insert_ne).
    rewrite blocks_size_insert_fresh by done. simpl. lia. }
  split; [by rewrite lookup_insert_eq, Hsum|]. split.
  - exists s. split; [done|]. split; [|done].
    by rewrite lookup_insert_ne, lookup_insert_eq.
  - intros n blk Hn.
    assert (n ≠ "size") by (intros ->; by rewrite Hs in Hn).
    assert (n ≠ name) by (intros ->; by rewrite Hnone in Hn).
    by rewrite !lookup_insert_ne.
Qed.

(** C2: declaring under a name that already exists raises the
    duplicate-name error and leaves the registry (its [size] total and the
    existing entry included) and the session untouched; the one name exempt
    from the check is [size], for which [set] goes straight to [add]. *)
Theorem set_existing_name_fails name kwargs r w :
  (name ≠ "size" → is_Some (r !! name) →
   StateDict.set name kwargs (r, w) = (Raise (ValueError name), (r, w)))
  ∧ StateDict.set "size" kwargs (r, w) = StateDict.add "size" kwargs (r, w).
Proof.
  unfold StateDict.set, StateDict.add, StateDict.set_with, StateDict.contains.
  unfold bind at 1 3, get_state, ret. unfold bind at 1 2. cbn [fst snd]. split.
  - intros Hne Hin.
    by rewrite bool_decide_eq_true_2, (bool_decide_eq_false_2 _ Hne).
  - by rewrite andb_false_r.
Qed.
End LedgerFacts.

Section Construction.
Context `{Externals} `{!SliceCodecs} `{!PyCall}.

Lemma np_schema_layout (d : schema) nd (shape : list nat) :
  table_compatible → State.np_schema d = Ok nd →
  layout (TiField.field d shape) = NpNdarrayDict.nd_layout (NpNdarrayDict.init nd shape).
Proof.
  intros Hc. revert nd. unfold layout, TiField.field, NpNdarrayDict.nd_layout.
  induction d as [|[k [[ty lo] hi]] d IH]; intros nd Hnd; simpl in *.
  - by injection Hnd as <-.
  - destruct (TiNpTypeMap ty) as [t|] eqn:Ht; [|done].
    destruct (State.np_schema d) as [nd'|]; [|done].
    injection Hnd as <-. csimpl.
    rewrite length_replicate, (Hc ty t Ht). f_equal. by apply IH.
Qed.

Lemma random_data_layout seed nd n :
  layout (NpNdarrayDict.random_data seed nd n)
  = (λ kv, (kv.1, n * np_elems kv.2.1.1)) <$> nd.
Proof.
  revert seed. unfold layout.
  induction nd as [|[k [[t lo] hi]] nd IH]; intros seed; [done|].
  csimpl. by rewrite length_fmap, length_seq, IH.
Qed.

Lemma setup_data_wf d shape rnd methods self0 w self1 w1 :
  table_compatible →
  State.setup_data d shape rnd methods (self0, w) = (Ok tt, (self1, w1)) →
  wf self1.
Proof.
  intros Hc. unfold State.setup_data, State.create_struct_field,
    State.create_npndarray_dict, State.randomise, State.on_self.
  unfold_m. simpl.
  destruct (State.np_schema d) as [nd|e] eqn:Hnd; simpl; [|done].
  generalize (match shape with ShapeInt n => [n] | ShapeTuple l => l end).
  intros sh. destruct rnd.
  - rewrite from_nddict_run. simpl.
    destruct (layout_eqb _ _); [|done].
    intros [= <- <-]. split; [|done].
    unfold synced_layout. simpl. apply random_data_layout.
  - intros [= <- <-]. split; [|done].
    unfold synced_layout. simpl. by apply np_schema_layout.
Qed.

(** [setup_accessors] leaves the data of the block alone. *)
Lemma setup_osc_mapping_self self w :
  (State.setup_osc_mapping (self, w)).2.1 = State.set_osc Layer self.
Proof.
  unfold State.setup_osc_mapping. unfold bind at 1.
  unfold State.on_self at 1, zoom, modify. simpl.
  unfold bind at 1. unfold State.get_self at 1, State.on_self, zoom, get_state. simpl.
  unfold bind at 1.
  destruct (st_osc_set self).
  - unfold bind at 1. by rewrite add_osc_setters_run.
  - unfold ret at 1. destruct (st_osc_get self); [|done].
    unfold bind at 1. rewrite add_osc_getters_run by done. simpl.
    destruct (registered_getters _ _ _) as [[[]|e] routes]; simpl; [|done].
    by destruct (st_iml_get self).
Qed.

Lemma setup_accessors_data iml osc self w :
  (λ s, (st_field s, st_nddict s, st_size s))
    (State.setup_accessors iml osc (self, w)).2.1
  = (st_field self, st_nddict self, st_size self).
Proof.
  unfold State.setup_accessors, State.handle_accessor_flags.
  cbv zeta.
  destruct (State.handle_get_set iml) as [[ien iget] iset].
  destruct (State.handle_get_set osc) as [[oen oget] oset].
  unfold State.get_self, State.on_self. unfold_m. simpl.
  assert (Hosc : ∀ (b : bool) (self' : State) (w' : World),
    (λ s, (st_field s, st_nddict s, st_size s))
      ((if b then State.setup_osc_mapping else λ s, (Ok tt, s)) (self', w')).2.1
    = (st_field self', st_nddict self', st_size self')).
  { intros [] self' w'; [|done]. simpl. rewrite setup_osc_mapping_self.
    by destruct self'. }
  simpl in Hosc.
  destruct (tv_iml (st_tv self) && ien).
  - rewrite setup_iml_mapping_run. simpl. by rewrite Hosc.
  - by rewrite Hosc.
Qed.

(** Every block [__init__] returns is well formed. *)
Lemma init_wf tolvera name d shape iml osc rnd methods w self w' :
  table_compatible →
  State.__init__ tolvera (Some name) d shape iml osc rnd methods (State.blank, w)
  = (Ok tt, (self, w')) →
  wf self.
Proof.
  intros Hc. unfold State.__init__. unfold bind at 1.
  unfold State.on_self at 1, zoom, modify. cbn [fst snd].
  unfold bind at 1. unfold State.on_self at 1, zoom, modify. cbn [fst snd].
  unfold bind at 1.
  destruct (State.setup_data _ _ _ _ _) as [[[]|e] [self1 w1]] eqn:Hdata; [|done].
  apply (setup_data_wf _ _ _ _ _ _ _ _ Hc) in Hdata.
  pose proof (setup_accessors_data iml osc self1 w1) as Hdat.
  destruct (State.setup_accessors iml osc (self1, w1)) as [r [self2 w2]].
  simpl in *. injection Hdat as Hf Hn Hs. intros [= -> <- <-].
  destruct Hdata as [Hl Hsz]. split.
  - unfold synced_layout. by rewrite Hf, Hn.
  - by rewrite Hs, Hn.
Qed.
End Construction.

Section DeclaredBlocks.
Context `{Externals} `{!SliceCodecs} `{!PyCall}.

Lemma new_State_wf tolvera name a (r : gmap string pyval) w s σ :
  table_compatible →
  StateDict.new_State tolvera name a (r, w) = (Ok s, σ) → wf s.
Proof.
  intros Hc. unfold StateDict.new_State.
  destruct tolvera as [[| | |tolvera| |]|]; try done.
  unfold on_snd. simpl.
  destruct (State.__init__ _ _ _ _ _ _ _ _ _) as [[[]|e] [self w']] eqn:Hi; [|done].
  intros [= <- _]. by eapply init_wf.
Qed.

(** Every block of a registry reached by declarations is well formed. *)
Lemma declared_blocks_wf σ :
  table_compatible → declared σ →
  ∀ n blk, σ.1 !! n = Some (VState blk) → wf blk.
Proof.
  intros Hc. induction 1 as [tolvera w|name kwargs [r w] Hd IH Hspec]; intros n blk.
  - rewrite init_run. simpl.
    intros [[_ [=]]|[_ [[_ [=]]|[_ Hn]]%lookup_insert_Some]]%lookup_insert_Some.
    by rewrite lookup_empty in Hn.
  - destruct (block_spec_args _ Hspec) as [a Hk].
    rewrite (set_block_run name kwargs a r w Hk). simpl in IH.
    destruct (_ && _); [apply IH|].
    pose proof (new_State_registry (r !! "tv") name a r w) as Hr.
    destruct (StateDict.new_State (r !! "tv") name a (r, w)) as [[s|e] [r' w']] eqn:Hnew;
      simpl in Hr; subst r'; [|apply IH].
    apply (new_State_wf _ _ _ _ _ _ _ Hc) in Hnew.
    destruct (StateDict.py_add _ _) as [new|e] eqn:Hadd; simpl.
    + assert (∃ z, new = VInt z) as [z ->].
      { unfold StateDict.py_add in Hadd.
        destruct (_ !! "size") as [[]|]; try done. injection Hadd as <-. eauto. }
      intros [[_ [=]]|[_ [[_ [= <-]]|[_ Hn]]%lookup_insert_Some]]%lookup_insert_Some;
        [done|by eapply IH].
    + intros [[_ [= <-]]|[_ Hn]]%lookup_insert_Some; [done|by eapply IH].
Qed.
End DeclaredBlocks.

(** * Concrete runs *)

Lemma pair_fst_eq {A B} (x : A * B) (a : A) : x.1 = a → x = (a, x.2).
Proof. destruct x. simpl. by intros ->. Qed.

(** C1 as the spec states it fails: the caller may assign an integer to
    [size] through the same [set], after which a successful declaration
    leaves [size] different from the sum over the stored blocks. *)
Lemma size_always_sum_fails : ¬ size_always_sum.
Proof.
  intros Hall.
  assert (Hrun : StateDict.set "p" Demo.p_spec Runs.overwritten
                 = (Ok tt, (StateDict.set "p" Demo.p_spec Runs.overwritten).2)).
  { apply (pair_fst_eq (StateDict.set "p" Demo.p_spec Runs.overwritten) (Ok tt)).
    vm_compute. reflexivity. }
  specialize (Hall Demo.tv0 Demo.w0 [("size", VInt 100)] "p" Demo.p_spec _ eq_refl Hrun).
  vm_compute in Hall. discriminate Hall.
Qed.

Lemma block_size_Some `{Externals} (d : gmap string pyval) n k :
  block_size d n = Some k → ∃ blk, d !! n = Some (VState blk).
Proof. unfold block_size. destruct (d !! n) as [[]|]; try done. eauto. Qed.

Lemma demo_declared : declared Demo.s2.
Proof.
  exact (declared_set "q" Demo.q_spec Demo.s1
           (declared_set "p" Demo.p_spec Demo.s0
              (declared_init Demo.tv0 Demo.w0) eq_refl) eq_refl).
Qed.

Lemma demo_table_compatible : table_compatible.
Proof. by intros [] t [= <-]. Qed.

(** The spec's example: two attributes over shape 4 give size 8, and loading
    eight zeros then extracting returns eight zeros. *)
Example demo_size : st_size Demo.p_block = 8.
Proof. reflexivity. Qed.

Example demo_zeros :
  (State.to_vec (State.from_vec (replicate 8 0%Z) Demo.p_block).2).1
  = Ok (replicate 8 0%Z).
Proof. vm_compute. reflexivity. Qed.

(** A block that requests routing-layer setters cannot be declared: the
    constructor raises, nothing is stored under the name, the total stays,
    and no route is registered for the block. *)
Example demo_setters_fail :
  let r := StateDict.set "z" (VDict (Demo.args Demo.xy 2 FNone (FTuple ["get"; "set"])))
             Demo.s2 in
  r.1 = Raise (AttributeError "_randomise")
  ∧ r.2.1 !! "z" = None
  ∧ r.2.1 !! "size" = Some (VInt 12)
  ∧ length (osc_routes r.2.2) = length (osc_routes Demo.s2.2).
Proof. cbv zeta. split; [|split; [|split]]; vm_compute; reflexivity. Qed.

(** Nor can a block that requests routing-layer getters: the constructor
    raises at the first [int] of a type entry, nothing is stored under the
    name, the total stays, and no route is registered. *)
Example demo_getters_fail :
  let r := StateDict.set "z" (VDict (Demo.args Demo.xy 2 FNone (FStr "get"))) Demo.s2 in
  r.1 = Raise (TypeError "int")
  ∧ r.2.1 !! "z" = None
  ∧ r.2.1 !! "size" = Some (VInt 12)
  ∧ osc_routes r.2.2 = [].
Proof. cbv zeta. split; [|split; [|split]]; vm_compute; reflexivity. Qed.

(** The name [size] is exempt from the duplicate check whatever is assigned:
    a block declared under it replaces the total before [add] raises. *)
Example demo_block_named_size :
  let r := StateDict.set "size" Demo.p_spec Demo.s2 in
  r.1 = Raise (TypeError "+")
  ∧ StateDict.is_int <$> (r.2.1 !! "size") = Some false.
Proof. cbv zeta. split; vm_compute; reflexivity. Qed.

(** Assigning an integer to [size] replaces the total: the accounting entry
    is open to the caller. *)
Example demo_size_overwrite :
  (StateDict.set "size" (VInt 0) Demo.s2).2.1 !! "size" = Some (VInt 0)
  ∧ blocks_size Demo.s2.1 = 12%Z.
Proof. split; vm_compute; reflexivity. Qed.

Lemma size_is_sum_of_blocks_witness :
  declared Demo.s1 ∧ block_spec Demo.q_spec = true ∧
  StateDict.set "q" Demo.q_spec Demo.s1 = (Ok tt, Demo.s2) ∧
  Demo.s2.1 !! "size" = Some (VInt (blocks_size Demo.s2.1)).
Proof.
  unfold Demo.s2.
  assert (Hd : declared Demo.s1).
  { exact (declared_set "p" Demo.p_spec Demo.s0
             (declared_init Demo.tv0 Demo.w0) eq_refl). }
  assert (Hs : StateDict.set "q" Demo.q_spec Demo.s1
               = (Ok tt, (StateDict.set "q" Demo.q_spec Demo.s1).2)).
  { apply (pair_fst_eq (StateDict.set "q" Demo.q_spec Demo.s1) (Ok tt)).
    vm_compute. reflexivity. }
  split; [exact Hd|]. split; [reflexivity|]. split; [exact Hs|].
  exact (proj1 (size_is_sum_of_blocks Demo.s1 "q" Demo.q_spec _ Hd eq_refl Hs)).
Defined.

Lemma set_existing_name_fails_witness :
  "p" ≠ "size" ∧ is_Some (Demo.s1.1 !! "p") ∧
  StateDict.set "p" Demo.q_spec (Demo.s1.1, Demo.s1.2)
  = (Raise (ValueError "p"), (Demo.s1.1, Demo.s1.2)).
Proof.
  assert (Hne : "p" ≠ "size") by done.
  assert (Hin : is_Some (Demo.s1.1 !! "p")).
  { apply (bool_decide_unpack _). vm_compute. exact I. }
  split; [exact Hne|]. split; [exact Hin|].
  exact (proj1 (set_existing_name_fails "p" Demo.q_spec Demo.s1.1 Demo.s1.2) Hne Hin).
Defined.

Lemma from_vec_size_mismatch_witness :
  (StateDict.get_size (Names ["p"; "q"]) Demo.s2.1).1 = Ok 12 ∧
  12 ≠ length [1; 2; 3]%Z ∧
  StateDict.from_vec ["p"; "q"] [1; 2; 3]%Z Demo.s2.1
  = (Raise (AssertionError ("sizes_sum=" +:+ pretty 12
                            +:+ " != len(vector)=" +:+ pretty (length [1; 2; 3]%Z))),
     Demo.s2.1).
Proof.
  assert (Hg : (StateDict.get_size (Names ["p"; "q"]) Demo.s2.1).1 = Ok 12).
  { vm_compute. reflexivity. }
  assert (Hne : 12 ≠ length [1; 2; 3]%Z) by done.
  split; [exact Hg|]. split; [exact Hne|].
  exact (proj1 (from_vec_size_mismatch ["p"; "q"] [1; 2; 3]%Z Demo.s2.1) 12 Hg Hne).
Defined.

Lemma generated_only_if_requested_witness :
  (tv_osc Demo.tv0 = None
   ∨ ((State.handle_get_set FNone).2 = false ∧ (State.handle_get_set FNone).1.2 = false))
  ∧ (generated Demo.tv0 "p" Demo.xy (FStr "get") FNone).2 = []
  ∧ generation_result Demo.tv0 "p" Demo.xy (FStr "get") FNone = Ok tt.
Proof.
  assert (Hoff : tv_osc Demo.tv0 = None
                 ∨ ((State.handle_get_set FNone).2 = false
                    ∧ (State.handle_get_set FNone).1.2 = false)).
  { right. split; reflexivity. }
  pose proof (generated_only_if_requested Demo.tv0 "p" Demo.xy (FStr "get") FNone) as Hg.
  cbv zeta in Hg. destruct Hg as (_ & _ & _ & _ & Hnone).
  split; [exact Hoff|]. exact (Hnone Hoff).
Defined.

Lemma from_vec_to_vec_noop_witness :
  synced_layout Demo.p_block ∧
  ∃ vec self1 self2,
    State.to_vec Demo.p_block = (Ok vec, self1) ∧
    State.from_vec vec self1 = (Ok tt, self2) ∧
    st_field self2 = st_field Demo.p_block ∧
    State.to_vec self2 = (Ok vec, self2).
Proof.
  assert (Hl : synced_layout Demo.p_block) by (vm_compute; reflexivity).
  split; [exact Hl|]. exact (from_vec_to_vec_noop Demo.p_block Hl).
Defined.



Lemma add_osc_getters_raises_witness :
  st_dict Demo.p_block = ("x", (Demo.f32, -1, 1)%Z) :: [("y", (Demo.f32, -1, 1)%Z)] ∧
  py_int_DataType Demo.f32 = Raise (TypeError "int") ∧
  State.add_osc_getters (Demo.p_block, Demo.w0)
  = (Raise (TypeError "int"), (Demo.p_block, Demo.w0)).
Proof.
  assert (Hd : st_dict Demo.p_block
               = ("x", (Demo.f32, -1, 1)%Z) :: [("y", (Demo.f32, -1, 1)%Z)]).
  { vm_compute. reflexivity. }
  split; [exact Hd|]. split; [reflexivity|].
  exact (proj1 (add_osc_getters_raises Demo.p_block Demo.w0)
           "x" Demo.f32 (-1)%Z 1%Z [("y", (Demo.f32, -1, 1)%Z)] (TypeError "int")
           Hd eq_refl).
Defined.

(** * Further properties of the registry *)

Section RegistryFacts.
Context `{Externals} `{!SliceCodecs} `{!PyCall}.
Implicit Types r : gmap string pyval.

(** [add] on a declaration of a block: no duplicate check is made. *)
Lemma add_block_run name kwargs a r w :
  kwargs = VDict a ∨ kwargs = VTuple a →
  StateDict.add name kwargs (r, w) =
  match StateDict.new_State (r !! "tv") name a (r, w) with
  | (Raise e, σ) => (Raise e, σ)
  | (Ok s, (_, w')) =>
      match StateDict.py_add (<[name := VState s]> r !! "size") (st_size s) with
      | Raise e => (Raise e, (<[name := VState s]> r, w'))
      | Ok new => (Ok tt, (<["size" := new]> (<[name := VState s]> r), w'))
      end
  end.
Proof.
  intros Hk. unfold StateDict.add, StateDict.add_with.
  replace (bool_decide (name = "tv") && negb (StateDict.is_dict kwargs)
           && negb (StateDict.is_tuple kwargs)) with false
    by (destruct Hk as [-> | ->]; simpl; by rewrite ?andb_false_r).
  replace (bool_decide (name = "size") && StateDict.is_int kwargs) with false
    by (destruct Hk as [-> | ->]; simpl; by rewrite ?andb_false_r).
  assert (Hbody :
    (tolvera ← StateDict.getattr "tv";
     s ← StateDict.new_State tolvera name a;
     StateDict.setitem name (VState s);;
     cur ← StateDict.getattr "size";
     v ← StateDict.getitem name fst;
     n ← lift_result (StateDict.size_of v);
     new ← lift_result (StateDict.py_add cur n);
     StateDict.setattr_nested "size" new) (r, w)
    = match StateDict.new_State (r !! "tv") name a (r, w) with
       | (Raise e, σ) => (Raise e, σ)
       | (Ok s, (_, w')) =>
           match StateDict.py_add (<[name := VState s]> r !! "size") (st_size s) with
           | Raise e => (Raise e, (<[name := VState s]> r, w'))
           | Ok new => (Ok tt, (<["size" := new]> (<[name := VState s]> r), w'))
           end
       end).
  { unfold bind at 1. unfold StateDict.getattr at 1.
    unfold bind at 1, get_state at 1, ret at 1. cbn [fst snd].
    unfold bind at 1.
    pose proof (new_State_registry (r !! "tv") name a r w) as Hr.
    destruct (StateDict.new_State (r !! "tv") name a (r, w)) as [[s|e] [r' w']];
      simpl in Hr; subst r'; [|done].
    unfold StateDict.setitem, StateDict.getattr, StateDict.getitem.
    unfold_m. cbn [fst snd]. rewrite lookup_insert_eq. simpl.
    destruct (<[name:=VState s]> r !! "size") as [[z| | | | |]|] eqn:Hsz; simpl; try done.
    rewrite setattr_nested_size; [done|]. by rewrite Hsz. }
  destruct Hk as [-> | ->]; exact Hbody.
Qed.

(** X1: through any sequence of [set] calls, whatever their arguments and
    whether they return or raise, an entry stored under a name other than
    the reserved [size] stays in the registry with the value it had: the
    session entry [tv] and every declared block are never removed or
    replaced. *)
Theorem sets_keep_entries calls r w n v :
  n ≠ "size" → r !! n = Some v → (sets calls (r, w)).1 !! n = Some v.
Proof.
  revert r w. induction calls as [|[name kw] calls IH]; intros r w Hn Hv; [done|].
  unfold sets in *. cbn [foldl fst snd].
  pose proof (set_keeps_entries name kw r w n v Hn Hv) as Hk.
  destruct (StateDict.set name kw (r, w)) as [res [r' w']]. by apply IH.
Qed.

(** X2: [set] given anything other than a dict or a tuple, under a name
    other than [tv] and [size], raises and changes neither the registry nor
    the session: the duplicate-name error when the name is taken, the type
    error of [add] otherwise. *)
Theorem set_rejects_non_spec name kwargs r w :
  block_spec kwargs = false → name ≠ "size" → name ≠ "tv" →
  StateDict.set name kwargs (r, w)
  = (Raise (if bool_decide (is_Some (r !! name)) then ValueError name
            else TypeError "set() requires dict|tuple"), (r, w)).
Proof.
  intros Hspec Hs Ht.
  unfold StateDict.set, StateDict.set_with, StateDict.contains, StateDict.add_with.
  unfold_m. cbn [fst snd].
  rewrite (bool_decide_eq_false_2 _ Hs), (bool_decide_eq_false_2 _ Ht).
  destruct (bool_decide (is_Some (r !! name))); simpl; [done|].
  by destruct kwargs.
Qed.

(** X3: while [size] holds an integer, a call of [set] under any other name
    that raises leaves the registry exactly as it was, whatever raised: the
    duplicate check, the type check, or the constructor of the block. *)
Theorem set_raise_keeps_registry name kwargs r w z e :
  r !! "size" = Some (VInt z) → name ≠ "size" →
  (StateDict.set name kwargs (r, w)).1 = Raise e →
  (StateDict.set name kwargs (r, w)).2.1 = r.
Proof.
  intros Hz Hn.
  destruct (block_spec_cases kwargs) as [[a Hk]|[Hd Ht]].
  - rewrite (set_block_run name kwargs a r w Hk).
    destruct (_ && _); [done|].
    pose proof (new_State_registry (r !! "tv") name a r w) as Hr.
    destruct (StateDict.new_State (r !! "tv") name a (r, w)) as [[s|e'] [r' w']];
      simpl in Hr; subst r'; [|done].
    rewrite lookup_insert_ne, Hz by done. done.
  - unfold StateDict.set, StateDict.set_with, StateDict.contains, StateDict.add_with,
      StateDict.setitem.
    unfold_m. cbn [fst snd].
    rewrite (bool_decide_eq_false_2 _ Hn).
    destruct (bool_decide (is_Some (r !! name))); simpl; [done|].
    rewrite Hd, Ht. simpl.
    destruct (bool_decide (name = "tv")); simpl; [done|].
    by destruct kwargs.
Qed.

(** X4: [add], called directly, makes no duplicate check: on a name that
    already holds a block it replaces the block and adds the new block's
    [size] to the total without subtracting the old one's, so that the
    total then exceeds the sum over the stored blocks by the size of the
    block replaced. *)
Theorem add_replaces_block name kwargs a r w old s :
  kwargs = VDict a ∨ kwargs = VTuple a →
  name ≠ "size" → ledger_sound r → r !! name = Some (VState old) →
  (StateDict.new_State (r !! "tv") name a (r, w)).1 = Ok s →
  let r' := <["size" := VInt (blocks_size r + Z.of_nat (st_size s))]>
              (<[name := VState s]> r) in
  StateDict.add name kwargs (r, w)
  = (Ok tt, (r', (StateDict.new_State (r !! "tv") name a (r, w)).2.2))
  ∧ r' !! "size" = Some (VInt (blocks_size r' + Z.of_nat (st_size old))).
Proof.
  intros Hk Hn Hs Hold Hnew. cbv zeta. split.
  - rewrite (add_block_run name kwargs a r w Hk).
    pose proof (new_State_registry (r !! "tv") name a r w) as Hr.
    destruct (StateDict.new_State (r !! "tv") name a (r, w)) as [[s'|e'] [r' w']];
      simpl in Hr, Hnew; subst r'; [|done].
    injection Hnew as ->.
    rewrite lookup_insert_ne by done. unfold ledger_sound in Hs. by rewrite Hs.
  - rewrite lookup_insert_eq. do 2 f_equal.
    rewrite (blocks_size_insert_over _ "size" (VInt (blocks_size r)))
      by (by rewrite lookup_insert_ne).
    rewrite (blocks_size_insert_over r name (VState old)) by done.
    simpl. lia.
Qed.

(** X5: once a block is stored under the name [size], no declaration of a
    block succeeds any more: every later [set] with a dict or a tuple
    raises, and the block stays under [size]. *)
Theorem broken_ledger_stays_broken name kwargs r w :
  ledger_broken r → block_spec kwargs = true →
  (∃ e, (StateDict.set name kwargs (r, w)).1 = Raise e)
  ∧ ledger_broken (StateDict.set name kwargs (r, w)).2.1.
Proof.
  intros [blk Hb] Hspec.
  destruct (block_spec_args _ Hspec) as [a Hk].
  rewrite (set_block_run name kwargs a r w Hk).
  destruct (_ && _); [split; [eauto|by exists blk]|].
  pose proof (new_State_registry (r !! "tv") name a r w) as Hr.
  destruct (StateDict.new_State (r !! "tv") name a (r, w)) as [[s|e'] [r' w']];
    simpl in Hr; subst r'; [|split; [eauto|by exists blk]].
  destruct (decide (name = "size")) as [->|Hne].
  - rewrite lookup_insert_eq. simpl. split; [eauto|].
    exists s. by rewrite lookup_insert_eq.
  - rewrite lookup_insert_ne, Hb by done. simpl. split; [eauto|].
    exists blk. by rewrite lookup_insert_ne.
Qed.

(** X6: a block is stored under [size] by declaring one under that name:
    the duplicate check exempts the name, the block replaces the total, and
    the addition to the total then raises. *)
Theorem set_size_block_breaks kwargs a r w s :
  kwargs = VDict a ∨ kwargs = VTuple a →
  (StateDict.new_State (r !! "tv") "size" a (r, w)).1 = Ok s →
  StateDict.set "size" kwargs (r, w)
  = (Raise (TypeError "+"),
     (<["size" := VState s]> r, (StateDict.new_State (r !! "tv") "size" a (r, w)).2.2)).
Proof.
  intros Hk Hnew. rewrite (set_block_run "size" kwargs a r w Hk).
  rewrite andb_false_r.
  pose proof (new_State_registry (r !! "tv") "size" a r w) as Hr.
  destruct (StateDict.new_State (r !! "tv") "size" a (r, w)) as [[s'|e'] [r' w']];
    simpl in Hr, Hnew; subst r'; [|done].
  injection Hnew as ->. by rewrite lookup_insert_eq.
Qed.
End RegistryFacts.

(** * Further properties of the cross-block vectors *)

Section VectorFacts.
Context `{Externals} `{!SliceCodecs} `{!PyCall}.
Implicit Types d : gmap string pyval.

(** The sizes [get_size] collects, one name after the other. *)
Lemma sizes_run (l : list string) d :
  map_m (λ state, s ← StateDict.getitem state id;
                  lift_result (StateDict.size_of s)) l d
  = match l with
    | [] => (Ok [], d)
    | n :: l' =>
        match d !! n with
        | None => (Raise (KeyError n), d)
        | Some v =>
            match StateDict.size_of v with
            | Raise e => (Raise e, d)
            | Ok k =>
                match map_m (λ state, s ← StateDict.getitem state id;
                                      lift_result (StateDict.size_of s)) l' d with
                | (Ok ks, d') => (Ok (k :: ks), d')
                | (Raise e, d') => (Raise e, d')
                end
            end
        end
    end.
Proof.
  destruct l as [|n l']; [done|].
  cbn [map_m]. unfold bind at 1. unfold bind at 1. rewrite getitem_run.
  destruct (d !! n) as [v|]; [|done].
  unfold lift_result at 1. destruct (StateDict.size_of v) as [k|e]; [|done].
  unfold bind at 1.
  by destruct (map_m _ l' d) as [[ks|e] d'].
Qed.

Lemma get_size_sizes (l : list string) d (ks : list nat) :
  Forall2 (λ n k, block_size d n = Some k) l ks →
  StateDict.get_size (Names l) d = (Ok (sum_list ks), d).
Proof.
  intros Hall. unfold StateDict.get_size. unfold bind at 1.
  assert (Hm : map_m (λ state, s ← StateDict.getitem state id;
                               lift_result (StateDict.size_of s)) l d
               = (Ok ks, d)).
  { induction Hall as [|n k ns ks' Hn _ IH]; [done|].
    rewrite sizes_run. unfold block_size in Hn.
    destruct (d !! n) as [[]|]; try done. injection Hn as Hn. simpl.
    by rewrite Hn, IH. }
  by rewrite Hm.
Qed.

Lemma get_size_inv (l : list string) d n :
  (StateDict.get_size (Names l) d).1 = Ok n →
  ∃ ks, Forall2 (λ n k, block_size d n = Some k) l ks ∧ n = sum_list ks.
Proof.
  unfold StateDict.get_size. unfold bind at 1.
  destruct (map_m _ l d) as [[ks|e] d'] eqn:Hm; [|done].
  simpl. intros [= <-]. exists ks. split; [|done].
  revert ks d' Hm. induction l as [|m l IH]; intros ks d' Hm.
  - injection Hm as <- _. constructor.
  - rewrite sizes_run in Hm.
    destruct (d !! m) as [v|] eqn:Hd; [|done].
    destruct (StateDict.size_of v) as [k|e] eqn:Hv; [|done].
    destruct (map_m _ l d) as [[ks'|e] d''] eqn:Hm'; [|done].
    injection Hm as <- _. constructor; [|by eapply IH].
    unfold block_size. rewrite Hd. by destruct v; simplify_eq/=.
Qed.

Lemma sum_list_append (ks1 ks2 : list nat) :
  sum_list (ks1 ++ ks2) = sum_list ks1 + sum_list ks2.
Proof. induction ks1 as [|k ks1 IH]; simpl; [done|]. rewrite IH. lia. Qed.

(** X7: [get_size] is additive over the concatenation of name lists (a name
    listed twice counts twice), and a single name given as a string is the
    one-element list. *)
Theorem get_size_app (l1 l2 : list string) d n1 n2 :
  (StateDict.get_size (Names l1) d).1 = Ok n1 →
  (StateDict.get_size (Names l2) d).1 = Ok n2 →
  StateDict.get_size (Names (l1 ++ l2)) d = (Ok (n1 + n2), d)
  ∧ ∀ s, StateDict.get_size (Name s) d = StateDict.get_size (Names [s]) d.
Proof.
  intros (ks1 & Hall1 & ->)%get_size_inv (ks2 & Hall2 & ->)%get_size_inv.
  split; [|done].
  rewrite (get_size_sizes (l1 ++ l2) d (ks1 ++ ks2)) by (by apply Forall2_app).
  by rewrite sum_list_append.
Qed.

Lemma get_size_missing (pre post : list string) n d :
  Forall (λ m, is_Some (block_size d m)) pre → d !! n = None →
  StateDict.get_size (Names (pre ++ n :: post)) d = (Raise (KeyError n), d).
Proof.
  intros Hpre Hn. unfold StateDict.get_size. unfold bind at 1.
  assert (Hm : map_m (λ state, s ← StateDict.getitem state id;
                               lift_result (StateDict.size_of s)) (pre ++ n :: post) d
               = (Raise (KeyError n), d)).
  { induction Hpre as [|m pre [k Hk] _ IH].
    - simpl app. by rewrite sizes_run, Hn.
    - simpl app. rewrite sizes_run. unfold block_size in Hk.
      destruct (d !! m) as [[]|]; try done. simpl. by rewrite IH. }
  by rewrite Hm.
Qed.

(** X8: when the names up to some point are blocks and the next one is not
    in the registry, [get_size] raises [KeyError] for that name, and so does
    the registry's [from_vec] for every vector, before it has loaded
    anything: the registry and its blocks are as they were. *)
Theorem from_vec_unknown_name (pre post : list string) n d :
  Forall (λ m, is_Some (block_size d m)) pre → d !! n = None →
  StateDict.get_size (Names (pre ++ n :: post)) d = (Raise (KeyError n), d)
  ∧ ∀ vector,
      StateDict.from_vec (pre ++ n :: post) vector d = (Raise (KeyError n), d).
Proof.
  intros Hpre Hn. pose proof (get_size_missing pre post n d Hpre Hn) as Hg.
  split; [done|]. intros vector.
  unfold StateDict.from_vec. unfold bind at 1. by rewrite Hg.
Qed.

(** What the loop of [from_vec] does to the registry. *)
Lemma from_vec_loop_frame (states : list string) vector k d m res d' :
  StateDict.from_vec_loop vector states k d = (res, d') →
  block_size d' m = block_size d m ∧ (m ∉ states → d' !! m = d !! m).
Proof.
  revert k d. induction states as [|n ns IH]; intros k d E.
  { by injection E as _ <-. }
  cbn [StateDict.from_vec_loop] in E. unfold bind at 1 in E.
  rewrite getitem_run in E.
  destruct (d !! n) as [v|] eqn:Hd; [|by injection E as _ <-].
  unfold bind at 1 in E. unfold lift_result at 1 in E.
  destruct v as [| | | |blk|]; try (by injection E as _ <-).
  cbn [StateDict.size_of] in E.
  unfold bind at 1 in E. rewrite block_from_vec_run in E.
  pose proof (from_vec_keeps_size (take (st_size blk) (drop k vector)) blk) as Hs.
  destruct (State.from_vec _ blk) as [[[]|e] blk']; cbn [fst snd] in *.
  - destruct (IH _ _ E) as [IH1 IH2]. split.
    + by rewrite IH1, (block_size_insert d n blk blk' m).
    + intros [Hne Hnot]%not_elem_of_cons. by rewrite IH2, lookup_insert_ne.
  - injection E as _ <-. split.
    + by rewrite (block_size_insert d n blk blk' m).
    + intros [Hne Hnot]%not_elem_of_cons. by rewrite lookup_insert_ne.
Qed.

(** X9: whatever it is given and whether it returns or raises, the
    registry's [from_vec] leaves every entry not named in [states] exactly
    as it was, and changes no block's [size]: afterwards [get_size] returns
    for every list of names what it returned before. *)
Theorem from_vec_frame (states : list string) (vector : list scalar) d :
  (∀ m, m ∉ states → (StateDict.from_vec states vector d).2 !! m = d !! m)
  ∧ (∀ m, block_size (StateDict.from_vec states vector d).2 m = block_size d m)
  ∧ (∀ l n, (StateDict.get_size (Names l) d).1 = Ok n →
            StateDict.get_size (Names l) (StateDict.from_vec states vector d).2
            = (Ok n, (StateDict.from_vec states vector d).2)).
Proof.
  assert (Hrun : ∀ m,
    block_size (StateDict.from_vec states vector d).2 m = block_size d m
    ∧ (m ∉ states → (StateDict.from_vec states vector d).2 !! m = d !! m)).
  { intros m. unfold StateDict.from_vec. unfold bind at 1 2.
    pose proof (get_size_reads (Names states) d) as Hd.
    destruct (StateDict.get_size (Names states) d) as [[k|e] d']; simpl in Hd;
      subst d'; [|done].
    destruct (bool_decide _); [|done].
    destruct (StateDict.from_vec_loop vector states 0 d) as [res d'] eqn:E.
    by apply (from_vec_loop_frame states vector 0 d m res d'). }
  split; [intros m; apply Hrun|]. split; [intros m; apply Hrun|].
  intros l n (ks & Hall & ->)%get_size_inv.
  apply get_size_sizes. eapply Forall2_impl; [exact Hall|].
  intros m k Hk. simpl. by rewrite (proj1 (Hrun m)).
Qed.

Lemma Forall2_impl_elem {A B} (P Q : A → B → Prop) (l : list A) (k : list B) :
  Forall2 P l k → (∀ x y, x ∈ l → P x y → Q x y) → Forall2 Q l k.
Proof.
  induction 1 as [|x y l k HP _ IH]; intros HPQ; constructor.
  - apply HPQ; [by left|done].
  - apply IH. intros x' y' Hin. apply HPQ. by right.
Qed.

Lemma load_chunks_distinct (states : list string) (chunks : list (list scalar)) d :
  NoDup states →
  Forall2 (λ n c, ∃ blk, d !! n = Some (VState blk)
                         ∧ (State.from_vec c blk).1 = Ok tt) states chunks →
  ∃ d', load_chunks states chunks d = (Ok tt, d')
    ∧ Forall2 (λ n c, ∃ blk, d !! n = Some (VState blk)
                 ∧ d' !! n = Some (VState (State.from_vec c blk).2)) states chunks
    ∧ ∀ m, m ∉ states → d' !! m = d !! m.
Proof.
  intros Hnd Hall. revert chunks d Hnd Hall.
  induction states as [|n ns IH]; intros chunks d Hnd Hall;
    inversion Hall as [|? c ? cs (blk & Hd & Hok) Hall']; subst.
  - exists d. split; [done|]. split; [constructor|done].
  - apply NoDup_cons in Hnd as [Hnin Hnd].
    destruct (IH cs (<[n := VState (State.from_vec c blk).2]> d) Hnd)
      as (d' & Hrun & Hres & Hframe).
    { eapply Forall2_impl_elem; [exact Hall'|].
      intros m c' Hin (blk' & Hd' & Hok'). exists blk'. split; [|done].
      rewrite lookup_insert_ne; [done|]. by intros ->. }
    exists d'. split; [|split].
    + cbn [load_chunks]. unfold bind at 1. rewrite getitem_run, Hd.
      unfold bind at 1. rewrite block_from_vec_run, Hok. exact Hrun.
    + constructor.
      * exists blk. split; [done|]. by rewrite (Hframe n Hnin), lookup_insert_eq.
      * eapply Forall2_impl_elem; [exact Hres|].
        intros m c' Hin (blk' & Hd' & Hr'). exists blk'. split; [|done].
        rewrite lookup_insert_ne in Hd'; [done|]. by intros ->.
    + intros m [Hne Hnot]%not_elem_of_cons.
      by rewrite (Hframe m Hnot), lookup_insert_ne.
Qed.

(** X10: for distinct names of blocks and one chunk per name, each as long
    as its block's [size] and each accepted by its block, the registry's
    [from_vec] on the concatenation of the chunks succeeds, leaves each
    named block as that block's own [from_vec] leaves it on its chunk, and
    leaves every other entry alone. *)
Theorem from_vec_distinct_blocks (states : list string) (chunks : list (list scalar)) d :
  NoDup states →
  Forall2 (λ n c, ∃ blk, d !! n = Some (VState blk) ∧ st_size blk = length c
                         ∧ (State.from_vec c blk).1 = Ok tt) states chunks →
  ∃ d', StateDict.from_vec states (concat chunks) d = (Ok tt, d')
    ∧ Forall2 (λ n c, ∃ blk, d !! n = Some (VState blk)
                 ∧ d' !! n = Some (VState (State.from_vec c blk).2)) states chunks
    ∧ ∀ m, m ∉ states → d' !! m = d !! m.
Proof.
  intros Hnd Hall.
  rewrite (from_vec_partition states chunks d).
  - apply load_chunks_distinct; [done|].
    eapply Forall2_impl; [exact Hall|].
    intros n c (blk & ? & ? & ?). by exists blk.
  - eapply Forall2_impl; [exact Hall|].
    intros n c (blk & Hd & Hs & _). simpl. unfold block_size. by rewrite Hd, Hs.
Qed.
Lemma Forall2_conj {A B} (P Q : A → B → Prop) (l : list A) (k : list B) :
  Forall2 P l k → Forall2 Q l k → Forall2 (λ x y, P x y ∧ Q x y) l k.
Proof.
  intros HP. induction HP as [|x y l k Hxy _ IH]; intros HQ;
    inversion HQ; subst; constructor; auto.
Qed.

(** A block accepts every vector as long as its [size], and then returns
    it. *)
Lemma from_vec_sized (blk : State) (c : list scalar) :
  wf blk → length c = st_size blk →
  ∃ blk', State.from_vec c blk = (Ok tt, blk') ∧ State.to_vec blk' = (Ok c, blk').
Proof.
  intros [Hl Hs] Hlen.
  set (d := NpNdarrayDict.split_by (layout (st_field blk)) c).
  assert (Hsize : length c = layout_size (layout (st_field blk))).
  { rewrite Hlen, Hs. unfold NpNdarrayDict.size. unfold synced_layout in Hl.
    by rewrite Hl. }
  assert (Hd : layout d = layout (st_field blk)) by (by apply layout_split_by).
  assert (Hc : concat d.*2 = c) by (by apply concat_split_by).
  pose proof (from_vec_synced blk d Hl Hd) as Hrun. rewrite Hc in Hrun.
  eexists. split; [exact Hrun|].
  rewrite to_vec_synced.
  - destruct blk. simpl in *. by rewrite Hc.
  - unfold synced_layout in *. destruct blk. simpl in *. by rewrite Hd.
Qed.

(** C6: the registry's [from_vec] partitions the vector contiguously, each
    chunk as long as its block's [size], in the order of the names, and
    hands each chunk to its block's own [from_vec].  For distinct names of
    declared blocks, each block then returns from [to_vec] exactly the chunk
    it was handed.  And for every sequence of names of declared blocks,
    extracting each block's vector in that order, concatenating, and
    feeding the concatenation to [from_vec] with the same names succeeds,
    after which each named block's [to_vec] returns the vector it returned
    before. *)
Theorem from_vec_concat_to_vec (states : list string) d :
  (∀ chunks : list (list scalar),
     Forall2 (λ n c, block_size d n = Some (length c)) states chunks →
     StateDict.from_vec states (concat chunks) d = load_chunks states chunks d)
  ∧ ((∀ n, n ∈ states → ∃ blk, d !! n = Some (VState blk) ∧ wf blk) →
     (∀ chunks : list (list scalar),
        NoDup states →
        Forall2 (λ n c, block_size d n = Some (length c)) states chunks →
        ∃ d', StateDict.from_vec states (concat chunks) d = (Ok tt, d')
              ∧ Forall2 (λ n c, (block_to_vec n d').1 = Ok c) states chunks
              ∧ ∀ m, m ∉ states → d' !! m = d !! m)
     ∧ ∃ vecs d1 d2,
         to_vecs states d = (Ok vecs, d1) ∧
         Forall2 (λ n vec, block_size d1 n = Some (length vec)) states vecs ∧
         StateDict.from_vec states (concat vecs) d1 = (Ok tt, d2) ∧
         Forall2 (λ n vec, (block_to_vec n d2).1 = Ok vec) states vecs).
Proof.
  split; [intros chunks; apply from_vec_partition|].
  intros Hwf. split.
  - intros chunks Hnd Hall.
    rewrite (from_vec_partition states chunks d Hall).
    destruct (load_chunks_distinct states chunks d Hnd) as (d' & Hrun & Hres & Hframe).
    { eapply Forall2_impl_elem; [exact Hall|].
      intros n c Hin Hn. destruct (Hwf n Hin) as (blk & Hd & Hw).
      exists blk. split; [done|]. unfold block_size in Hn. rewrite Hd in Hn.
      injection Hn as Hn.
      destruct (from_vec_sized blk c Hw) as (blk' & -> & _); done. }
    exists d'. split; [done|]. split; [|done].
    eapply Forall2_impl_elem; [exact (Forall2_conj _ _ _ _ Hall Hres)|].
    intros n c Hin [Hn (blk & Hd & Hd')]. cbv beta in *.
    destruct (Hwf n Hin) as (blk0 & Hd0 & Hw). rewrite Hd in Hd0.
    injection Hd0 as <-. unfold block_size in Hn. rewrite Hd in Hn.
    injection Hn as Hn.
    destruct (from_vec_sized blk c Hw) as (blk' & Hf & Ht); [done|].
    rewrite Hf in Hd'. cbn [snd] in Hd'.
    unfold block_to_vec. unfold bind at 1. rewrite getitem_run, Hd', Ht. done.
  - assert (Hblk : ∀ n, n ∈ states →
              ∃ blk, d !! n = Some (VState blk) ∧ synced_layout blk).
    { intros n Hn. destruct (Hwf n Hn) as (blk & ? & ? & ?). by exists blk. }
    destruct (to_vecs_run states d d Hblk (refreshed_refl d)) as (d1 & Hvecs & Hr1).
    destruct (load_chunks_own states d d1 Hblk Hr1) as (d2 & Hload & Hr2).
    assert (Hsizes : Forall2 (λ n vec, block_size d1 n = Some (length vec))
                       states (block_vec d <$> states)).
    { apply Forall2_fmap_r, Forall_Forall2_diag, Forall_forall. intros n Hn.
      destruct (Hwf n Hn) as (blk & Hd & Hw).
      destruct (refreshed_block d d1 n blk Hr1 Hd (proj1 Hw))
        as (blk' & Hn' & _ & _ & Hs & _).
      simpl. unfold block_size, block_vec. rewrite Hn', Hd, Hs. f_equal.
      by apply wf_block_size. }
    exists (block_vec d <$> states), d1, d2.
    split; [done|]. split; [done|].
    rewrite (from_vec_partition _ _ _ Hsizes). split; [done|].
    apply Forall2_fmap_r, Forall_Forall2_diag, Forall_forall. intros n Hn.
    destruct (Hblk n Hn) as (blk & Hd & Hl). simpl.
    by rewrite (block_to_vec_run d d2 n blk Hr2 Hd Hl).
Qed.
End VectorFacts.

(** * Further properties of blocks *)

Section BlockFacts.
Context `{Externals} `{!SliceCodecs} `{!PyCall}.
Implicit Types r : gmap string pyval.

Lemma np_schema_unsupported (pre post : schema) k ty lo hi :
  Forall (λ kv, is_Some (TiNpTypeMap kv.2.1.1)) pre → TiNpTypeMap ty = None →
  State.np_schema (pre ++ (k, (ty, lo, hi)) :: post) = Raise (NotImplementedError k).
Proof.
  intros Hpre Hty. induction Hpre as [|[k' [[ty' lo'] hi']] pre [t Ht] _ IH].
  - simpl. by rewrite Hty.
  - simpl in *. by rewrite Ht, IH.
Qed.

Lemma init_np_schema_raise tolvera name d shape iml osc rnd methods w e :
  State.np_schema d = Raise e →
  ∃ self, State.__init__ tolvera (Some name) d shape iml osc rnd methods (State.blank, w)
          = (Raise e, (self, w)).
Proof.
  intros Hnp. unfold State.__init__, State.setup_data, State.create_struct_field,
    State.create_npndarray_dict, State.on_self.
  unfold_m. simpl. rewrite Hnp. simpl. eauto.
Qed.

(** X11: a schema with an attribute whose type has no numpy type makes the
    constructor raise [NotImplementedError] for the first such attribute,
    before the random source is used and before any accessor is registered:
    the session is as it was, and a declaration of such a block under a
    fresh name leaves the registry as it was too. *)
Theorem init_unsupported_type (pre post : schema) k ty lo hi :
  Forall (λ kv, is_Some (TiNpTypeMap kv.2.1.1)) pre → TiNpTypeMap ty = None →
  (∀ tolvera name shape iml osc rnd methods w,
     let run := State.__init__ tolvera (Some name) (pre ++ (k, (ty, lo, hi)) :: post)
                  shape iml osc rnd methods (State.blank, w) in
     run.1 = Raise (NotImplementedError k) ∧ run.2.2 = w)
  ∧ (∀ name kwargs a tolvera r w,
       kwargs = VDict a ∨ kwargs = VTuple a →
       arg_state a = pre ++ (k, (ty, lo, hi)) :: post →
       r !! "tv" = Some (VTolvera tolvera) → r !! name = None →
       StateDict.set name kwargs (r, w) = (Raise (NotImplementedError k), (r, w))).
Proof.
  intros Hpre Hty.
  pose proof (np_schema_unsupported pre post k ty lo hi Hpre Hty) as Hnp. split.
  - intros tolvera name shape iml osc rnd methods w. cbv zeta.
    destruct (init_np_schema_raise tolvera name _ shape iml osc rnd methods w _ Hnp)
      as [self ->]. done.
  - intros name kwargs a tolvera r w Hk Ha Htv Hfresh.
    rewrite (set_block_run name kwargs a r w Hk), Hfresh.
    rewrite bool_decide_eq_false_2 by (by intros [? ?]). cbn [andb].
    rewrite Htv. unfold StateDict.new_State, on_snd. cbn [fst snd].
    rewrite Ha.
    destruct (init_np_schema_raise tolvera name _ (arg_shape a) (arg_iml a) (arg_osc a)
                (arg_randomise a) (arg_methods a) w _ Hnp) as [self ->]. done.
Qed.

Lemma setup_osc_mapping_set self w :
  st_osc_set self = true →
  (State.setup_osc_mapping (self, w)).1 = Raise (AttributeError "_randomise").
Proof.
  intros Hset. unfold State.setup_osc_mapping. unfold bind at 1.
  unfold State.on_self at 1, zoom, modify. simpl.
  unfold bind at 1. unfold State.get_self at 1, State.on_self, zoom, get_state. simpl.
  unfold bind at 1. rewrite Hset.
  unfold bind at 1. by rewrite add_osc_setters_run.
Qed.

(** X13: when the routing layer is enabled in the session and a block
    requests routing-layer setters, [setup_accessors] raises
    [AttributeError]; by then the mapping-layer instances the block
    requested have been registered, and no route has. *)
Theorem osc_setters_abort_accessors iml osc self w :
  is_Some (tv_osc (st_tv self)) → (State.handle_get_set osc).2 = true →
  let run := State.setup_accessors iml osc (self, w) in
  run.1 = Raise (AttributeError "_randomise")
  ∧ osc_routes run.2.2 = osc_routes w
  ∧ iml_instances run.2.2
    = iml_instances w
      ++ (if tv_iml (st_tv self) && (State.handle_get_set iml).2
          then [setter_name_of (st_tv self) (st_name self)] else [])
      ++ (if tv_iml (st_tv self) && (State.handle_get_set iml).1.2
          then [getter_name_of (st_tv self) (st_name self)] else []).
Proof.
  intros Hosc Hset. cbv zeta. split.
  - pose proof (handle_get_set_enabled osc) as [_ Hen]. specialize (Hen Hset).
    unfold State.setup_accessors, State.handle_accessor_flags. cbv zeta.
    destruct (State.handle_get_set iml) as [[ien iget] iset].
    destruct (State.handle_get_set osc) as [[oen oget] oset].
    simpl in Hset, Hen. subst oen oset.
    unfold State.get_self, State.on_self. unfold_m. simpl.
    assert (Hs : ∀ self' w', st_osc_set self' = true →
              (State.setup_osc_mapping (self', w')).1
              = Raise (AttributeError "_randomise")).
    { intros. by apply setup_osc_mapping_set. }
    destruct (tv_iml (st_tv self) && ien).
    + rewrite setup_iml_mapping_run. simpl.
      rewrite (bool_decide_eq_true_2 _ Hosc). simpl. by apply Hs.
    + simpl. rewrite (bool_decide_eq_true_2 _ Hosc). simpl. by apply Hs.
  - rewrite setup_accessors_world. cbv zeta. rewrite Hset.
    rewrite andb_false_r. unfold add_instances. simpl. done.
Qed.

(** X14: a flag given as a string requests at most one direction, and only
    when it is exactly [get] or [set]: it is read as the one-element tuple,
    not searched as text. *)
Theorem string_flag_one_direction tolvera name (d : schema) s osc :
  generated tolvera name d (FStr s) osc = generated tolvera name d (FTuple [s]) osc
  ∧ (generated tolvera name d (FStr s) osc).1
    = (if tv_iml tolvera && bool_decide (s = "set")
       then [setter_name_of tolvera name] else [])
      ++ (if tv_iml tolvera && bool_decide (s = "get")
          then [getter_name_of tolvera name] else [])
  ∧ length (generated tolvera name d (FStr s) osc).1 ≤ 1.
Proof.
  assert (Hm : ∀ x : string, bool_decide (x ∈ [s]) = bool_decide (s = x)).
  { intros x. apply bool_decide_ext. rewrite list_elem_of_singleton. naive_solver. }
  assert (Hf : State.handle_get_set (FStr s) = State.handle_get_set (FTuple [s]))
    by reflexivity.
  split; [by rewrite !generated_run, Hf|]. rewrite generated_run. cbn [fst snd].
  unfold State.handle_get_set. cbn [fst snd]. rewrite !Hm.
  split; [reflexivity|].
  destruct (tv_iml tolvera); [|simpl; lia].
  destruct (decide (s = "set")) as [->|Hs].
  - simpl. lia.
  - rewrite (bool_decide_eq_false_2 _ Hs). simpl.
    destruct (bool_decide (s = "get")); simpl; lia.
Qed.

(** ** What a codec may touch *)

Lemma with_data_of_trans (s1 s2 s3 : State) :
  with_data_of s1 s2 = s1 → with_data_of s2 s3 = s2 → with_data_of s1 s3 = s1.
Proof.
  destruct s1, s2, s3. unfold with_data_of, State.set_field, State.set_nddict. simpl.
  intros [= -> -> -> -> -> -> -> -> -> -> -> -> -> ->]
         [= -> -> -> -> -> -> -> -> -> -> -> -> -> ->]. done.
Qed.

Lemma with_data_of_refl (s : State) : with_data_of s s = s.
Proof. by destruct s. Qed.

Lemma on_field_data {A} (m : M npdata A) self :
  with_data_of self (State.on_field m self).2 = self.
Proof.
  unfold State.on_field, zoom. destruct (m (st_field self)) as [res f].
  by destruct self.
Qed.

Lemma on_nddict_data {A} (m : M NpNdarrayDict A) self :
  with_data_of self (State.on_nddict m self).2 = self.
Proof.
  unfold State.on_nddict, zoom. destruct (m (st_nddict self)) as [res f].
  by destruct self.
Qed.

Lemma bind_data {A B} (m : M State A) (k : A → M State B) self :
  (∀ s, with_data_of s (m s).2 = s) → (∀ a s, with_data_of s (k a s).2 = s) →
  with_data_of self (bind m k self).2 = self.
Proof.
  intros Hm Hk. unfold bind. specialize (Hm self).
  destruct (m self) as [[a|e] s1]; simpl in *; [|done].
  by apply (with_data_of_trans self s1).
Qed.

Lemma ret_data {A} (a : A) (self : State) : with_data_of self (ret a self).2 = self.
Proof. apply with_data_of_refl. Qed.

(** X15: none of the eight vector codecs, whether it returns or raises,
    changes anything of a block but its device field and its host mirror:
    the name, the schema, the shape, the [size], the accessor names and the
    accessor flags are those the block had. *)
Theorem codec_touches_only_data (c : codec) self :
  with_data_of self (run_codec c self).2 = self
  ∧ st_size (run_codec c self).2 = st_size self.
Proof.
  assert (Hto : ∀ s, with_data_of s (State.to_nddict s).2 = s).
  { intros s. unfold State.to_nddict. apply bind_data.
    - intros ?. apply on_field_data.
    - intros ? ?. apply on_nddict_data. }
  assert (Hfrom : ∀ s, with_data_of s (State.from_nddict s).2 = s).
  { intros s. unfold State.from_nddict. apply bind_data.
    - intros ?. apply on_nddict_data.
    - intros ? ?. apply on_field_data. }
  assert (Hw : ∀ (op : M NpNdarrayDict unit) s,
    with_data_of s (silent (State.to_nddict;; State.on_nddict op;; State.from_nddict) s).2
    = s).
  { intros op s. unfold silent. apply bind_data; [|intros; apply ret_data].
    intros s1. apply bind_data; [done|]. intros _ s2.
    apply bind_data; [intros; apply on_nddict_data|done]. }
  assert (Hr : ∀ (op : M NpNdarrayDict (list scalar)) s,
    with_data_of s (returning (State.to_nddict;; State.on_nddict op) s).2 = s).
  { intros op s. unfold returning. apply bind_data; [|intros; apply ret_data].
    intros s1. apply bind_data; [done|]. intros _ s2. apply on_nddict_data. }
  assert (Hall : with_data_of self (run_codec c self).2 = self).
  { destruct c; simpl; first [apply Hw | apply Hr]. }
  split; [done|].
  rewrite <- Hall at 2. by destruct (run_codec c self).2.
Qed.
(** X16: the reading codecs ([to_vec], [attr_to_vec], [slice_to_vec],
    [attr_slice_to_vec]) never write the device: whether they return or
    raise, the device field is the one the block had. *)
Theorem readers_keep_device (c : codec) self :
  writes c = false → st_field (run_codec c self).2 = st_field self.
Proof.
  intros Hw.
  assert (Hto : ∀ s, st_field (State.to_nddict s).2 = st_field s).
  { intros s. unfold State.to_nddict, State.on_field, State.on_nddict,
      TiField.to_numpy, zoom. unfold_m. cbn [fst snd].
    destruct (NpNdarrayDict.set_data _ _) as [res m]. by destruct s. }
  assert (Hr : ∀ (op : M NpNdarrayDict (list scalar)) s,
    st_field (returning (State.to_nddict;; State.on_nddict op) s).2 = st_field s).
  { intros op s. unfold returning. unfold bind at 1. unfold bind at 1.
    specialize (Hto s).
    destruct (State.to_nddict s) as [[[]|e] s1]; cbn [fst snd] in *; [|done].
    unfold State.on_nddict, zoom. rewrite <- Hto.
    destruct (op (st_nddict s1)) as [[res|e] m]; by destruct s1. }
  destruct c; try done; apply Hr.
Qed.
End BlockFacts.

(** * The Taichi runtime wrapper *)

Section TaichiFacts.
Context {image : Type}.
Implicit Types evs : list (Taichi.event image).

Lemma arch_map_lookup (g : string) :
  is_Some (Taichi.arch_map !! g) ↔ g ∈ ["vulkan"; "metal"; "cuda"].
Proof.
  unfold Taichi.arch_map. rewrite !elem_of_cons, elem_of_nil.
  rewrite !lookup_insert_is_Some, lookup_singleton_is_Some. split.
  - intros [<-|[_ [<-|[_ <-]]]]; auto.
  - intros [->|[->|[->|[]]]]; [by left|right; split; [done|by left]|].
    right. split; [done|]. right. by split.
Qed.

Lemma init_ti_run (self : Taichi.Taichi) evs :
  ∃ new,
    Taichi.init_ti (self, evs)
    = (Ok tt, (if Taichi.cpu self then Taichi.set_gpu None self else self, evs ++ new))
    ∧ Taichi.ti_inits new
      = match Taichi.selected self with
        | Some a => [(a, Taichi.seed self)]
        | None => []
        end
    ∧ Taichi.opened new = [] ∧ Taichi.images new = [] ∧ Taichi.shown new = [].
Proof.
  unfold Taichi.init_ti, Taichi.get_self, Taichi.call, Taichi.set_self, Taichi.selected.
  unfold_m. simpl. destruct (Taichi.cpu self).
  - eexists. rewrite <- app_assoc. split; [done|]. done.
  - destruct (Taichi.gpu self) as [g|]; simpl.
    + destruct (Taichi.arch_map !! g).
      * eexists. rewrite <- app_assoc. split; [done|]. done.
      * eexists. split; [done|]. done.
    + eexists. split; [done|]. done.
Qed.

Lemma init_ui_run (self : Taichi.Taichi) evs :
  Taichi.init_ui (self, evs)
  = (Ok tt,
     (Taichi.set_gui (Taichi.the_window self)
        (Taichi.set_canvas (Taichi.the_window self)
           (Taichi.set_window (Taichi.the_window self) self)),
      evs ++ [Taichi.ui_Window (Taichi.the_window self);
              Taichi.get_canvas (Taichi.the_window self);
              Taichi.get_gui (Taichi.the_window self)])).
Proof.
  unfold Taichi.init_ui, Taichi.get_self, Taichi.call, Taichi.set_self.
  unfold_m. simpl. by rewrite <- !app_assoc.
Qed.

Lemma taichi_init_run context_ kw now evs :
  let self0 := Taichi.configured context_ kw now in
  let w := Taichi.the_window self0 in
  ∃ self new,
    Taichi.__init__ context_ kw now (Taichi.blank, evs) = (Ok tt, (self, evs ++ new))
    ∧ Taichi.ti_inits new
      = match Taichi.selected self0 with
        | Some a => [(a, Taichi.seed self0)]
        | None => []
        end
    ∧ Taichi.opened new = [w] ∧ Taichi.images new = [] ∧ Taichi.shown new = []
    ∧ Taichi.window self = Some w ∧ Taichi.canvas self = Some w
    ∧ Taichi.headless self = Taichi.headless self0
    ∧ Taichi.gpu self = (if Taichi.cpu self0 then None else Taichi.gpu self0).
Proof.
  cbv zeta. unfold Taichi.__init__. unfold bind at 1.
  unfold Taichi.set_self at 1, modify. cbn [fst snd].
  change {| Taichi.ctx := context_; Taichi.gpu := _; Taichi.cpu := _; Taichi.fps := _;
            Taichi.seed := _; Taichi.headless := _; Taichi.name := _;
            Taichi.window := _; Taichi.canvas := _; Taichi.gui := _ |}
    with (Taichi.configured context_ kw now).
  set (self0 := Taichi.configured context_ kw now).
  destruct (init_ti_run self0 evs) as (new1 & Hti & Hinits & Ho & Hi & Hs).
  unfold bind at 1. rewrite Hti.
  unfold bind at 1. rewrite init_ui_run.
  unfold Taichi.get_self, Taichi.call. unfold_m. cbn [fst snd].
  eexists _, _. rewrite <- !app_assoc. split; [reflexivity|].
  unfold Taichi.ti_inits, Taichi.opened, Taichi.images, Taichi.shown in *.
  rewrite !omap_app, Hinits, Ho, Hi, Hs. simpl.
  rewrite app_nil_r.
  destruct (default false (Taichi.kw_cpu kw)); done.
Qed.

Lemma show_run (self : Taichi.Taichi) (c w : Taichi.Window) (img : image) evs :
  Taichi.canvas self = Some c → Taichi.window self = Some w →
  Taichi.show img (self, evs)
  = (Ok tt, (self, evs ++ Taichi.set_image c img
                       :: (if Taichi.headless self then [] else [Taichi.window_show w]))).
Proof.
  intros Hc Hw. unfold Taichi.show, Taichi.get_self, Taichi.call.
  unfold_m. cbn [fst snd]. rewrite Hc. cbn [fst snd].
  destruct (Taichi.headless self); simpl; [done|].
  rewrite Hw. cbn [fst snd]. by rewrite <- app_assoc.
Qed.

Lemma shows_run (self : Taichi.Taichi) (c w : Taichi.Window) (imgs : list image) evs :
  Taichi.canvas self = Some c → Taichi.window self = Some w →
  ∃ new,
    for_each imgs Taichi.__call__ (self, evs) = (Ok tt, (self, evs ++ new))
    ∧ Taichi.images new = imgs
    ∧ Taichi.shown new
      = (if Taichi.headless self then [] else replicate (length imgs) w)
    ∧ Taichi.ti_inits new = [] ∧ Taichi.opened new = [].
Proof.
  intros Hc Hw. revert evs. induction imgs as [|img imgs IH]; intros evs.
  - exists []. rewrite app_nil_r. split; [done|]. by destruct (Taichi.headless self).
  - pose proof (show_run self c w img evs Hc Hw) as Hshow.
    set (step := Taichi.set_image c img
                 :: (if Taichi.headless self then [] else [Taichi.window_show w])) in *.
    destruct (IH (evs ++ step)) as (new & Hrun & Hi & Hs & Ht & Ho).
    exists (step ++ new). cbn [for_each]. unfold bind at 1. unfold Taichi.__call__ at 1.
    rewrite Hshow, Hrun, <- app_assoc. split; [reflexivity|].
    unfold Taichi.images, Taichi.shown, Taichi.ti_inits, Taichi.opened in *.
    rewrite !omap_app, Hi, Hs, Ht, Ho. unfold step.
    by destruct (Taichi.headless self).
Qed.

(** X17: the constructor asks for the backend at most once, with the seed
    given or else the current time: on the CPU when [cpu] is set, on the GPU
    named when the name is [vulkan], [metal] or [cuda], and not at all for
    any other name.  Whatever the outcome of that selection, the one window
    it then asks for has the name, the resolution of the context and the
    frame limit given. *)
Theorem init_backend_once context_ kw now evs :
  let run := Taichi.__init__ context_ kw now (Taichi.blank, evs) in
  let requested := default (Some "vulkan") (Taichi.kw_gpu kw) in
  let on_cpu := default false (Taichi.kw_cpu kw) in
  (∃ inits, Taichi.ti_inits run.2.2 = Taichi.ti_inits evs ++ inits
       ∧ length inits ≤ 1
       ∧ (inits = [] ↔
          on_cpu = false ∧ ∀ g, requested = Some g → g ∉ ["vulkan"; "metal"; "cuda"])
       ∧ ∀ a s, (a, s) ∈ inits → s = default now (Taichi.kw_seed kw))
  ∧ Taichi.opened run.2.2
    = Taichi.opened evs
      ++ [ {| Taichi.win_name := default "Tölvera" (Taichi.kw_name kw);
              Taichi.win_res := (Taichi.ctx_x context_, Taichi.ctx_y context_);
              Taichi.win_fps_limit := default 120%Z (Taichi.kw_fps kw);
              Taichi.win_show_window := negb (default false (Taichi.kw_headless kw)) |} ].
Proof.
  cbv zeta.
  destruct (taichi_init_run context_ kw now evs) as (self & new & -> & Hinits & Ho & _).
  cbn [fst snd].
  unfold Taichi.ti_inits, Taichi.opened in *. rewrite !omap_app, Hinits, Ho.
  split; [|done].
  eexists. split; [reflexivity|].
  unfold Taichi.selected, Taichi.configured. cbn [Taichi.cpu Taichi.gpu Taichi.seed].
  destruct (default false (Taichi.kw_cpu kw)).
  { split; [simpl; lia|]. split; [by split; [|intros [? _]]|].
    by intros a s [= -> ->]%list_elem_of_singleton. }
  destruct (default (Some "vulkan") (Taichi.kw_gpu kw)) as [g|].
  - pose proof (arch_map_lookup g) as Hg.
    destruct (Taichi.arch_map !! g) as [a|].
    + split; [simpl; lia|]. split.
      * split; [done|]. intros [_ Hn]. exfalso. apply (Hn g eq_refl), Hg. eauto.
      * by intros a' s [= -> ->]%list_elem_of_singleton.
    + split; [simpl; lia|]. split.
      * split; [|done]. intros _. split; [done|]. intros g' [= <-] Hin.
        apply Hg in Hin. by destruct Hin.
      * by intros a s ?%elem_of_nil.
  - split; [simpl; lia|]. split.
    + split; [|done]. intros _. split; [done|]. by intros g' [=].
    + by intros a s ?%elem_of_nil.
Qed.

(** X18: with [cpu] set the backend is initialised on the CPU, whatever
    [gpu] names (a GPU name outside the table included), and the [gpu]
    attribute of the object is reset to [None]. *)
Theorem init_cpu_overrides_gpu context_ kw now evs :
  Taichi.kw_cpu kw = Some true →
  let run := Taichi.__init__ context_ kw now (Taichi.blank, evs) in
  run.1 = Ok tt
  ∧ Taichi.ti_inits run.2.2
    = Taichi.ti_inits evs ++ [(Taichi.ti_cpu, default now (Taichi.kw_seed kw))]
  ∧ Taichi.gpu run.2.1 = None.
Proof.
  intros Hcpu. cbv zeta.
  destruct (taichi_init_run context_ kw now evs)
    as (self & new & -> & Hinits & _ & _ & _ & _ & _ & _ & Hgpu).
  cbn [fst snd]. unfold Taichi.selected, Taichi.configured in *.
  cbn [Taichi.cpu Taichi.gpu Taichi.seed] in *. rewrite Hcpu in *. simpl in *.
  split; [done|]. split; [|done].
  unfold Taichi.ti_inits in *. by rewrite omap_app, Hinits.
Qed.

(** X19: after construction, every call of the object (or of [show]) hands
    its image to the canvas, in the order of the calls, and shows the
    window exactly when the object is not headless: a headless object opens
    its window hidden and never shows it, and otherwise the window is shown
    once per call. *)
Theorem show_respects_headless context_ kw now evs (imgs : list image) :
  let run := (Taichi.__init__ context_ kw now;; for_each imgs Taichi.__call__)
               (Taichi.blank, evs) in
  let hidden := default false (Taichi.kw_headless kw) in
  run.1 = Ok tt
  ∧ Taichi.images run.2.2 = Taichi.images evs ++ imgs
  ∧ (∃ w, Taichi.opened run.2.2 = Taichi.opened evs ++ [w]
          ∧ Taichi.win_show_window w = negb hidden
          ∧ Taichi.shown run.2.2
            = Taichi.shown evs ++ (if hidden then [] else replicate (length imgs) w)).
Proof.
  cbv zeta.
  destruct (taichi_init_run context_ kw now evs)
    as (self & new & Hinit & _ & Ho & Hi & Hs & Hw & Hc & Hh & _).
  destruct (shows_run self _ _ imgs (evs ++ new) Hc Hw)
    as (new' & Hshows & Hi' & Hs' & _ & Ho').
  assert (Hrun : (Taichi.__init__ context_ kw now;; for_each imgs Taichi.__call__)
                   (Taichi.blank, evs) = (Ok tt, (self, (evs ++ new) ++ new'))).
  { unfold bind at 1. by rewrite Hinit, Hshows. }
  rewrite Hrun. cbn [fst snd]. split; [done|].
  unfold Taichi.images, Taichi.opened, Taichi.shown in *.
  rewrite !omap_app, Hi, Hi', Ho, Ho', Hs, Hs', Hh, ?app_nil_r. simpl.
  split; [done|]. eexists. split; [reflexivity|]. done.
Qed.
End TaichiFacts.

(** * Further concrete runs *)

Lemma block_of_Some (d : gmap string pyval) n k :
  block_size d n = Some k → d !! n = Some (VState (Demo.block_of d n)).
Proof.
  unfold block_size, Demo.block_of. by destruct (d !! n) as [[]|].
Qed.

Lemma built_Ok name a (r : gmap string pyval) (w : World) :
  Runs.is_ok (StateDict.new_State (r !! "tv") name a (r, w)).1 = true →
  (StateDict.new_State (r !! "tv") name a (r, w)).1 = Ok (Runs.built name a r w).
Proof.
  unfold Runs.built. by destruct (StateDict.new_State _ _ _ _).1.
Qed.

Lemma sets_keep_entries_witness :
  "tv" ≠ "size" ∧ Demo.s1.1 !! "tv" = Some (VTolvera Demo.tv0) ∧
  (sets [("p", VInt 1); ("tv", VOther "str"); ("q", Demo.q_spec); ("size", VInt 0)]
        (Demo.s1.1, Demo.s1.2)).1 !! "tv"
  = Some (VTolvera Demo.tv0).
Proof.
  assert (Hne : "tv" ≠ "size") by done.
  assert (Htv : Demo.s1.1 !! "tv" = Some (VTolvera Demo.tv0)).
  { vm_compute. reflexivity. }
  split; [exact Hne|]. split; [exact Htv|].
  exact (sets_keep_entries _ Demo.s1.1 Demo.s1.2 "tv" (VTolvera Demo.tv0) Hne Htv).
Defined.

Lemma set_rejects_non_spec_witness :
  block_spec (VInt 3) = false ∧ "p" ≠ "size" ∧ "p" ≠ "tv" ∧
  StateDict.set "p" (VInt 3) (Demo.s1.1, Demo.s1.2)
  = (Raise (if bool_decide (is_Some (Demo.s1.1 !! "p")) then ValueError "p"
            else TypeError "set() requires dict|tuple"), (Demo.s1.1, Demo.s1.2)).
Proof.
  assert (Hs : "p" ≠ "size") by done.
  assert (Ht : "p" ≠ "tv") by done.
  split; [reflexivity|]. split; [exact Hs|]. split; [exact Ht|].
  exact (set_rejects_non_spec "p" (VInt 3) Demo.s1.1 Demo.s1.2 eq_refl Hs Ht).
Defined.

Lemma set_raise_keeps_registry_witness :
  Demo.s2.1 !! "size" = Some (VInt 12) ∧ "z" ≠ "size" ∧
  (StateDict.set "z" (VDict (Demo.args Runs.xc 2 FNone FNone)) (Demo.s2.1, Demo.s2.2)).1
  = Raise (NotImplementedError "c") ∧
  (StateDict.set "z" (VDict (Demo.args Runs.xc 2 FNone FNone)) (Demo.s2.1, Demo.s2.2)).2.1
  = Demo.s2.1.
Proof.
  assert (Hz : Demo.s2.1 !! "size" = Some (VInt 12)) by (vm_compute; reflexivity).
  assert (Hn : "z" ≠ "size") by done.
  assert (He : (StateDict.set "z" (VDict (Demo.args Runs.xc 2 FNone FNone))
                  (Demo.s2.1, Demo.s2.2)).1 = Raise (NotImplementedError "c")).
  { vm_compute. reflexivity. }
  split; [exact Hz|]. split; [exact Hn|]. split; [exact He|].
  exact (set_raise_keeps_registry "z" _ Demo.s2.1 Demo.s2.2 12 _ Hz Hn He).
Defined.

Lemma add_replaces_block_witness :
  ledger_sound Demo.s1.1 ∧ Demo.s1.1 !! "p" = Some (VState Runs.p_old) ∧
  (StateDict.new_State (Demo.s1.1 !! "tv") "p" Runs.p_args (Demo.s1.1, Demo.s1.2)).1
  = Ok (Runs.built "p" Runs.p_args Demo.s1.1 Demo.s1.2) ∧
  (StateDict.add "p" (VDict Runs.p_args) (Demo.s1.1, Demo.s1.2)).1 = Ok tt.
Proof.
  assert (Hl : ledger_sound Demo.s1.1) by (vm_compute; reflexivity).
  assert (Hold : Demo.s1.1 !! "p" = Some (VState Runs.p_old)).
  { apply (block_of_Some Demo.s1.1 "p" 8). vm_compute. reflexivity. }
  assert (Hnew : (StateDict.new_State (Demo.s1.1 !! "tv") "p" Runs.p_args
                    (Demo.s1.1, Demo.s1.2)).1 = Ok (Runs.built "p" Runs.p_args Demo.s1.1 Demo.s1.2)).
  { apply (built_Ok "p" Runs.p_args Demo.s1.1 Demo.s1.2). vm_compute. reflexivity. }
  split; [exact Hl|]. split; [exact Hold|]. split; [exact Hnew|].
  exact (f_equal fst
           (proj1 (add_replaces_block "p" (VDict Runs.p_args) Runs.p_args Demo.s1.1
                     Demo.s1.2 Runs.p_old _ (or_introl eq_refl)
                     (λ E : "p" = "size", ltac:(discriminate E)) Hl Hold Hnew))).
Defined.

Lemma broken_ledger_stays_broken_witness :
  ledger_broken Runs.broken.1 ∧ block_spec Demo.q_spec = true ∧
  ∃ e, (StateDict.set "r" Demo.q_spec (Runs.broken.1, Runs.broken.2)).1 = Raise e.
Proof.
  assert (Hb : ledger_broken Runs.broken.1).
  { apply (block_size_Some Runs.broken.1 "size" 8). vm_compute. reflexivity. }
  split; [exact Hb|]. split; [reflexivity|].
  exact (proj1 (broken_ledger_stays_broken "r" Demo.q_spec Runs.broken.1 Runs.broken.2
                  Hb eq_refl)).
Defined.

Lemma set_size_block_breaks_witness :
  (StateDict.new_State (Demo.s2.1 !! "tv") "size" Runs.p_args (Demo.s2.1, Demo.s2.2)).1
  = Ok (Runs.built "size" Runs.p_args Demo.s2.1 Demo.s2.2) ∧
  (StateDict.set "size" (VDict Runs.p_args) (Demo.s2.1, Demo.s2.2)).1
  = Raise (TypeError "+").
Proof.
  assert (Hnew : (StateDict.new_State (Demo.s2.1 !! "tv") "size" Runs.p_args
                    (Demo.s2.1, Demo.s2.2)).1
                 = Ok (Runs.built "size" Runs.p_args Demo.s2.1 Demo.s2.2)).
  { apply (built_Ok "size" Runs.p_args Demo.s2.1 Demo.s2.2). vm_compute. reflexivity. }
  split; [exact Hnew|].
  exact (f_equal fst
           (set_size_block_breaks (VDict Runs.p_args) Runs.p_args Demo.s2.1 Demo.s2.2 _
              (or_introl eq_refl) Hnew)).
Defined.

Lemma get_size_app_witness :
  (StateDict.get_size (Names ["p"; "q"]) Demo.s2.1).1 = Ok 12 ∧
  (StateDict.get_size (Names ["q"]) Demo.s2.1).1 = Ok 4 ∧
  StateDict.get_size (Names (["p"; "q"] ++ ["q"])) Demo.s2.1 = (Ok (12 + 4), Demo.s2.1).
Proof.
  assert (H1 : (StateDict.get_size (Names ["p"; "q"]) Demo.s2.1).1 = Ok 12).
  { vm_compute. reflexivity. }
  assert (H2 : (StateDict.get_size (Names ["q"]) Demo.s2.1).1 = Ok 4).
  { vm_compute. reflexivity. }
  split; [exact H1|]. split; [exact H2|].
  exact (proj1 (get_size_app ["p"; "q"] ["q"] Demo.s2.1 12 4 H1 H2)).
Defined.

Lemma from_vec_unknown_name_witness :
  Forall (λ m, is_Some (block_size Demo.s2.1 m)) ["p"] ∧ (Demo.s2.1 !! "r" = None) ∧
  StateDict.from_vec (["p"] ++ "r" :: ["q"]) [1; 2; 3]%Z Demo.s2.1
  = (Raise (KeyError "r"), Demo.s2.1).
Proof.
  assert (Hp : Forall (λ m, is_Some (block_size Demo.s2.1 m)) ["p"]).
  { apply Forall_cons. split; [|apply Forall_nil_2].
    exists 8. vm_compute. reflexivity. }
  assert (Hr : Demo.s2.1 !! "r" = None) by (vm_compute; reflexivity).
  split; [exact Hp|]. split; [exact Hr|].
  exact (proj2 (from_vec_unknown_name ["p"] ["q"] "r" Demo.s2.1 Hp Hr) [1; 2; 3]%Z).
Defined.

Lemma from_vec_frame_witness :
  ("p" ∉ ["q"]) ∧
  ((StateDict.from_vec ["q"] [1; 2; 3; 4]%Z Demo.s2.1).2 !! "p" = Demo.s2.1 !! "p").
Proof.
  assert (Hp : "p" ∉ ["q"]).
  { intros Hin%list_elem_of_singleton. discriminate Hin. }
  split; [exact Hp|].
  exact (proj1 (from_vec_frame ["q"] [1; 2; 3; 4]%Z Demo.s2.1) "p" Hp).
Defined.

Lemma from_vec_distinct_blocks_witness :
  NoDup ["q"; "p"] ∧
  ∃ d', StateDict.from_vec ["q"; "p"] (concat Runs.chunks) Demo.s2.1 = (Ok tt, d')
    ∧ ∀ m, m ∉ ["q"; "p"] → d' !! m = Demo.s2.1 !! m.
Proof.
  assert (Hnd : NoDup ["q"; "p"]).
  { apply (bool_decide_unpack _). vm_compute. exact I. }
  assert (Hall : Forall2 (λ n c, ∃ blk, Demo.s2.1 !! n = Some (VState blk)
                            ∧ st_size blk = length c
                            ∧ (State.from_vec c blk).1 = Ok tt)
                   ["q"; "p"] Runs.chunks).
  { apply Forall2_cons. split.
    - exists Demo.q_block. split.
      + apply (block_of_Some Demo.s2.1 "q" 4). vm_compute. reflexivity.
      + split; vm_compute; reflexivity.
    - apply Forall2_cons. split; [|apply Forall2_nil_2].
      exists Demo.p_block. split.
      + apply (block_of_Some Demo.s2.1 "p" 8). vm_compute. reflexivity.
      + split; vm_compute; reflexivity. }
  split; [exact Hnd|].
  destruct (from_vec_distinct_blocks ["q"; "p"] Runs.chunks Demo.s2.1 Hnd Hall)
    as (d' & Hrun & _ & Hframe).
  exists d'. split; [exact Hrun|exact Hframe].
Defined.

Lemma init_unsupported_type_witness :
  Forall (λ kv : string * (DataType * Bound * Bound), is_Some (TiNpTypeMap kv.2.1.1))
    [("x", (Demo.f32, -1, 1))%Z] ∧
  TiNpTypeMap Demo.u8 = None ∧
  (State.__init__ Demo.tv0 (Some "z") Runs.xc None (FStr "get") (FStr "get") true None
     (State.blank, Demo.w0)).1 = Raise (NotImplementedError "c").
Proof.
  assert (Hpre : Forall (λ kv : string * (DataType * Bound * Bound),
                           is_Some (TiNpTypeMap kv.2.1.1)) [("x", (Demo.f32, -1, 1))%Z]).
  { apply Forall_cons. split; [by eexists|apply Forall_nil_2]. }
  assert (Hty : TiNpTypeMap Demo.u8 = None) by reflexivity.
  split; [exact Hpre|]. split; [exact Hty|].
  exact (proj1 (proj1 (init_unsupported_type [("x", (Demo.f32, -1, 1))%Z] []
                         "c" Demo.u8 0%Z 255%Z Hpre Hty)
                  Demo.tv0 "z" None (FStr "get") (FStr "get") true None Demo.w0)).
Defined.

Lemma osc_setters_abort_accessors_witness :
  is_Some (tv_osc (st_tv Demo.p_block)) ∧
  (State.handle_get_set (FTuple ["get"; "set"])).2 = true ∧
  (State.setup_accessors (FStr "get") (FTuple ["get"; "set"]) (Demo.p_block, Demo.w0)).1
  = Raise (AttributeError "_randomise").
Proof.
  assert (Ho : is_Some (tv_osc (st_tv Demo.p_block))).
  { apply (bool_decide_unpack _). vm_compute. exact I. }
  split; [exact Ho|]. split; [reflexivity|].
  exact (proj1 (osc_setters_abort_accessors (FStr "get") (FTuple ["get"; "set"])
                  Demo.p_block Demo.w0 Ho eq_refl)).
Defined.

Lemma readers_keep_device_witness :
  writes (CAttrToVec "nope") = false ∧
  st_field (run_codec (CAttrToVec "nope") Demo.p_block).2 = st_field Demo.p_block.
Proof.
  split; [reflexivity|].
  exact (readers_keep_device (CAttrToVec "nope") Demo.p_block eq_refl).
Defined.

Lemma init_cpu_overrides_gpu_witness :
  Taichi.kw_cpu Runs.kw_cpu = Some true ∧
  Taichi.ti_inits
    (Taichi.__init__ (image := Z) Runs.ctx0 Runs.kw_cpu 1000 (Taichi.blank, [])).2.2
  = Taichi.ti_inits (image := Z) []
    ++ [(Taichi.ti_cpu, default 1000%Z (Taichi.kw_seed Runs.kw_cpu))].
Proof.
  split; [reflexivity|].
  exact (proj1 (proj2 (init_cpu_overrides_gpu (image := Z) Runs.ctx0 Runs.kw_cpu 1000 []
                         eq_refl))).
Defined.

Lemma from_vec_concat_to_vec_witness :
  (∀ n, n ∈ ["q"; "p"] → ∃ blk, Demo.s2.1 !! n = Some (VState blk) ∧ wf blk) ∧
  NoDup ["q"; "p"] ∧
  Forall2 (λ n c, block_size Demo.s2.1 n = Some (length c)) ["q"; "p"] Runs.chunks ∧
  (∃ d', StateDict.from_vec ["q"; "p"] (concat Runs.chunks) Demo.s2.1 = (Ok tt, d')
         ∧ Forall2 (λ n c, (block_to_vec n d').1 = Ok c) ["q"; "p"] Runs.chunks
         ∧ ∀ m, m ∉ ["q"; "p"] → d' !! m = Demo.s2.1 !! m) ∧
  ∃ vecs d1 d2,
    to_vecs ["q"; "p"] Demo.s2.1 = (Ok vecs, d1) ∧
    Forall2 (λ n vec, block_size d1 n = Some (length vec)) ["q"; "p"] vecs ∧
    StateDict.from_vec ["q"; "p"] (concat vecs) d1 = (Ok tt, d2) ∧
    Forall2 (λ n vec, (block_to_vec n d2).1 = Ok vec) ["q"; "p"] vecs.
Proof.
  assert (Hblk : ∀ n, n ∈ ["q"; "p"] →
            ∃ blk, Demo.s2.1 !! n = Some (VState blk) ∧ wf blk).
  { intros n Hn.
    assert (Hsize : ∃ k, block_size Demo.s2.1 n = Some k).
    { apply elem_of_cons in Hn as [->|Hn];
        [exists 4; vm_compute; reflexivity|].
      apply elem_of_cons in Hn as [->|Hn];
        [exists 8; vm_compute; reflexivity|].
      by apply elem_of_nil in Hn. }
    destruct Hsize as [k Hk].
    destruct (block_size_Some Demo.s2.1 n k Hk) as [blk Hb].
    exists blk. split; [exact Hb|].
    exact (declared_blocks_wf Demo.s2 demo_table_compatible demo_declared n blk Hb). }
  assert (Hnd : NoDup ["q"; "p"]).
  { apply (bool_decide_unpack _). vm_compute. exact I. }
  assert (Hall : Forall2 (λ n c, block_size Demo.s2.1 n = Some (length c))
                   ["q"; "p"] Runs.chunks).
  { apply Forall2_cons. split; [vm_compute; reflexivity|].
    apply Forall2_cons. split; [vm_compute; reflexivity|apply Forall2_nil_2]. }
  split; [exact Hblk|]. split; [exact Hnd|]. split; [exact Hall|].
  destruct (proj2 (from_vec_concat_to_vec ["q"; "p"] Demo.s2.1) Hblk) as [Hload Hround].
  split; [exact (Hload Runs.chunks Hnd Hall)|exact Hround].
Defined.
